(** * Enstaller: install/remove orchestration and index/status engine

    A shallow embedding of [enstaller/enpkg.py] (the tail of [main] that
    computes the exclude set and drives the fetch, removal and install
    phases) and of [enstaller/resource.py] (the [Resources] class:
    [load_index], [_read_product_index], [add_product], [_add_egg_repos]
    and [get_status]), together with the properties of these functions.

    Python sets are [gset string], Python dicts are [gmap string _],
    side effects on the outside world (printing, subprocesses, HTTP) are
    recorded as an event trace that is threaded through the code, and
    raised exceptions are an explicit [Raise] result. *)

From Stdlib Require Import ZArith Ascii String.
From stdpp Require Import base option list gmap sets strings pretty.

Local Open Scope string_scope.
Local Open Scope list_scope.
#[local] Set Warnings "-register-all".

(** ** Exceptions and results *)

(** The exceptions the embedded code raises or lets through. *)
Inductive exn :=
| IndexError                                   (* list index out of range *)
| KeyError (key : string)
| TypeError
| AttributeError
| ValueError
| HTTPError
| AssertionError (msg : string)
| PlatformException (msg : string)             (* the bare [Exception] of add_product *)
| EnstallerResourceIndexError (msg : string).

Inductive result (A : Type) :=
| Ok (a : A)
| Raise (e : exn).
Arguments Ok {A} a.
Arguments Raise {A} e.

(** ** enpkg.py *)

Module Enpkg.

(** The command line options that the phases of [main] read. *)
Record options := {
  force : bool;
  forceall : bool;
  dry_run : bool
}.

(** What [main] does to the outside world. *)
Inductive event :=
| Makedirs (path : string)                          (* os.makedirs *)
| PprintFnAction (fn action : string)               (* pprint_fn_action *)
| FetchDist (dist dir : string) (check_md5 : bool)  (* c.fetch_dist *)
| CallEgginst (args : list string).                 (* call_egginst *)

Section main.
(** [indexed_repo.filename_dist], [utils.cname_eggname],
    [egginst.get_installed] and [os.path.join] are imported by
    enpkg.py; [sys.prefix] is the primary runtime location. *)
Variable filename_dist : string → string.
Variable cname_eggname : string → string.
Variable get_installed : string → list string.
Variable join : string → string → string.
Variable sys_prefix : string.

Definition emit (e : event) (tr : list event) : list event := tr ++ [e].

(** [iter_dists_excl]: the generator, as the list it yields. *)
Fixpoint iter_dists_excl (dists : list string) (exclude_fn : gset string)
  : list (string * string) :=
  match dists with
  | [] => []
  | dist :: rest =>
      let fn := filename_dist dist in
      if decide (fn ∈ exclude_fn) then iter_dists_excl rest exclude_fn
      else (dist, fn) :: iter_dists_excl rest exclude_fn
  end.

(** sys_inst and prefix_inst (lines 279-283). *)
Definition sys_inst : gset string := list_to_set (get_installed sys_prefix).

Definition prefix_inst (prefix : string) : gset string :=
  if decide (prefix = sys_prefix) then sys_inst
  else list_to_set (get_installed prefix).

Definition all_inst (prefix : string) : gset string :=
  sys_inst ∪ prefix_inst prefix.

(** The exclude set (lines 287-291); [dists[-1]] raises on an empty list. *)
Definition exclude_set (opts : options) (prefix : string)
    (dists : list string) : result (gset string) :=
  let exclude := all_inst prefix in
  if force opts then
    match last dists with
    | Some d => Ok (exclude ∖ {[ filename_dist d ]})
    | None => Raise IndexError
    end
  else if forceall opts then Ok ∅
  else Ok exclude.

(** Fetch phase (lines 294-301). *)
Definition fetch_step (opts : options) (local : string)
    (tr : list event) (df : string * string) : list event :=
  if dry_run opts then emit (PprintFnAction df.2 "downloading") tr
  else emit (FetchDist df.1 local (force opts || forceall opts)) tr.

Definition fetch_phase (opts : options) (local : string)
    (dists : list string) (exclude : gset string) (tr : list event)
  : list event :=
  foldl (fetch_step opts local) tr (iter_dists_excl dists exclude).

(** Removal phase (lines 303-317). *)
Definition remove_inst_step (opts : options) (prefix cname : string)
    (tr : list event) (fn_inst : string) : list event :=
  if decide (cname ≠ cname_eggname fn_inst) then tr
  else
    let tr := emit (PprintFnAction fn_inst "removing") tr in
    if dry_run opts then tr
    else emit (CallEgginst ["--remove"; "--prefix"; prefix; fn_inst]) tr.

Definition remove_step (opts : options) (prefix : string)
    (tr : list event) (dist : string) : list event :=
  let fn := filename_dist dist in
  if decide (fn ∈ sys_inst) then tr
  else
    let cname := cname_eggname fn in
    foldl (remove_inst_step opts prefix cname) tr
          (elements (prefix_inst prefix)).

Definition remove_phase (opts : options) (prefix : string)
    (dists : list string) (tr : list event) : list event :=
  foldl (remove_step opts prefix) tr (reverse dists).

(** Install phase (lines 319-325). *)
Definition install_step (opts : options) (prefix local : string)
    (tr : list event) (df : string * string) : list event :=
  let tr := emit (PprintFnAction df.2 "installing") tr in
  let path := join local df.2 in
  if dry_run opts then tr
  else emit (CallEgginst ["--prefix"; prefix; path]) tr.

Definition install_phase (opts : options) (prefix local : string)
    (dists : list string) (exclude : gset string) (tr : list event)
  : list event :=
  foldl (install_step opts prefix local) tr (iter_dists_excl dists exclude).

(** [main] from the point where [dists] is known (lines 279-325).
    [local_isdir] is what [isdir(conf['local'])] answers. *)
Definition main (opts : options) (prefix local : string)
    (local_isdir : bool) (dists : list string) : result (list event) :=
  match exclude_set opts prefix dists with
  | Raise e => Raise e
  | Ok exclude =>
      let tr := if local_isdir then [] else emit (Makedirs local) [] in
      let tr := fetch_phase opts local dists exclude tr in
      let tr := remove_phase opts prefix dists tr in
      let tr := install_phase opts prefix local dists exclude tr in
      Ok tr
  end.

(** *** Observations on a trace *)

(** Filenames the fetch phase acted on. *)
Definition fetched (tr : list event) : list string :=
  omap (λ e, match e with
             | PprintFnAction fn a =>
                 if String.eqb a "downloading" then Some fn else None
             | FetchDist dist _ _ => Some (filename_dist dist)
             | _ => None
             end) tr.

(** Filenames for which a removal action was emitted. *)
Definition removed (tr : list event) : list string :=
  omap (λ e, match e with
             | PprintFnAction fn a =>
                 if String.eqb a "removing" then Some fn else None
             | _ => None
             end) tr.

(** Filenames the install phase acted on. *)
Definition installed (tr : list event) : list string :=
  omap (λ e, match e with
             | PprintFnAction fn a =>
                 if String.eqb a "installing" then Some fn else None
             | _ => None
             end) tr.

(** The argument lists of the egginst subprocesses, in call order. *)
Definition egginst_calls (tr : list event) : list (list string) :=
  omap (λ e, match e with
             | CallEgginst args => Some args
             | _ => None
             end) tr.

(** What the removal phase removes on behalf of one target. *)
Definition removed_for (prefix dist : string) : list string :=
  let fn := filename_dist dist in
  if decide (fn ∈ sys_inst) then []
  else filter (λ fn_inst, cname_eggname fn = cname_eggname fn_inst)
              (elements (prefix_inst prefix)).

(** The targets left after exclusion, as filenames, in list order. *)
Definition not_excluded (dists : list string) (exclude : gset string)
  : list string :=
  filter (λ fn, fn ∉ exclude) (filename_dist <$> dists).


(** The events of one step of each loop. *)
Definition fetch_events (opts : options) (local : string)
    (df : string * string) : list event :=
  if dry_run opts then [PprintFnAction df.2 "downloading"]
  else [FetchDist df.1 local (force opts || forceall opts)].

Definition remove_events (opts : options) (prefix fn_inst : string)
  : list event :=
  PprintFnAction fn_inst "removing" ::
  if dry_run opts then []
  else [CallEgginst ["--remove"; "--prefix"; prefix; fn_inst]].

Definition install_events (opts : options) (prefix local : string)
    (df : string * string) : list event :=
  PprintFnAction df.2 "installing" ::
  if dry_run opts then []
  else [CallEgginst ["--prefix"; prefix; join local df.2]].

End main.
End Enpkg.

(** ** resource.py *)

(** What [json.load] and [json.loads] return.  The items of a [JDict] are
    the items of the Python dict in its iteration order; keys are distinct. *)
Inductive json :=
| JNull
| JBool (b : bool)
| JInt (n : Z)
| JStr (s : string)
| JList (l : list json)
| JDict (items : list (string * json)).

Module Chain.
(** One entry of [chain.index], as [_add_egg_repos] builds it. *)
Record spec := {
  metadata_version : string;
  name : string;
  version : string;
  build : Z;
  python : json;
  packages : json;
  cname : string
}.

(** The fields of [indexed_repo.chain.Chain] that resource.py touches. *)
Record t := {
  repos : list string;
  index : gmap string spec;
  groups : gmap string (list string)     (* a defaultdict(list) *)
}.

Definition empty : t := {| repos := []; index := ∅; groups := ∅ |}.
End Chain.

Module Resource.

(** A product is a dict that [load_index] and [add_product] update in
    place before it is appended to [self.index]. *)
Record Resources := {
  index : list (gmap string json);
  chain : Chain.t                       (* self.enst.chain *)
}.

Definition init : Resources := {| index := []; chain := Chain.empty |}.

(** An HTTP response, as far as [_read_product_index] looks at it. *)
Record response := {
  status : Z;
  body : string
}.

(** The remote servers: what [_read_json_from_url] gives for a URL, and
    what a GET of a path on a host answers. *)
Record network := {
  read_json_from_url : string → result json;
  http_get : string → string → response
}.

Inductive conn := conn1 | conn2.

(** What [_read_product_index] does with its two connections. *)
Inductive http_event :=
| Request (c : conn) (netloc path : string)
| GetResponse (c : conn)
| Read (c : conn)
| Close (c : conn).

(** *** The state-and-exception monad of the [Resources] methods *)

Definition M (A : Type) : Type := Resources → result A * Resources.

Definition ret {A} (a : A) : M A := λ self, (Ok a, self).
Definition raise {A} (e : exn) : M A := λ self, (Raise e, self).
Definition bind {A B} (m : M A) (k : A → M B) : M B :=
  λ self, match m self with
          | (Ok a, self') => k a self'
          | (Raise e, self') => (Raise e, self')
          end.
Definition lift {A} (r : result A) : M A := λ self, (r, self).
Definition modify_chain (f : Chain.t → Chain.t) : M unit :=
  λ self, (Ok tt, {| index := index self; chain := f (chain self) |}).

Notation "'let!' x ':=' m 'in' k" := (bind m (λ x, k))
  (at level 10, x pattern, m at level 100, k at level 200).
Notation "m ';;' k" := (bind m (λ _, k))
  (at level 100, k at level 200, right associativity).

(** [for x in l: body(x)] *)
Fixpoint for_ {A} (l : list A) (body : A → M unit) : M unit :=
  match l with
  | [] => ret tt
  | x :: rest => body x ;; for_ rest body
  end.

(** A fold that stops at the first exception. *)
Fixpoint foldM {A S} (f : S → A → result S) (s : S) (l : list A)
  : result S :=
  match l with
  | [] => Ok s
  | x :: rest =>
      match f s x with
      | Ok s' => foldM f s' rest
      | Raise e => Raise e
      end
  end.

(** *** Python on JSON values *)

Fixpoint assoc (k : string) (items : list (string * json)) : option json :=
  match items with
  | [] => None
  | (k', v) :: rest => if String.eqb k k' then Some v else assoc k rest
  end.

(** [d[k]] *)
Definition getitem (d : json) (k : string) : result json :=
  match d with
  | JDict items =>
      match assoc k items with
      | Some v => Ok v
      | None => Raise (KeyError k)
      end
  | _ => Raise TypeError
  end.

(** [d.get(k, default)] *)
Definition dict_get (d : json) (k : string) (default : json) : result json :=
  match d with
  | JDict items => Ok (from_option id default (assoc k items))
  | _ => Raise AttributeError
  end.

(** [d.iteritems()] *)
Definition iteritems (d : json) : result (list (string * json)) :=
  match d with
  | JDict items => Ok items
  | _ => Raise AttributeError
  end.

Definition chars (s : string) : list json :=
  (λ a, JStr (String a EmptyString)) <$> list_ascii_of_string s.

(** [for x in j] *)
Definition iter (j : json) : result (list json) :=
  match j with
  | JList l => Ok l
  | JDict items => Ok (JStr <$> items.*1)
  | JStr s => Ok (chars s)
  | _ => Raise TypeError
  end.

(** [l[i]] on a list, with Python's negative indices. *)
Definition list_getitem {A} (l : list A) (i : json) : result A :=
  let at_ (n : Z) :=
    let n' := if (n <? 0)%Z then (n + Z.of_nat (length l))%Z else n in
    if (n' <? 0)%Z then Raise IndexError
    else match l !! Z.to_nat n' with
         | Some x => Ok x
         | None => Raise IndexError
         end in
  match i with
  | JInt n => at_ n
  | JBool b => at_ (if b then 1 else 0)%Z
  | _ => Raise TypeError
  end.

(** [s.rstrip('/')] *)
Fixpoint lstrip_slash (s : string) : string :=
  match s with
  | String "/" rest => lstrip_slash rest
  | _ => s
  end.
Definition rstrip_slash (s : string) : string :=
  String.rev (lstrip_slash (String.rev s)).

(** ['\n'.join(l)] *)
Fixpoint join_lines (l : list string) : string :=
  match l with
  | [] => ""
  | [x] => x
  | x :: rest => x +:+ String "010" (join_lines rest)
  end.

(** [dict(items)]: a later item overrides an earlier one. *)
Definition dict_of_items (items : list (string * json)) : gmap string json :=
  foldl (λ d kv, <[kv.1 := kv.2]> d) ∅ items.

(** [d.update(other)] *)
Definition update (d : gmap string json) (other : list (string * json))
  : gmap string json :=
  foldl (λ d kv, <[kv.1 := kv.2]> d) d other.

Section methods.
(** Imported by resource.py and not part of it: [json.loads],
    [urlsplit(url).netloc] and [urlsplit(url).path], Python's [str] on
    a JSON value that is not a string, [dist_naming.split_eggname] and
    [dist_naming.split_dist] ([None] when their assertion fails),
    [utils.comparable_version] ([None] when it raises
    [IrrationalVersionError]) with the order of the objects it
    returns, and [Chain.get_dist] on the requirement [Req(cname)]. *)
Context {V : Type}.
Variable json_loads : string → option json.
Variable url_netloc : string → string.
Variable url_path : string → string.
Variable py_str : json → string.
Variable split_eggname : string → option (string * string * Z).
Variable split_dist : string → option (string * string).
Variable comparable_version : string → option V.
Variable V_cmp : V → V → comparison.
Variable get_dist : Chain.t → string → option string.

(** Modelled from the spec: [indexed_repo.requirement.add_Reqs_to_spec]
    is not part of the sources; it derives the canonical name from
    the parsed name of the spec.  [canonical_name] is that derivation. *)
Variable canonical_name : string → string.

(** [self.plat] *)
Variable plat : string.

(** The external installed-set probe: [self.enst.get_installed_cnames()]
    and [self.enst.get_installed_info(cname)[0][1]]. *)
Variable get_installed_cnames : list string.
Variable get_installed_info : string → option (gmap string string).

(** ['%s' % j] *)
Definition format_s (j : json) : string :=
  match j with
  | JStr s => s
  | _ => py_str j
  end.

(** The two URLs of a product index (lines 113-114). *)
Definition independent_url (product_url : string) : string :=
  product_url +:+ "/index.json".
Definition specific_url (product_url : string) : string :=
  product_url +:+ "/index-" +:+ plat +:+ ".json".

(** [_read_product_index] (lines 101-152), with the trace of what it
    does with the two connections.  The [finally] clause closes both
    connections on every path. *)
Definition _read_product_index (net : network) (product_url : string)
  : result (string * json) * list http_event :=
  let independent := independent_url product_url in
  let specific := specific_url product_url in
  let tr := [Request conn1 (url_netloc independent) (url_path independent);
             Request conn2 (url_netloc specific) (url_path specific)] in
  let finally (r : result (string * json)) (tr : list http_event) :=
    (r, tr ++ [Close conn1; Close conn2]) in
  let res := http_get net (url_netloc independent) (url_path independent) in
  let tr := tr ++ [GetResponse conn1] in
  if (status res =? 200)%Z then
    let data := body res in
    let tr := tr ++ [Read conn1] in
    match json_loads data with
    | Some j => finally (Ok (independent, j)) tr
    | None =>
        finally (Raise (EnstallerResourceIndexError (url_path specific))) tr
    end
  else
    let res := http_get net (url_netloc specific) (url_path specific) in
    let tr := tr ++ [GetResponse conn2] in
    if (status res =? 200)%Z then
      let data := body res in
      let tr := tr ++ [Read conn2] in
      match json_loads data with
      | Some j => finally (Ok (specific, j)) tr
      | None =>
          finally (Raise (EnstallerResourceIndexError (url_path specific))) tr
      end
    else
      let tr := tr ++ [Read conn2] in    (* for the logged message *)
      finally (Raise (EnstallerResourceIndexError (url_path specific))) tr.

(** The body of the inner loop of [_add_egg_repos] (lines 184-193). *)
Definition add_egg (repos : list string) (cname : string)
    (file : string * json) : M unit :=
  let '(distname, data) := file in
  match split_eggname distname with
  | None => raise (AssertionError distname)
  | Some (name, version, build) =>
      let! python := lift (dict_get data "python" (JStr "2.7")) in
      let! packages := lift (dict_get data "depends" (JList [])) in
      let spec := {| Chain.metadata_version := "1.1";
                     Chain.name := name;
                     Chain.version := version;
                     Chain.build := build;
                     Chain.python := python;
                     Chain.packages := packages;
                     Chain.cname := canonical_name name |} in
      if negb (String.eqb (Chain.cname spec) cname)
      then raise (AssertionError distname)
      else
        let! i := lift (dict_get data "repo" (JInt 0)) in
        let! repo := lift (list_getitem repos i) in
        let dist := repo +:+ distname in
        modify_chain (λ c,
          {| Chain.repos := Chain.repos c;
             Chain.index := <[dist := spec]> (Chain.index c);
             Chain.groups :=
               <[cname := default [] (Chain.groups c !! cname) ++ [dist]]>
                 (Chain.groups c) |})
  end.

(** The body of the outer loop of [_add_egg_repos] (line 183). *)
Definition add_project (repos : list string)
    (entry : string * json) : M unit :=
  let '(cname, project) := entry in
  let! files := lift (getitem project "files") in
  let! files := lift (iteritems files) in
  for_ files (add_egg repos cname).

(** [url + '/' + path + '/'] for one entry of [egg_repos]. *)
Definition egg_repo (url : string) (path : json) : result string :=
  match path with
  | JStr p => Ok (url +:+ "/" +:+ p +:+ "/")
  | _ => Raise TypeError
  end.

(** [_add_egg_repos] (lines 175-193); [index] is the product dict. *)
Definition _add_egg_repos (url : string) (index : gmap string json)
  : M unit :=
  let! repos :=
    match index !! "egg_repos" with
    | Some paths =>
        let! paths := lift (iter paths) in
        lift (foldM (λ acc p, match egg_repo url p with
                              | Ok r => Ok (acc ++ [r])
                              | Raise e => Raise e
                              end) [] paths)
    | None => ret [url]
    end in
  modify_chain (λ c, {| Chain.repos := Chain.repos c ++ repos;
                         Chain.index := Chain.index c;
                         Chain.groups := Chain.groups c |}) ;;
  let! eggs := lift (match index !! "eggs" with
                     | Some eggs => iteritems eggs
                     | None => Raise (KeyError "eggs")
                     end) in
  for_ eggs (add_project repos).

(** The first half of [add_product] (lines 161-164): the product index
    is read and merged into the product dict.  [index_url] is kept as the
    URL string of the split result.  [product.update] takes a JSON
    object; an empty list or string updates nothing, and any other value
    is taken to raise. *)
Definition merge_product_index (net : network) (product : gmap string json)
  : result (gmap string json) :=
  match product !! "url" with
  | None => Raise (KeyError "url")
  | Some url =>
      match (_read_product_index net (format_s url)).1 with
      | Raise e => Raise e
      | Ok (index_url, product_index) =>
          let product := <["index_url" := JStr index_url]> product in
          match product_index with
          | JDict items => Ok (update product items)
          | JList [] => Ok product
          | JStr EmptyString => Ok product
          | JStr (String _ _) => Raise ValueError
          | _ => Raise TypeError
          end
      end
  end.

(** The platform check of [add_product] (lines 166-168). *)
Definition check_platform (product : gmap string json) : M unit :=
  match product !! "platform" with
  | Some p =>
      if negb (match p with JStr p' => String.eqb p' plat | _ => false end)
      then raise (PlatformException
                    ("index file for platform " +:+ format_s p +:+
                     ", but running " +:+ plat))
      else ret tt
  | None => ret tt
  end.

(** [add_product] (lines 154-173).  [_add_egg_repos] concatenates [url]
    with strings, so a [url] that the product index has overridden with a
    value that is not a string is taken to raise when it is passed. *)
Definition add_product (net : network) (product : gmap string json)
  : M unit :=
  let! product := lift (merge_product_index net product) in
  check_platform product ;;
  match product !! "eggs" with
  | Some _ =>
      let! url := lift (match product !! "url" with
                        | Some (JStr u) => Ok u
                        | Some _ => Raise TypeError
                        | None => Raise (KeyError "url")
                        end) in
      _add_egg_repos url product
  | None => ret tt
  end ;;
  λ self, (Ok tt, {| index := index self ++ [product]; chain := chain self |}).

(** The product dict that the loop of [load_index] hands to
    [add_product] (lines 87-89). *)
Definition prepare_product (url : string) (product : json)
  : result (gmap string json) :=
  match getitem product "product" with
  | Raise e => Raise e
  | Ok name =>
      match iteritems product with
      | Raise e => Raise e
      | Ok items =>
          let product_url := url +:+ "/products/" +:+ format_s name in
          let product := dict_of_items items in
          let product := <["base_url" := JStr url]> product in
          Ok (<["url" := JStr (rstrip_slash product_url)]> product)
      end
  end.

(** The body of the loop of [load_index] (lines 87-93): the message of
    a caught [EnstallerResourceIndexError] is appended to the list. *)
Definition load_product (net : network) (url : string)
    (failed_index_urls : list string) (product : json)
  : M (list string) :=
  let! product := lift (prepare_product url product) in
  λ self,
    match add_product net product self with
    | (Raise (EnstallerResourceIndexError bad_url), self') =>
        (Ok (failed_index_urls ++ [bad_url]), self')
    | (Raise e, self') => (Raise e, self')
    | (Ok _, self') => (Ok failed_index_urls, self')
    end.

Fixpoint load_products (net : network) (url : string)
    (failed_index_urls : list string) (products : list json)
  : M (list string) :=
  match products with
  | [] => ret failed_index_urls
  | product :: rest =>
      let! failed_index_urls :=
        load_product net url failed_index_urls product in
      load_products net url failed_index_urls rest
  end.

(** [load_index] (lines 76-99). *)
Definition load_index (net : network) (url : string) : M unit :=
  let url := rstrip_slash url in
  let index_url := url +:+ "/" +:+ "products" in
  match read_json_from_url net index_url with
  | Raise HTTPError => ret tt
  | Raise e => raise e
  | Ok index =>
      let! products := lift (iter index) in
      let! failed_index_urls := load_products net url [] products in
      match failed_index_urls with
      | [] => ret tt
      | _ :: _ =>
          raise (EnstallerResourceIndexError
                   ("Unable to read resource indices:" +:+
                    String "010" (join_lines failed_index_urls)))
      end
  end.

(** *** What one product of the root index does to a load *)

(** How [add_product] ends for one product of the root index. *)
Definition outcome (net : network) (url : string) (product : json)
  : result unit :=
  match prepare_product url product with
  | Raise e => Raise e
  | Ok p => (add_product net p init).1
  end.

(** The product is added, or its index cannot be read. *)
Definition nonfatal (net : network) (url : string) (product : json) : bool :=
  match outcome net url product with
  | Ok _ => true
  | Raise (EnstallerResourceIndexError _) => true
  | Raise _ => false
  end.

(** The messages of the products whose index cannot be read. *)
Definition failed_of (net : network) (url : string) (products : list json)
  : list string :=
  omap (λ product, match outcome net url product with
                   | Raise (EnstallerResourceIndexError bad_url) => Some bad_url
                   | _ => None
                   end) products.

(** The products that are added, one after the other. *)
Definition loaded (net : network) (url : string) (products : list json)
    (self : Resources) : Resources :=
  foldl (λ self product,
           match prepare_product url product with
           | Ok p =>
               match add_product net p self with
               | (Ok _, self') => self'
               | (Raise _, _) => self
               end
           | Raise _ => self
           end) self products.

(** The merged dicts of the products that are added, in order. *)
Definition added_products (net : network) (url : string)
    (products : list json) : list (gmap string json) :=
  omap (λ product,
          match outcome net url product, prepare_product url product with
          | Ok _, Ok p =>
              match merge_product_index net p with
              | Ok p' => Some p'
              | Raise _ => None
              end
          | _, _ => None
          end) products.

(** A computation that reads nothing of [self], writes only the chain
    and does not raise [EnstallerResourceIndexError]. *)
Definition tame {A} (m : M A) : Prop :=
  ∃ (r : result A) (f : Chain.t → Chain.t),
    (∀ msg, r ≠ Raise (EnstallerResourceIndexError msg))
    ∧ ∀ self, m self = (r, {| index := index self; chain := f (chain self) |}).

(** *** get_status (lines 200-247) *)

(** A status record is a [defaultdict(str)]: reading a missing key
    gives [''] and stores it. *)
Definition getitem_str (d : gmap string string) (k : string)
  : string * gmap string string :=
  match d !! k with
  | Some v => (v, d)
  | None => ("", <[k := ""]> d)
  end.

(** The body of the loop over [chain.groups] (lines 213-223). *)
Definition available_step (c : Chain.t)
    (res : gmap string (gmap string string)) (cname : string)
  : result (gmap string (gmap string string)) :=
  match get_dist c cname with
  | None => Ok res
  | Some dist =>
      match split_dist dist with
      | None => Raise (AssertionError dist)
      | Some (repo, fn) =>
          match split_eggname fn with
          | None => Raise (AssertionError fn)
          | Some (n, v, b) =>
              let res :=
                match res !! cname with
                | Some _ => res
                | None => <[cname := {[ "name" := cname ]}]> res
                end in
              let res := alter (insert "a-egg" fn) cname res in
              let res :=
                alter (insert "a-ver" (v +:+ "-" +:+ pretty b)) cname res in
              Ok res
          end
      end
  end.

(** The body of the loop over the installed names (lines 205-223);
    the loop over [chain.groups] is nested in it. *)
Definition installed_step (c : Chain.t)
    (res : gmap string (gmap string string)) (cname : string)
  : result (gmap string (gmap string string)) :=
  match get_installed_info cname with
  | None => Ok res
  | Some info =>
      let res := <[cname := info]> res in
      foldM (available_step c) res (map_to_list (Chain.groups c)).*1
  end.

(** [vb_egg] (lines 225-232) *)
Definition vb_egg (fn : string) : option (V * Z) :=
  match split_eggname fn with
  | None => None                       (* except AssertionError *)
  | Some (n, v, b) =>
      match comparable_version v with
      | None => None                   (* except IrrationalVersionError *)
      | Some cv => Some (cv, b)
      end
  end.

(** Python 2 comparison of two pairs: the first components decide
    unless they are equal. *)
Definition tuple_cmp (x y : V * Z) : comparison :=
  match V_cmp x.1 y.1 with
  | Eq => (x.2 ?= y.2)%Z
  | c => c
  end.

(** Python 2 [x >= y] where either side may be [None]: [None] is
    below every pair. *)
Definition py_ge (x y : option (V * Z)) : bool :=
  match x, y with
  | _, None => true
  | None, Some _ => false
  | Some x, Some y =>
      match tuple_cmp x y with
      | Lt => false
      | _ => true
      end
  end.

(** The body of the last loop (lines 235-245). *)
Definition set_status (d : gmap string string) : gmap string string :=
  let '(egg_name, d) := getitem_str d "egg_name" in
  if negb (String.eqb egg_name "") then
    let '(a_egg, d) := getitem_str d "a-egg" in
    if negb (String.eqb a_egg "") then
      if py_ge (vb_egg egg_name) (vb_egg a_egg)
      then <["status" := "up-to-date"]> d
      else <["status" := "updateable"]> d
    else <["status" := "installed"]> d
  else
    let '(a_egg, d) := getitem_str d "a-egg" in
    if negb (String.eqb a_egg "") then <["status" := "installable"]> d
    else d.

(** [get_status], computed afresh (the cache is empty). *)
Definition get_status (self : Resources)
  : result (gmap string (gmap string string)) :=
  match foldM (installed_step (chain self)) ∅ get_installed_cnames with
  | Raise e => Raise e
  | Ok res => Ok (set_status <$> res)
  end.

(** *** What get_status sees of one canonical name *)

(** The names of the groups of the chain, in iteration order. *)
Definition group_names (c : Chain.t) : list string :=
  (map_to_list (Chain.groups c)).*1.

(** The distribution that [get_dist] answers for a group can be split
    into repository, name, version and build. *)
Definition well_named (c : Chain.t) (cname : string) : bool :=
  match get_dist c cname with
  | None => true
  | Some dist =>
      match split_dist dist with
      | Some (repo, fn) => bool_decide (is_Some (split_eggname fn))
      | None => false
      end
  end.

(** The best available egg of a name: filename, version and build. *)
Definition available (c : Chain.t) (cname : string)
  : option (string * string * Z) :=
  if decide (cname ∈ group_names c) then
    match get_dist c cname with
    | Some dist =>
        match split_dist dist with
        | Some (repo, fn) =>
            match split_eggname fn with
            | Some (n, v, b) => Some (fn, v, b)
            | None => None
            end
        | None => None
        end
    | None => None
    end
  else None.

(** The installed record of a name: the info dict of the probe. *)
Definition installed_record (cname : string) : option (gmap string string) :=
  if decide (cname ∈ get_installed_cnames) then get_installed_info cname
  else None.

(** Some installed name has an info dict. *)
Definition some_installed (names : list string) : bool :=
  existsb (λ cname, bool_decide (is_Some (get_installed_info cname))) names.

(** A record after the loop over the groups has run. *)
Definition with_available (c : Chain.t) (cname : string)
    (d : option (gmap string string)) : option (gmap string string) :=
  match available c cname with
  | Some (fn, v, b) =>
      Some (<["a-ver" := v +:+ "-" +:+ pretty b]>
              (<["a-egg" := fn]> (default {[ "name" := cname ]} d)))
  | None => d
  end.

(** [x <= y] on pairs of a version and a build. *)
Definition tuple_le (x y : V * Z) : bool :=
  match tuple_cmp x y with
  | Gt => false
  | _ => true
  end.

(** The status of a name in the result of [get_status]. *)
Definition status_of (res : gmap string (gmap string string))
    (cname : string) : option string :=
  match res !! cname with
  | Some d => d !! "status"
  | None => None
  end.
End methods.
End Resource.

(** ** Concrete naming functions

    The naming helpers live in [indexed_repo.dist_naming], [utils] and
    [verlib], outside the two source files.  The properties below are
    proved for arbitrary helpers; the instances here are used to run the
    code on concrete inputs. *)

Module Naming.

(** [s.split(sep)] for a separator of one character. *)
Fixpoint split (sep : ascii) (s : string) : list string :=
  match s with
  | EmptyString => [EmptyString]
  | String a rest =>
      if Ascii.eqb a sep then EmptyString :: split sep rest
      else match split sep rest with
           | hd :: tl => String a hd :: tl
           | [] => [String a EmptyString]
           end
  end.

Definition is_digit (a : ascii) : bool :=
  let n := nat_of_ascii a in (48 <=? n)%nat && (n <=? 57)%nat.

Definition is_word (a : ascii) : bool :=
  let n := nat_of_ascii a in
  is_digit a || ((65 <=? n)%nat && (n <=? 90)%nat)
  || ((97 <=? n)%nat && (n <=? 122)%nat)
  || Ascii.eqb a "_" || Ascii.eqb a ".".

Definition lower_ascii (a : ascii) : ascii :=
  let n := nat_of_ascii a in
  if (65 <=? n)%nat && (n <=? 90)%nat then ascii_of_nat (n + 32) else a.

Fixpoint lower (s : string) : string :=
  match s with
  | EmptyString => EmptyString
  | String a rest => String (lower_ascii a) (lower rest)
  end.

Fixpoint all_chars (p : ascii → bool) (s : string) : bool :=
  match s with
  | EmptyString => true
  | String a rest => p a && all_chars p rest
  end.

(** The decimal number written by a string of digits. *)
Fixpoint decimal (acc : N) (s : string) : option N :=
  match s with
  | EmptyString => Some acc
  | String a rest =>
      if is_digit a
      then decimal (acc * 10 + N.of_nat (nat_of_ascii a - 48)) rest
      else None
  end.

Definition number (s : string) : option N :=
  match s with
  | EmptyString => None
  | _ => decimal 0 s
  end.

(** Modelled from the spec: a distribution identifier is a repository
    location followed by a filename; [filename_dist] is the part after
    the last slash. *)
Definition filename_dist (dist : string) : string :=
  default dist (last (split "/" dist)).

(** Modelled from the spec: the repository location and the filename of
    a distribution identifier; the assertion fails without a slash. *)
Definition split_dist (dist : string) : option (string * string) :=
  let fn := filename_dist dist in
  let n := (String.length dist - String.length fn)%nat in
  if (n =? 0)%nat then None else Some (substring 0 n dist, fn).

(** Modelled from the spec: the canonical name of an egg file is the
    lower-case name that precedes the first dash. *)
Definition cname_eggname (fn : string) : string :=
  lower (default "" (head (split "-" fn))).

Definition canonical_name (name : string) : string := lower name.

(** Modelled from the spec: a filename encodes name, version and build
    number as [name-version-build.egg]; anything else fails the
    assertion of [split_eggname]. *)
Definition split_eggname (eggname : string) : option (string * string * Z) :=
  let n := String.length eggname in
  if negb (String.eqb (substring (n - 4) 4 eggname) ".egg") then None
  else
    match split "-" (substring 0 (n - 4) eggname) with
    | [name; version; build] =>
        if negb (String.eqb name "") && all_chars is_word name
           && negb (String.eqb version "") && all_chars is_word version
        then match number build with
             | Some b => Some (name, version, Z.of_N b)
             | None => None
             end
        else None
    | _ => None
    end.

(** Modelled from the spec: versions are compared component by
    component.  Only versions made of at least two dotted decimal numbers
    are covered here; every other version string is irrational.  Trailing
    zero components do not count. *)
Fixpoint numbers (l : list string) : option (list N) :=
  match l with
  | [] => Some []
  | s :: rest =>
      match number s, numbers rest with
      | Some n, Some ns => Some (n :: ns)
      | _, _ => None
      end
  end.

Fixpoint strip_zeros (l : list N) : list N :=
  match l with
  | [] => []
  | n :: rest =>
      match strip_zeros rest with
      | [] => if (n =? 0)%N then [] else [n]
      | rest' => n :: rest'
      end
  end.

Definition comparable_version (v : string) : option (list N) :=
  let parts := split "." v in
  if (length parts <? 2)%nat then None
  else strip_zeros <$> numbers parts.

Fixpoint V_cmp (x y : list N) : comparison :=
  match x, y with
  | [], [] => Eq
  | [], _ :: _ => Lt
  | _ :: _, [] => Gt
  | a :: x', b :: y' =>
      match (a ?= b)%N with
      | Eq => V_cmp x' y'
      | c => c
      end
  end.
End Naming.

(** ** Concrete runs of the orchestrator *)

Module EnpkgRun.
Definition sys_prefix : string := "/usr".

(** [os.path.join] of a directory and a relative file name. *)
Definition join (a b : string) : string := a +:+ "/" +:+ b.

(** One egg under [sys.prefix], nothing elsewhere. *)
Definition installed_sys (prefix : string) : list string :=
  if String.eqb prefix "/usr" then ["foo-1.0-1.egg"] else [].

(** One egg under the prefix [/opt/env], nothing under [sys.prefix]. *)
Definition installed_env (prefix : string) : list string :=
  if String.eqb prefix "/opt/env" then ["foo-1.0-1.egg"] else [].

Definition plain : Enpkg.options :=
  {| Enpkg.force := false; Enpkg.forceall := false; Enpkg.dry_run := false |}.

Definition force_and_forceall : Enpkg.options :=
  {| Enpkg.force := true; Enpkg.forceall := true; Enpkg.dry_run := false |}.

Definition force_only : Enpkg.options :=
  {| Enpkg.force := true; Enpkg.forceall := false; Enpkg.dry_run := true |}.

(** A dependency first, the requested package last. *)
Definition targets : list string :=
  ["http://repo/foo-1.0-1.egg"; "http://repo/bar-2.0-1.egg"].

Definition main (get_installed : string → list string) :=
  Enpkg.main Naming.filename_dist Naming.cname_eggname get_installed join
             sys_prefix.

Definition exclude_set (get_installed : string → list string) :=
  Enpkg.exclude_set Naming.filename_dist get_installed sys_prefix.
End EnpkgRun.

(** ** Concrete servers and catalogs *)

Module ResourceRun.
(** [urlsplit(url).netloc] and [urlsplit(url).path] for URLs of the form
    [scheme://host/path]. *)
Definition url_netloc (url : string) : string :=
  default "" (Naming.split "/" url !! 2%nat).

Fixpoint slash_join (l : list string) : string :=
  match l with
  | [] => ""
  | x :: rest => "/" +:+ x +:+ slash_join rest
  end.

Definition url_path (url : string) : string :=
  slash_join (drop 3 (Naming.split "/" url)).

(** [str] of the JSON values that are not strings is not needed in the
    runs below. *)
Definition py_str (j : json) : string := "".

Definition plat : string := "rh5-64".

(** The index of the product [acme], with one egg. *)
Definition acme_index : json :=
  JDict [("eggs",
          JDict [("acme",
                  JDict [("files",
                          JDict [("acme-1.2.0-1.egg", JDict [])])])])].

(** An index whose egg table files [bar-1.0-1.egg] under the key [foo]. *)
Definition broken_index : json :=
  JDict [("eggs",
          JDict [("foo",
                  JDict [("files",
                          JDict [("bar-1.0-1.egg", JDict [])])])])].

(** [json.loads] on the bodies that the servers below send. *)
Definition json_loads (data : string) : option json :=
  if String.eqb data "{}" then Some (JDict [])
  else if String.eqb data "<acme index>" then Some acme_index
  else if String.eqb data "<broken index>" then Some broken_index
  else None.

Definition not_found : Resource.response :=
  {| Resource.status := 404; Resource.body := "Not Found" |}.

Definition ok (data : string) : Resource.response :=
  {| Resource.status := 200; Resource.body := data |}.

(** A server that answers every GET from a table of paths. *)
Fixpoint serve (table : list (string * Resource.response))
    (netloc path : string) : Resource.response :=
  match table with
  | [] => not_found
  | (p, r) :: rest => if String.eqb p path then r else serve rest netloc path
  end.

(** The root index lists [acme] and [gone]; [acme] has a
    platform-independent index, [gone] has none. *)
Definition net_partial : Resource.network :=
  {| Resource.read_json_from_url := λ url,
       if String.eqb url "http://host/repo/products"
       then Ok (JList [JDict [("product", JStr "gone")];
                       JDict [("product", JStr "acme")]])
       else Raise HTTPError;
     Resource.http_get :=
       serve [("/repo/products/acme/index.json", ok "<acme index>")] |}.

(** The root index lists [broken] and then [acme]. *)
Definition net_broken : Resource.network :=
  {| Resource.read_json_from_url := λ url,
       if String.eqb url "http://host/repo/products"
       then Ok (JList [JDict [("product", JStr "broken")];
                       JDict [("product", JStr "acme")]])
       else Raise HTTPError;
     Resource.http_get :=
       serve [("/repo/products/broken/index.json", ok "<broken index>");
              ("/repo/products/acme/index.json", ok "<acme index>")] |}.

(** The root index cannot be fetched. *)
Definition net_unreachable : Resource.network :=
  {| Resource.read_json_from_url := λ _, Raise HTTPError;
     Resource.http_get := serve [] |}.

(** The root index is an empty list. *)
Definition net_empty : Resource.network :=
  {| Resource.read_json_from_url := λ _, Ok (JList []);
     Resource.http_get := serve [] |}.

(** Both indices of a product answer 200. *)
Definition net_both : Resource.network :=
  {| Resource.read_json_from_url := λ _, Raise HTTPError;
     Resource.http_get :=
       serve [("/repo/products/acme/index.json", ok "{}");
              ("/repo/products/acme/index-rh5-64.json", ok "<acme index>")] |}.

(** Only the platform-specific index of a product answers 200. *)
Definition net_specific : Resource.network :=
  {| Resource.read_json_from_url := λ _, Raise HTTPError;
     Resource.http_get :=
       serve [("/repo/products/acme/index-rh5-64.json", ok "<acme index>")] |}.

Definition _read_product_index :=
  Resource._read_product_index json_loads url_netloc url_path plat.

Definition load_index :=
  Resource.load_index json_loads url_netloc url_path py_str
    Naming.split_eggname Naming.canonical_name plat.

Definition outcome :=
  Resource.outcome json_loads url_netloc url_path py_str
    Naming.split_eggname Naming.canonical_name plat.

Definition nonfatal :=
  Resource.nonfatal json_loads url_netloc url_path py_str
    Naming.split_eggname Naming.canonical_name plat.

Definition added_products :=
  Resource.added_products json_loads url_netloc url_path py_str
    Naming.split_eggname Naming.canonical_name plat.

Definition load_products :=
  Resource.load_products json_loads url_netloc url_path py_str
    Naming.split_eggname Naming.canonical_name plat.

Definition gone : json := JDict [("product", JStr "gone")].
Definition acme : json := JDict [("product", JStr "acme")].
Definition broken : json := JDict [("product", JStr "broken")].
End ResourceRun.

(** ** Concrete catalogs and installed sets *)

Module StatusRun.
Definition vb_egg : string → option (list N * Z) :=
  Resource.vb_egg Naming.split_eggname Naming.comparable_version.

(** Modelled from the spec: the best available distribution of a
    canonical name is the candidate of its group with the highest
    version and build; candidates that cannot be compared are skipped.
    [Chain.get_dist] itself is not part of the sources. *)
Definition get_dist (c : Chain.t) (cname : string) : option string :=
  foldl (λ best dist,
           match vb_egg (Naming.filename_dist dist) with
           | None => best
           | Some _ =>
               match best with
               | None => Some dist
               | Some b =>
                   if Resource.py_ge Naming.V_cmp
                        (vb_egg (Naming.filename_dist dist))
                        (vb_egg (Naming.filename_dist b))
                   then Some dist else best
               end
           end) None (default [] (Chain.groups c !! cname)).

Definition get_status (names : list string)
    (info : string → option (gmap string string)) (c : Chain.t) :=
  Resource.get_status Naming.split_eggname Naming.split_dist
    Naming.comparable_version Naming.V_cmp get_dist names info
    {| Resource.index := []; Resource.chain := c |}.

(** The status of one name, when [get_status] returns. *)
Definition status (names : list string)
    (info : string → option (gmap string string)) (c : Chain.t)
    (cname : string) : option string :=
  match get_status names info c with
  | Ok res => Resource.status_of res cname
  | Raise _ => None
  end.

(** A catalog with one egg of [acme]. *)
Definition acme_chain : Chain.t :=
  {| Chain.repos := ["http://repo/"];
     Chain.index := ∅;
     Chain.groups := {[ "acme" := ["http://repo/acme-1.2.0-1.egg"] ]} |}.

(** A catalog with one egg of [foo]. *)
Definition foo_chain : Chain.t :=
  {| Chain.repos := ["http://repo/"];
     Chain.index := ∅;
     Chain.groups := {[ "foo" := ["http://repo/foo-1.0-1.egg"] ]} |}.

(** Nothing is installed. *)
Definition nothing (cname : string) : option (gmap string string) := None.

(** [foo] is installed from an egg whose version cannot be parsed. *)
Definition odd_foo (cname : string) : option (gmap string string) :=
  if String.eqb cname "foo"
  then Some (<["egg_name" := "foo-2009j-1.egg"]> {[ "name" := "foo" ]})
  else None.

(** [foo] is installed from an egg whose name has no build number. *)
Definition easy_foo (cname : string) : option (gmap string string) :=
  if String.eqb cname "foo"
  then Some (<["egg_name" := "foo-1.0-py2.7.egg"]> {[ "name" := "foo" ]})
  else None.

(** An older [acme] is installed. *)
Definition old_acme (cname : string) : option (gmap string string) :=
  if String.eqb cname "acme"
  then Some (<["egg_name" := "acme-1.0.0-1.egg"]> {[ "name" := "acme" ]})
  else None.
End StatusRun.

(** ** More of enpkg.py *)

Module EnpkgTrace.
(** The phase an event of [main] belongs to. *)
Definition is_fetch (e : Enpkg.event) : bool :=
  match e with
  | Enpkg.FetchDist _ _ _ => true
  | Enpkg.PprintFnAction _ a => String.eqb a "downloading"
  | _ => false
  end.

Definition is_removal (e : Enpkg.event) : bool :=
  match e with
  | Enpkg.PprintFnAction _ a => String.eqb a "removing"
  | Enpkg.CallEgginst (flag :: _) => String.eqb flag "--remove"
  | _ => false
  end.

Definition is_install (e : Enpkg.event) : bool :=
  match e with
  | Enpkg.PprintFnAction _ a => String.eqb a "installing"
  | Enpkg.CallEgginst (flag :: _) => String.eqb flag "--prefix"
  | _ => false
  end.

(** An event that changes the world: a download, a subprocess or a new
    directory; the other events only print. *)
Definition is_effect (e : Enpkg.event) : bool :=
  match e with
  | Enpkg.PprintFnAction _ _ => false
  | _ => true
  end.

(** The same options without [--dry-run]. *)
Definition for_real (opts : Enpkg.options) : Enpkg.options :=
  {| Enpkg.force := Enpkg.force opts;
     Enpkg.forceall := Enpkg.forceall opts;
     Enpkg.dry_run := false |}.
End EnpkgTrace.

Module EnpkgRemove.
(** The fields of [indexed_repo.Req] that [remove_req] reads; a missing
    version or build is [None]. *)
Record Req := {
  name : string;
  version : option string;
  build : option Z
}.

(** What [remove_req] does to the outside world: the two messages it
    prints, and the events it shares with [main]. *)
Inductive output :=
| PrintVersionMismatch (pkg : string) (req : Req)
| PrintNotInstalled (name : string)
| Do (e : Enpkg.event).

(** How the loop over the installed files ends. *)
Inductive scan :=
| Break (pkg : string)         (* [break]: this package is removed *)
| Mismatch (pkg : string)      (* the early [return] *)
| Exhausted                    (* the [else] of the loop *)
| Failed (e : exn).

Section remove_req.
(** [utils.cname_eggname], [egginst.get_installed] and Python's [int] on
    a string ([None] when it raises [ValueError]). *)
Variable cname_eggname : string → string.
Variable get_installed : string → list string.
Variable py_int : string → option Z.

(** [fn[:-4]] *)
Definition strip_egg (fn : string) : string :=
  substring 0 (String.length fn - 4) fn.

(** [if req.version:] *)
Definition truthy_version (v : option string) : option string :=
  match v with
  | Some EmptyString => None
  | _ => v
  end.

(** [req.build and req.build != int(b_a)]; [int] is only called for a
    build that is neither [None] nor 0. *)
Definition build_differs (req : Req) (b_a : string) : result bool :=
  match build req with
  | None => Ok false
  | Some 0%Z => Ok false
  | Some b =>
      match py_int b_a with
      | Some n => Ok (negb (b =? n)%Z)
      | None => Raise ValueError
      end
  end.

(** The loop of [remove_req] (lines 96-106). *)
Fixpoint scan_installed (req : Req) (fns : list string) : scan :=
  match fns with
  | [] => Exhausted
  | fn :: rest =>
      let pkg := strip_egg fn in
      if negb (String.eqb (name req) (cname_eggname fn))
      then scan_installed req rest
      else
        match truthy_version (version req) with
        | None => Break pkg
        | Some v =>
            match take 2 (drop 1 (Naming.split "-" pkg)) with
            | [v_a; b_a] =>
                if negb (String.eqb v v_a) then Mismatch pkg
                else match build_differs req b_a with
                     | Raise e => Failed e
                     | Ok true => Mismatch pkg
                     | Ok false => Break pkg
                     end
            | _ => Failed ValueError      (* the unpacking fails *)
            end
        end
  end.

(** [remove_req] (lines 95-113). *)
Definition remove_req (req : Req) (prefix : string) (dry_run : bool)
  : result unit * list output :=
  match scan_installed req (get_installed prefix) with
  | Failed e => (Raise e, [])
  | Mismatch pkg => (Ok tt, [PrintVersionMismatch pkg req])
  | Exhausted => (Ok tt, [PrintNotInstalled (name req)])
  | Break pkg =>
      let tr := [Do (Enpkg.PprintFnAction pkg "removing")] in
      if dry_run then (Ok tt, tr)
      else (Ok tt,
            tr ++ [Do (Enpkg.CallEgginst ["--remove"; "--prefix"; prefix; pkg])])
  end.

(** The packages for which egginst is started. *)
Definition egginst_removed (tr : list output) : list string :=
  omap (λ o, match o with
             | Do (Enpkg.CallEgginst [_; _; _; pkg]) => Some pkg
             | _ => None
             end) tr.
End remove_req.
End EnpkgRemove.

(** ** The catalog as a data structure *)

Module Catalog.
(** The index and the groups are in step: every distribution of a group
    has an entry in the index, and every entry of the index carries the
    canonical name of its name and is listed in the group of that name. *)
Definition consistent (canonical_name : string → string) (c : Chain.t) : Prop :=
  (∀ cname dists dist,
     Chain.groups c !! cname = Some dists → dist ∈ dists →
     is_Some (Chain.index c !! dist))
  ∧ (∀ dist spec,
       Chain.index c !! dist = Some spec →
       Chain.cname spec = canonical_name (Chain.name spec)
       ∧ ∃ dists, Chain.groups c !! Chain.cname spec = Some dists
                  ∧ dist ∈ dists).

(** The chain only grows: repositories and the distributions of a group
    are appended, and no entry of the index goes away. *)
Definition extends (c c' : Chain.t) : Prop :=
  Chain.repos c `prefix_of` Chain.repos c'
  ∧ dom (Chain.index c) ⊆ dom (Chain.index c')
  ∧ ∀ cname dists,
      Chain.groups c !! cname = Some dists →
      ∃ dists', Chain.groups c' !! cname = Some dists'
                ∧ dists `prefix_of` dists'.

(** The update of the chain at the end of [add_egg] (lines 192-193). *)
Definition file_egg (cname dist : string) (spec : Chain.spec) (c : Chain.t)
  : Chain.t :=
  {| Chain.repos := Chain.repos c;
     Chain.index := <[dist := spec]> (Chain.index c);
     Chain.groups :=
       <[cname := default [] (Chain.groups c !! cname) ++ [dist]]>
         (Chain.groups c) |}.

(** The update of the chain at line 180. *)
Definition extend_repos (repos : list string) (c : Chain.t) : Chain.t :=
  {| Chain.repos := Chain.repos c ++ repos;
     Chain.index := Chain.index c;
     Chain.groups := Chain.groups c |}.

(** The same for the whole object, with its list of products. *)
Definition grows (self self' : Resource.Resources) : Prop :=
  extends (Resource.chain self) (Resource.chain self')
  ∧ Resource.index self `prefix_of` Resource.index self'.

(** Every run of a computation relates the state before to the state
    after, whether or not it raises. *)
Definition steps (R : Resource.Resources → Resource.Resources → Prop)
    {A} (m : Resource.M A) : Prop :=
  ∀ self, R self (m self).2.
End Catalog.

(** ** The caches of a [Resources] object *)

Module Cached.
(** The three cache attributes; [None] is Python's [None]. *)
Record cache := {
  _installed_cnames : option (list string);
  _status : option (gmap string (gmap string string));
  _installed : option (gset string)
}.

(** What the installed-set probe answers at the time of a call:
    [self.enst.get_installed_cnames()] and
    [self.enst.get_installed_info(cname)[0][1]]. *)
Record probe := {
  cnames : list string;
  info : string → option (gmap string string)
}.

(** [clear_cache] (lines 56-59) *)
Definition clear_cache (ca : cache) : cache :=
  {| _installed_cnames := None; _status := None; _installed := None |}.

(** [get_installed_cnames] (lines 195-198): [None] and the empty list
    are both false. *)
Definition get_installed_cnames (pr : probe) (ca : cache)
  : list string * cache :=
  match _installed_cnames ca with
  | Some (cname :: rest) => (cname :: rest, ca)
  | _ => (cnames pr,
          {| _installed_cnames := Some (cnames pr);
             _status := _status ca;
             _installed := _installed ca |})
  end.

Section cached.
Context {V : Type}.
Variable split_eggname : string → option (string * string * Z).
Variable split_dist : string → option (string * string).
Variable comparable_version : string → option V.
Variable V_cmp : V → V → comparison.
Variable get_dist : Chain.t → string → option string.

(** The computation of [get_status] when the cache does not answer. *)
Definition compute_status (names : list string) (pr : probe) (c : Chain.t)
  : result (gmap string (gmap string string)) :=
  Resource.get_status split_eggname split_dist comparable_version V_cmp
    get_dist names (info pr)
    {| Resource.index := []; Resource.chain := c |}.

(** [get_status] (lines 200-247) with its cache: an empty dict is false
    and is computed again. *)
Definition get_status (pr : probe) (c : Chain.t) (ca : cache)
  : result (gmap string (gmap string string)) * cache :=
  let compute :=
    let '(names, ca) := get_installed_cnames pr ca in
    match compute_status names pr c with
    | Raise e => (Raise e, ca)
    | Ok res =>
        (Ok res, {| _installed_cnames := _installed_cnames ca;
                    _status := Some res;
                    _installed := _installed ca |})
    end in
  match _status ca with
  | Some res => if decide (res = ∅) then compute else (Ok res, ca)
  | None => compute
  end.

(** What the list comprehension of [get_installed] reads of a record;
    the record is a [defaultdict], so reading stores a missing key. *)
Definition read_installed (pkg : gmap string string)
  : option string * gmap string string :=
  let '(status, pkg) := Resource.getitem_str pkg "status" in
  if negb (String.eqb status "installable") then
    let '(egg_name, pkg) := Resource.getitem_str pkg "egg_name" in
    (Some egg_name, pkg)
  else (None, pkg).

(** [get_installed] (lines 249-254): [None] and the empty set are both
    false.  The records that are read are those of the cached dict. *)
Definition get_installed (pr : probe) (c : Chain.t) (ca : cache)
  : result (gset string) * cache :=
  let compute :=
    match get_status pr c ca with
    | (Raise e, ca) => (Raise e, ca)
    | (Ok res, ca) =>
        let installed : gset string :=
          list_to_set (omap (λ pkg, (read_installed pkg).1)
                            (map_to_list res).*2) in
        (Ok installed,
         {| _installed_cnames := _installed_cnames ca;
            _status := Some ((λ pkg, (read_installed pkg).2) <$> res);
            _installed := Some installed |})
    end in
  match _installed ca with
  | Some s => if decide (s = ∅) then compute else (Ok s, ca)
  | None => compute
  end.
End cached.

Section install.
(** The requirements that [_req_list] has produced, and what
    [self.enst.install] and [self.enst.remove] do with one of them. *)
Context {Req : Type}.
Variable enst_install : Req → result Z.
Variable enst_remove : Req → result unit.

(** The loop of [install] (lines 288-290). *)
Fixpoint install_count (installed_count : Z) (reqs : list Req) : result Z :=
  match reqs with
  | [] => Ok installed_count
  | req :: rest =>
      match enst_install req with
      | Ok n => install_count (installed_count + n) rest
      | Raise e => Raise e
      end
  end.

(** Modelled from the spec: the history wrapper of the [with] block
    records and releases on every exit path and lets an exception of the
    block through.  [install] from line 287 on. *)
Definition install (reqs : list Req) (ca : cache) : result Z * cache :=
  match install_count 0 reqs with
  | Raise e => (Raise e, ca)
  | Ok installed_count => (Ok installed_count, clear_cache ca)
  end.

(** The loop of [uninstall] (lines 302-303). *)
Fixpoint remove_all (reqs : list Req) : result unit :=
  match reqs with
  | [] => Ok tt
  | req :: rest =>
      match enst_remove req with
      | Ok _ => remove_all rest
      | Raise e => Raise e
      end
  end.

(** [uninstall] from line 301 on, with the same history wrapper. *)
Definition uninstall (reqs : list Req) (ca : cache) : result Z * cache :=
  match remove_all reqs with
  | Raise e => (Raise e, ca)
  | Ok _ => (Ok 1%Z, clear_cache ca)
  end.
End install.
End Cached.

(** ** More concrete inputs *)

Module MoreRuns.
(** Two versions of [foo] listed by egginst, the older one first. *)
Definition installed_two (prefix : string) : list string :=
  ["foo-1.0-1.egg"; "foo-2.0-1.egg"].

(** [int] on the strings of digits. *)
Definition py_int (s : string) : option Z := Z.of_N <$> Naming.number s.

Definition remove_req :=
  EnpkgRemove.remove_req Naming.cname_eggname.

Definition foo_2 : EnpkgRemove.Req :=
  {| EnpkgRemove.name := "foo";
     EnpkgRemove.version := Some "2.0";
     EnpkgRemove.build := None |}.

Definition any_foo : EnpkgRemove.Req :=
  {| EnpkgRemove.name := "foo";
     EnpkgRemove.version := None;
     EnpkgRemove.build := None |}.

Definition any_bar : EnpkgRemove.Req :=
  {| EnpkgRemove.name := "bar";
     EnpkgRemove.version := None;
     EnpkgRemove.build := None |}.

(** [json.loads] on the bodies of the servers of this section. *)
Definition json_loads (data : string) : option json :=
  if String.eqb data "<win index>"
  then Some (JDict [("platform", JStr "win-32")])
  else ResourceRun.json_loads data.

(** The platform-independent index of [acme] is an HTML page. *)
Definition net_garbled : Resource.network :=
  {| Resource.read_json_from_url := λ _, Raise HTTPError;
     Resource.http_get :=
       ResourceRun.serve
         [("/repo/products/acme/index.json", ResourceRun.ok "<html>");
          ("/repo/products/acme/index-rh5-64.json",
           ResourceRun.ok "<acme index>")] |}.

(** The index of [acme] is one for another platform. *)
Definition net_win : Resource.network :=
  {| Resource.read_json_from_url := λ url,
       if String.eqb url "http://host/repo/products"
       then Ok (JList [ResourceRun.acme])
       else Raise HTTPError;
     Resource.http_get :=
       ResourceRun.serve
         [("/repo/products/acme/index.json", ResourceRun.ok "<win index>")] |}.

(** The product dict of [acme], as [load_index] hands it over. *)
Definition acme_product : gmap string json :=
  <["url" := JStr "http://host/repo/products/acme"]>
    (<["base_url" := JStr "http://host/repo"]>
       {[ "product" := JStr "acme" ]}).

Definition merge_product_index :=
  Resource.merge_product_index json_loads ResourceRun.url_netloc
    ResourceRun.url_path ResourceRun.py_str ResourceRun.plat.

Definition add_product :=
  Resource.add_product json_loads ResourceRun.url_netloc
    ResourceRun.url_path ResourceRun.py_str Naming.split_eggname
    Naming.canonical_name ResourceRun.plat.

Definition _add_egg_repos :=
  Resource._add_egg_repos Naming.split_eggname Naming.canonical_name.

(** The product dict of [acme] after its index is merged. *)
Definition acme_merged : gmap string json :=
  <["eggs" := JDict [("acme",
                      JDict [("files",
                              JDict [("acme-1.2.0-1.egg", JDict [])])])]]>
    acme_product.

(** A catalog whose only distribution of [foo] has no repository part. *)
Definition bare_chain : Chain.t :=
  {| Chain.repos := [];
     Chain.index := ∅;
     Chain.groups := {[ "foo" := ["foo-1.0-1.egg"] ]} |}.

Definition no_cache : Cached.cache :=
  {| Cached._installed_cnames := None;
     Cached._status := None;
     Cached._installed := None |}.

(** An older [acme] is installed; and later nothing is. *)
Definition acme_probe : Cached.probe :=
  {| Cached.cnames := ["acme"]; Cached.info := StatusRun.old_acme |}.

Definition empty_probe : Cached.probe :=
  {| Cached.cnames := []; Cached.info := StatusRun.nothing |}.

Definition get_status :=
  Cached.get_status Naming.split_eggname Naming.split_dist
    Naming.comparable_version Naming.V_cmp StatusRun.get_dist.

Definition get_installed :=
  Cached.get_installed Naming.split_eggname Naming.split_dist
    Naming.comparable_version Naming.V_cmp StatusRun.get_dist.

(** The status dict of the first call. *)
Definition first_status : gmap string (gmap string string) :=
  match (get_status acme_probe StatusRun.acme_chain no_cache).1 with
  | Ok res => res
  | Raise _ => ∅
  end.
(** The caches that the first call leaves behind. *)
Definition first_cache : Cached.cache :=
  (get_status acme_probe StatusRun.acme_chain no_cache).2.

(** An installer that installs one egg for every requirement. *)
Definition install_one (req : string) : result Z := Ok 1%Z.
Definition remove_one (req : string) : result unit := Ok tt.
End MoreRuns.

(** * Properties *)

(** ** Loops that append to a trace *)

Section trace_loops.
Context {A E : Type}.

Lemma foldl_emit (f : list E → A → list E) (g : A → list E)
    (l : list A) (tr : list E) :
  (∀ tr x, f tr x = tr ++ g x) →
  foldl f tr l = tr ++ concat (g <$> l).
Proof.
  intros Hf. revert tr. induction l as [|x l IH]; intros tr; simpl.
  - by rewrite app_nil_r.
  - rewrite IH, Hf. by rewrite <- app_assoc.
Qed.

Lemma elem_of_concat (x : E) (ls : list (list E)) :
  x ∈ concat ls ↔ ∃ l, x ∈ l ∧ l ∈ ls.
Proof.
  induction ls as [|l ls IH]; simpl.
  - split; [intros Hx; by apply elem_of_nil in Hx|].
    intros (l & _ & Hl). by apply elem_of_nil in Hl.
  - rewrite elem_of_app, IH. split.
    + intros [Hx|(l' & Hx & Hl')]; [exists l|exists l'];
        (split; [done|]); [left|by right].
    + intros (l' & Hx & [->|Hl']%elem_of_cons); [by left|right; eauto].
Qed.

Lemma omap_concat_nil {B} (f : E → option B) (g : A → list E) (l : list A) :
  (∀ x, omap f (g x) = []) → omap f (concat (g <$> l)) = [].
Proof.
  intros Hg. induction l as [|x l IH]; [done|].
  rewrite fmap_cons. cbn [concat]. by rewrite omap_app, Hg, IH.
Qed.
End trace_loops.

(** ** The orchestrator of enpkg.py *)

Section enpkg_props.
Import Enpkg.
Variable filename_dist : string → string.
Variable cname_eggname : string → string.
Variable get_installed : string → list string.
Variable join : string → string → string.
Variable sys_prefix : string.

Abbreviation fetch_events := Enpkg.fetch_events.
Abbreviation remove_events := Enpkg.remove_events.
Abbreviation install_events := (Enpkg.install_events join).
Abbreviation iter_dists_excl := (Enpkg.iter_dists_excl filename_dist).
Abbreviation sys_inst := (Enpkg.sys_inst get_installed sys_prefix).
Abbreviation prefix_inst := (Enpkg.prefix_inst get_installed sys_prefix).
Abbreviation all_inst := (Enpkg.all_inst get_installed sys_prefix).
Abbreviation exclude_set :=
  (Enpkg.exclude_set filename_dist get_installed sys_prefix).
Abbreviation fetch_phase := (Enpkg.fetch_phase filename_dist).
Abbreviation remove_phase :=
  (Enpkg.remove_phase filename_dist cname_eggname get_installed sys_prefix).
Abbreviation install_phase := (Enpkg.install_phase filename_dist join).
Abbreviation main :=
  (Enpkg.main filename_dist cname_eggname get_installed join sys_prefix).
Abbreviation fetched := (Enpkg.fetched filename_dist).
Abbreviation removed_for :=
  (Enpkg.removed_for filename_dist cname_eggname get_installed sys_prefix).
Abbreviation not_excluded := (Enpkg.not_excluded filename_dist).

Lemma iter_dists_excl_filter dists exclude :
  iter_dists_excl dists exclude =
  (λ d, (d, filename_dist d)) <$> filter (λ d, filename_dist d ∉ exclude) dists.
Proof.
  induction dists as [|d dists IH]; simpl; [done|].
  rewrite filter_cons. destruct (decide (filename_dist d ∈ exclude)) as [Hin|Hin].
  - rewrite decide_False by (intros Hn; by apply Hn). done.
  - rewrite decide_True by done. simpl. by rewrite IH.
Qed.

Lemma iter_dists_excl_fns dists exclude :
  (iter_dists_excl dists exclude).*2 = not_excluded dists exclude.
Proof.
  unfold Enpkg.not_excluded.
  induction dists as [|d dists IH]; simpl; [done|].
  rewrite filter_cons. destruct (decide (filename_dist d ∈ exclude)) as [Hin|Hin].
  - rewrite decide_False by (intros Hn; by apply Hn). exact IH.
  - rewrite decide_True by done. simpl. f_equal. exact IH.
Qed.

Lemma fetch_phase_trace opts local dists exclude tr :
  fetch_phase opts local dists exclude tr =
  tr ++ concat (fetch_events opts local <$> iter_dists_excl dists exclude).
Proof.
  unfold Enpkg.fetch_phase. apply foldl_emit. intros tr' df.
  unfold fetch_step, fetch_events, emit. by destruct (dry_run opts).
Qed.

Lemma install_phase_trace opts prefix local dists exclude tr :
  install_phase opts prefix local dists exclude tr =
  tr ++ concat (install_events opts prefix local <$> iter_dists_excl dists exclude).
Proof.
  unfold Enpkg.install_phase. apply foldl_emit. intros tr' df.
  unfold install_step, install_events, emit.
  destruct (dry_run opts); [done|]. by rewrite <- app_assoc.
Qed.

Lemma remove_inst_trace opts prefix cname l tr :
  foldl (remove_inst_step cname_eggname opts prefix cname) tr l =
  tr ++ concat (remove_events opts prefix <$>
                  filter (λ fn_inst, cname = cname_eggname fn_inst) l).
Proof.
  revert tr. induction l as [|fn_inst l IH]; intros tr.
  - simpl. by rewrite app_nil_r.
  - rewrite filter_cons. cbn [foldl]. rewrite IH. unfold remove_inst_step.
    destruct (decide (cname = cname_eggname fn_inst)) as [Heq|Hne].
    + rewrite decide_False by (intros Hn; by apply Hn).
      rewrite fmap_cons. cbn [concat]. unfold Enpkg.remove_events at 2, emit.
      destruct (dry_run opts); simpl; by rewrite <- !app_assoc.
    + by rewrite decide_True by done.
Qed.

Lemma remove_phase_trace opts prefix dists tr :
  remove_phase opts prefix dists tr =
  tr ++ concat ((λ dist, concat (remove_events opts prefix <$>
                                   removed_for prefix dist))
                  <$> reverse dists).
Proof.
  unfold Enpkg.remove_phase. apply foldl_emit. intros tr' dist.
  unfold remove_step, Enpkg.removed_for.
  destruct (decide (filename_dist dist ∈ sys_inst)).
  - by rewrite app_nil_r.
  - apply remove_inst_trace.
Qed.

(** The whole trace of [main]: directory creation, then the fetch, the
    removal and the install phase, in this order. *)
Lemma main_trace opts prefix local local_isdir dists exclude :
  exclude_set opts prefix dists = Ok exclude →
  main opts prefix local local_isdir dists =
  Ok ((if local_isdir then [] else [Makedirs local])
      ++ concat (fetch_events opts local <$> iter_dists_excl dists exclude)
      ++ concat ((λ dist, concat (remove_events opts prefix <$>
                                    removed_for prefix dist))
                   <$> reverse dists)
      ++ concat (install_events opts prefix local
                   <$> iter_dists_excl dists exclude)).
Proof.
  intros HE. unfold Enpkg.main. rewrite HE.
  rewrite install_phase_trace, remove_phase_trace, fetch_phase_trace.
  f_equal. unfold emit. destruct local_isdir; simpl; by rewrite <- !app_assoc.
Qed.

(** [exclude_set] raises only for [--force] on an empty target list. *)
Lemma exclude_set_ok opts prefix dists :
  (force opts = true → dists ≠ []) →
  ∃ exclude, exclude_set opts prefix dists = Ok exclude.
Proof.
  intros Hne. unfold Enpkg.exclude_set.
  destruct (force opts) eqn:Hf.
  - destruct (last dists) as [d|] eqn:Hl; [eauto|].
    apply last_None in Hl. by destruct (Hne eq_refl).
  - destruct (forceall opts); eauto.
Qed.

Lemma fetched_fetch_events opts local dists exclude :
  fetched (concat (fetch_events opts local <$> iter_dists_excl dists exclude))
  = not_excluded dists exclude.
Proof.
  rewrite <- iter_dists_excl_fns, iter_dists_excl_filter.
  induction (filter _ dists) as [|d l IH]; [done|].
  rewrite !fmap_cons. cbn [concat]. unfold Enpkg.fetched in *.
  rewrite omap_app, IH. unfold Enpkg.fetch_events.
  by destruct (dry_run opts).
Qed.

Lemma installed_install_events opts prefix local dists exclude :
  installed (concat (install_events opts prefix local
                       <$> iter_dists_excl dists exclude))
  = not_excluded dists exclude.
Proof.
  rewrite <- iter_dists_excl_fns.
  induction (iter_dists_excl dists exclude) as [|df l IH]; [done|].
  rewrite !fmap_cons. cbn [concat]. unfold installed in *.
  rewrite omap_app, IH. unfold Enpkg.install_events.
  by destruct (dry_run opts).
Qed.

Lemma removed_remove_events opts prefix l :
  removed (concat (remove_events opts prefix <$> l)) = l.
Proof.
  induction l as [|fn l IH]; [done|].
  rewrite fmap_cons. cbn [concat]. unfold removed in *.
  rewrite omap_app, IH. unfold Enpkg.remove_events.
  by destruct (dry_run opts).
Qed.

Lemma removed_remove_phase opts prefix dists :
  removed (concat ((λ dist, concat (remove_events opts prefix <$>
                                      removed_for prefix dist)) <$> dists))
  = concat (removed_for prefix <$> dists).
Proof.
  induction dists as [|d l IH]; [done|].
  rewrite !fmap_cons. cbn [concat]. unfold removed in *.
  rewrite omap_app, IH. f_equal. apply removed_remove_events.
Qed.

(** No phase emits the actions of another one. *)
Lemma fetched_remove_phase opts prefix dists :
  fetched (concat ((λ dist, concat (remove_events opts prefix <$>
                                      removed_for prefix dist)) <$> dists))
  = [].
Proof.
  apply omap_concat_nil. intros dist. apply omap_concat_nil. intros fn.
  unfold Enpkg.remove_events. by destruct (dry_run opts).
Qed.

Lemma installed_remove_phase opts prefix dists :
  installed (concat ((λ dist, concat (remove_events opts prefix <$>
                                        removed_for prefix dist)) <$> dists))
  = [].
Proof.
  apply omap_concat_nil. intros dist. apply omap_concat_nil. intros fn.
  unfold Enpkg.remove_events. by destruct (dry_run opts).
Qed.

Lemma fetched_install_events opts prefix local l :
  fetched (concat (install_events opts prefix local <$> l)) = [].
Proof.
  apply omap_concat_nil. intros df.
  unfold Enpkg.install_events. by destruct (dry_run opts).
Qed.

Lemma removed_install_events opts prefix local l :
  removed (concat (install_events opts prefix local <$> l)) = [].
Proof.
  apply omap_concat_nil. intros df.
  unfold Enpkg.install_events. by destruct (dry_run opts).
Qed.

Lemma removed_fetch_events opts local l :
  removed (concat (fetch_events opts local <$> l)) = [].
Proof.
  apply omap_concat_nil. intros df.
  unfold Enpkg.fetch_events. by destruct (dry_run opts).
Qed.

Lemma installed_fetch_events opts local l :
  installed (concat (fetch_events opts local <$> l)) = [].
Proof.
  apply omap_concat_nil. intros df.
  unfold Enpkg.fetch_events. by destruct (dry_run opts).
Qed.

Lemma fetched_app tr1 tr2 : fetched (tr1 ++ tr2) = fetched tr1 ++ fetched tr2.
Proof. apply omap_app. Qed.

Lemma removed_app tr1 tr2 : removed (tr1 ++ tr2) = removed tr1 ++ removed tr2.
Proof. apply omap_app. Qed.

Lemma installed_app tr1 tr2 :
  installed (tr1 ++ tr2) = installed tr1 ++ installed tr2.
Proof. apply omap_app. Qed.

(** What the three observations see in a trace of [main]. *)
Lemma main_observed opts prefix local local_isdir dists exclude :
  exclude_set opts prefix dists = Ok exclude →
  ∃ tr, main opts prefix local local_isdir dists = Ok tr
        ∧ fetched tr = not_excluded dists exclude
        ∧ removed tr = concat (removed_for prefix <$> reverse dists)
        ∧ installed tr = not_excluded dists exclude.
Proof.
  intros HE. eexists. split; [by apply main_trace|].
  rewrite !fetched_app, !removed_app, !installed_app.
  rewrite fetched_fetch_events, fetched_remove_phase, fetched_install_events.
  rewrite removed_fetch_events, removed_remove_phase, removed_install_events.
  rewrite installed_fetch_events, installed_remove_phase,
    installed_install_events.
  rewrite !app_nil_r. by destruct local_isdir.
Qed.

Lemma elem_of_removed_for prefix dist f :
  f ∈ removed_for prefix dist ↔
  f ∈ prefix_inst prefix ∧ (filename_dist dist ∉ sys_inst)
  ∧ cname_eggname (filename_dist dist) = cname_eggname f.
Proof.
  unfold Enpkg.removed_for.
  destruct (decide (filename_dist dist ∈ sys_inst)) as [Hin|Hin].
  - split; [intros Hf; by apply elem_of_nil in Hf|]. by intros (_ & Hn & _).
  - rewrite list_elem_of_filter, elem_of_elements. split.
    + by intros [Hc Hp].
    + by intros (Hp & _ & Hc).
Qed.

(** C1 (amended): the exclude set is the union of the two installed
    sets; with [force] it is that union minus the filename of the last
    target, also when [forceall] is set as well; with [forceall] and
    without [force] it is empty.  The fetch phase and the install phase
    act exactly on the targets whose filename is not in the exclude
    set. *)
Theorem exclude_set_and_phases opts prefix local local_isdir dists :
  (force opts = true → dists ≠ []) →
  ∃ exclude tr,
    exclude_set opts prefix dists = Ok exclude
    ∧ main opts prefix local local_isdir dists = Ok tr
    ∧ (force opts = false → forceall opts = false →
       exclude = sys_inst ∪ prefix_inst prefix)
    ∧ (force opts = true →
       ∃ d, last dists = Some d
            ∧ exclude = (sys_inst ∪ prefix_inst prefix) ∖ {[ filename_dist d ]})
    ∧ (force opts = false → forceall opts = true → exclude = ∅)
    ∧ fetched tr = filter (λ fn, fn ∉ exclude) (filename_dist <$> dists)
    ∧ installed tr = filter (λ fn, fn ∉ exclude) (filename_dist <$> dists).
Proof.
  intros Hne. destruct (exclude_set_ok opts prefix dists Hne) as [E HE].
  destruct (main_observed opts prefix local local_isdir dists E HE)
    as (tr & Hmain & Hf & _ & Hi).
  exists E, tr. repeat split; try done.
  - intros Hf0 Hfa. unfold Enpkg.exclude_set in HE.
    rewrite Hf0, Hfa in HE. by inversion HE.
  - intros Hf1. unfold Enpkg.exclude_set in HE. rewrite Hf1 in HE.
    destruct (last dists) as [d|]; [|done]. exists d. by inversion HE.
  - intros Hf0 Hfa. unfold Enpkg.exclude_set in HE.
    rewrite Hf0, Hfa in HE. by inversion HE.
Qed.

(** Under [sys.prefix] itself a target's own file is never removed: it
    is either in the primary set, and the target is skipped, or not
    installed at all. *)
Lemma removed_for_sys_prefix dist :
  filename_dist dist ∉ removed_for sys_prefix dist.
Proof.
  rewrite elem_of_removed_for. intros (Hp & Hs & _). apply Hs.
  unfold Enpkg.prefix_inst in Hp. by rewrite decide_True in Hp.
Qed.

(** Under another prefix a target that is installed there and not
    under [sys.prefix] has its own file removed. *)
Lemma removal_of_own_file opts prefix local local_isdir dists dist :
  (force opts = true → dists ≠ []) →
  dist ∈ dists →
  filename_dist dist ∈ prefix_inst prefix →
  filename_dist dist ∉ sys_inst →
  ∃ tr, main opts prefix local local_isdir dists = Ok tr
        ∧ filename_dist dist ∈ removed tr.
Proof.
  intros Hne Hd Hp Hs.
  destruct (exclude_set_ok opts prefix dists Hne) as [E HE].
  destruct (main_observed opts prefix local local_isdir dists E HE)
    as (tr & Hmain & _ & Hr & _).
  exists tr. split; [done|]. rewrite Hr. apply elem_of_concat.
  exists (removed_for prefix dist). split.
  - by apply elem_of_removed_for.
  - apply list_elem_of_fmap. exists dist. by rewrite elem_of_reverse.
Qed.

(** C3 (amended): the removal phase emits no removal on behalf of a
    target whose filename is in the primary-runtime installed set.
    Every removal is of a file installed under the target prefix that
    shares its canonical name with a target whose filename is not in the
    primary-runtime installed set, and every such file whose name differs
    from the target's is removed. *)
Theorem removal_skips_primary_targets opts prefix local local_isdir dists :
  (force opts = true → dists ≠ []) →
  ∃ tr,
    main opts prefix local local_isdir dists = Ok tr
    ∧ (∀ f, f ∈ removed tr →
            f ∈ prefix_inst prefix
            ∧ ∃ dist, dist ∈ dists
                      ∧ (filename_dist dist ∉ sys_inst)
                      ∧ cname_eggname (filename_dist dist) = cname_eggname f)
    ∧ (∀ f dist, f ∈ prefix_inst prefix →
                 dist ∈ dists →
                 filename_dist dist ∉ sys_inst →
                 cname_eggname (filename_dist dist) = cname_eggname f →
                 f ≠ filename_dist dist →
                 f ∈ removed tr).
Proof.
  intros Hne. destruct (exclude_set_ok opts prefix dists Hne) as [E HE].
  destruct (main_observed opts prefix local local_isdir dists E HE)
    as (tr & Hmain & _ & Hr & _).
  exists tr. split; [done|]. rewrite Hr. split.
  - intros f (l & Hl & [dist [-> Hd]]%list_elem_of_fmap)%elem_of_concat.
    rewrite elem_of_reverse in Hd.
    apply elem_of_removed_for in Hl as (Hp & Hs & Hc).
    split; [done|]. exists dist. auto.
  - intros f dist Hp Hd Hs Hc _. apply elem_of_concat.
    exists (removed_for prefix dist). split.
    + by apply elem_of_removed_for.
    + apply list_elem_of_fmap. exists dist. by rewrite elem_of_reverse.
Qed.

(** The egginst subprocesses of a run: removals first, then installs. *)
Lemma egginst_calls_fetch_events opts local l :
  egginst_calls (concat (fetch_events opts local <$> l)) = [].
Proof.
  apply omap_concat_nil. intros df.
  unfold Enpkg.fetch_events. by destruct (dry_run opts).
Qed.

Lemma egginst_calls_remove_events opts prefix l :
  egginst_calls (concat (remove_events opts prefix <$> l))
  = if dry_run opts then []
    else (λ fn_inst, ["--remove"; "--prefix"; prefix; fn_inst]) <$> l.
Proof.
  induction l as [|fn l IH]; [by destruct (dry_run opts)|].
  rewrite !fmap_cons. cbn [concat]. unfold egginst_calls in *.
  rewrite omap_app, IH. unfold Enpkg.remove_events.
  by destruct (dry_run opts).
Qed.

Lemma egginst_calls_remove_phase opts prefix dists :
  egginst_calls (concat ((λ dist, concat (remove_events opts prefix <$>
                                            removed_for prefix dist))
                           <$> dists))
  = if dry_run opts then []
    else (λ fn_inst, ["--remove"; "--prefix"; prefix; fn_inst])
           <$> concat (removed_for prefix <$> dists).
Proof.
  induction dists as [|d l IH]; [by destruct (dry_run opts)|].
  rewrite !fmap_cons. cbn [concat]. unfold egginst_calls in *.
  rewrite omap_app, IH. fold (egginst_calls
    (concat (remove_events opts prefix <$> removed_for prefix d))).
  rewrite egginst_calls_remove_events.
  destruct (dry_run opts); [done|]. by rewrite fmap_app.
Qed.

Lemma egginst_calls_install_events opts prefix local dists exclude :
  egginst_calls (concat (install_events opts prefix local
                           <$> iter_dists_excl dists exclude))
  = if dry_run opts then []
    else (λ fn, ["--prefix"; prefix; join local fn])
           <$> not_excluded dists exclude.
Proof.
  rewrite <- iter_dists_excl_fns.
  induction (iter_dists_excl dists exclude) as [|df l IH];
    [by destruct (dry_run opts)|].
  rewrite !fmap_cons. cbn [concat]. unfold egginst_calls in *.
  rewrite omap_app, IH. unfold Enpkg.install_events.
  by destruct (dry_run opts).
Qed.

(** C5: the install phase processes the targets that are not excluded in
    the order of the target list, and the removal phase goes through the
    target list in the reverse of that order; the egginst subprocesses
    run in that order, all removals before the first install. *)
Theorem install_forward_removal_reverse opts prefix local local_isdir dists :
  (force opts = true → dists ≠ []) →
  ∃ exclude tr,
    exclude_set opts prefix dists = Ok exclude
    ∧ main opts prefix local local_isdir dists = Ok tr
    ∧ installed tr = filter (λ fn, fn ∉ exclude) (filename_dist <$> dists)
    ∧ removed tr = concat (removed_for prefix <$> reverse dists)
    ∧ egginst_calls tr =
      if dry_run opts then []
      else ((λ fn_inst, ["--remove"; "--prefix"; prefix; fn_inst])
              <$> concat (removed_for prefix <$> reverse dists))
           ++ ((λ fn, ["--prefix"; prefix; join local fn])
                 <$> filter (λ fn, fn ∉ exclude) (filename_dist <$> dists)).
Proof.
  intros Hne. destruct (exclude_set_ok opts prefix dists Hne) as [E HE].
  destruct (main_observed opts prefix local local_isdir dists E HE)
    as (tr & Hmain & _ & Hr & Hi).
  exists E, tr. do 4 (split; [done|]).
  rewrite (main_trace opts prefix local local_isdir dists E HE) in Hmain.
  injection Hmain as <-. unfold egginst_calls. rewrite !omap_app.
  fold (egginst_calls (concat (fetch_events opts local
                                 <$> iter_dists_excl dists E))).
  rewrite egginst_calls_fetch_events.
  pose proof (egginst_calls_remove_phase opts prefix (reverse dists)) as Hrem.
  pose proof (egginst_calls_install_events opts prefix local dists E) as Hins.
  unfold egginst_calls in Hrem, Hins. rewrite Hrem, Hins.
  destruct local_isdir, (dry_run opts); done.
Qed.
End enpkg_props.

(** ** The catalog merger of resource.py *)

Section resource_props.
Import Resource.
Variable json_loads : string → option json.
Variable url_netloc : string → string.
Variable url_path : string → string.
Variable py_str : json → string.
Variable split_eggname : string → option (string * string * Z).
Variable canonical_name : string → string.
Variable plat : string.

Abbreviation specific_url := (Resource.specific_url plat).
Abbreviation _read_product_index :=
  (Resource._read_product_index json_loads url_netloc url_path plat).
Abbreviation add_egg := (Resource.add_egg split_eggname canonical_name).
Abbreviation add_project :=
  (Resource.add_project split_eggname canonical_name).
Abbreviation _add_egg_repos :=
  (Resource._add_egg_repos split_eggname canonical_name).
Abbreviation merge_product_index :=
  (Resource.merge_product_index json_loads url_netloc url_path py_str plat).
Abbreviation check_platform := (Resource.check_platform py_str plat).
Abbreviation add_product :=
  (Resource.add_product json_loads url_netloc url_path py_str split_eggname
     canonical_name plat).
Abbreviation prepare_product := (Resource.prepare_product py_str).
Abbreviation load_product :=
  (Resource.load_product json_loads url_netloc url_path py_str split_eggname
     canonical_name plat).
Abbreviation load_products :=
  (Resource.load_products json_loads url_netloc url_path py_str split_eggname
     canonical_name plat).
Abbreviation load_index :=
  (Resource.load_index json_loads url_netloc url_path py_str split_eggname
     canonical_name plat).
Abbreviation outcome :=
  (Resource.outcome json_loads url_netloc url_path py_str split_eggname
     canonical_name plat).
Abbreviation nonfatal :=
  (Resource.nonfatal json_loads url_netloc url_path py_str split_eggname
     canonical_name plat).
Abbreviation failed_of :=
  (Resource.failed_of json_loads url_netloc url_path py_str split_eggname
     canonical_name plat).
Abbreviation loaded :=
  (Resource.loaded json_loads url_netloc url_path py_str split_eggname
     canonical_name plat).
Abbreviation added_products :=
  (Resource.added_products json_loads url_netloc url_path py_str
     split_eggname canonical_name plat).

(** *** Tame computations *)

Lemma tame_ret {A} (a : A) : tame (ret a).
Proof. exists (Ok a), id. split; [done|]. by intros []. Qed.

Lemma tame_lift {A} (r : result A) :
  (∀ msg, r ≠ Raise (EnstallerResourceIndexError msg)) → tame (lift r).
Proof. intros Hr. exists r, id. split; [done|]. by intros []. Qed.

Lemma tame_raise {A} (e : exn) :
  (∀ msg, e ≠ EnstallerResourceIndexError msg) → tame (@raise A e).
Proof.
  intros He. exists (Raise e), id. split; [|by intros []].
  intros msg Heq. inversion Heq. by eapply He.
Qed.

Lemma tame_modify_chain (f : Chain.t → Chain.t) : tame (modify_chain f).
Proof. exists (Ok tt), f. split; [done|]. by intros []. Qed.

Lemma tame_bind {A B} (m : M A) (k : A → M B) :
  tame m → (∀ a, tame (k a)) → tame (bind m k).
Proof.
  intros (r & f & Hr & Hm) Hk. destruct r as [a|e].
  - destruct (Hk a) as (r' & f' & Hr' & Hk'). exists r', (f' ∘ f).
    split; [done|]. intros self. unfold bind. rewrite Hm, Hk'. done.
  - exists (Raise e), f. split.
    + intros msg Heq. inversion Heq; subst. by eapply Hr.
    + intros self. unfold bind. by rewrite Hm.
Qed.

Lemma tame_for {A} (l : list A) (body : A → M unit) :
  (∀ x, tame (body x)) → tame (for_ l body).
Proof.
  intros Hbody. induction l as [|x l IH]; simpl.
  - apply tame_ret.
  - apply tame_bind; [apply Hbody|]. by intros _.
Qed.

(** The Python operations on JSON values raise their own exceptions. *)
Lemma getitem_not_index_error d k msg :
  getitem d k ≠ Raise (EnstallerResourceIndexError msg).
Proof. destruct d; simpl; try done. by destruct (assoc k items). Qed.

Lemma dict_get_not_index_error d k default msg :
  dict_get d k default ≠ Raise (EnstallerResourceIndexError msg).
Proof. by destruct d. Qed.

Lemma iteritems_not_index_error d msg :
  iteritems d ≠ Raise (EnstallerResourceIndexError msg).
Proof. by destruct d. Qed.

Lemma iter_not_index_error j msg :
  iter j ≠ Raise (EnstallerResourceIndexError msg).
Proof. by destruct j. Qed.

Lemma list_getitem_not_index_error {A} (l : list A) i msg :
  list_getitem l i ≠ Raise (EnstallerResourceIndexError msg).
Proof.
  unfold list_getitem. destruct i; try done.
  - destruct b; repeat case_match; done.
  - repeat case_match; done.
Qed.

Lemma egg_repos_not_index_error url paths acc msg :
  foldM (λ acc p, match egg_repo url p with
                  | Ok r => Ok (acc ++ [r])
                  | Raise e => Raise e
                  end) acc paths
  ≠ Raise (EnstallerResourceIndexError msg).
Proof.
  revert acc. induction paths as [|p paths IH]; intros acc; simpl; [done|].
  destruct p; simpl; first [done | apply IH].
Qed.

Lemma tame_add_egg repos cname file : tame (add_egg repos cname file).
Proof.
  destruct file as [distname data]. unfold Resource.add_egg.
  destruct (split_eggname distname) as [[[n v] b]|];
    [|by apply tame_raise].
  apply tame_bind; [apply tame_lift; intros; apply dict_get_not_index_error|].
  intros python.
  apply tame_bind; [apply tame_lift; intros; apply dict_get_not_index_error|].
  intros packages. simpl.
  destruct (negb _); [by apply tame_raise|].
  apply tame_bind; [apply tame_lift; intros; apply dict_get_not_index_error|].
  intros i.
  apply tame_bind;
    [apply tame_lift; intros; apply list_getitem_not_index_error|].
  intros repo. apply tame_modify_chain.
Qed.

Lemma tame_add_project repos entry : tame (add_project repos entry).
Proof.
  destruct entry as [cname project]. unfold Resource.add_project.
  apply tame_bind; [apply tame_lift; intros; apply getitem_not_index_error|].
  intros files.
  apply tame_bind; [apply tame_lift; intros; apply iteritems_not_index_error|].
  intros files'. apply tame_for. intros file. apply tame_add_egg.
Qed.

Lemma tame_add_egg_repos url index : tame (_add_egg_repos url index).
Proof.
  unfold Resource._add_egg_repos. apply tame_bind.
  - destruct (index !! "egg_repos") as [paths|]; [|apply tame_ret].
    apply tame_bind; [apply tame_lift; intros; apply iter_not_index_error|].
    intros paths'. apply tame_lift. intros. apply egg_repos_not_index_error.
  - intros repos. apply tame_bind; [apply tame_modify_chain|]. intros _.
    apply tame_bind.
    + apply tame_lift. intros msg.
      destruct (index !! "eggs"); [apply iteritems_not_index_error|done].
    + intros eggs. apply tame_for. intros entry. apply tame_add_project.
Qed.

Lemma tame_check_platform product : tame (check_platform product).
Proof.
  unfold Resource.check_platform.
  destruct (product !! "platform") as [p|]; [|apply tame_ret].
  destruct (negb _); [by apply tame_raise|apply tame_ret].
Qed.

(** *** The two ways [add_product] can go *)

Lemma bind_assoc {A B C} (m : M A) (k : A → M B) (h : B → M C) self :
  bind (bind m k) h self = bind m (λ a, bind (k a) h) self.
Proof.
  unfold bind. destruct (m self) as [[a|e] self1]; [|done].
  by destruct (k a self1) as [[b|e] self2].
Qed.

Lemma bind_lift_ok {A B} (r : result A) (a : A) (k : A → M B) self :
  r = Ok a → bind (lift r) k self = k a self.
Proof. by intros ->. Qed.

Lemma bind_run {A B} (m : M A) (k : A → M B) self r self1 :
  m self = (r, self1) →
  bind m k self = match r with
                  | Ok a => k a self1
                  | Raise e => (Raise e, self1)
                  end.
Proof. intros Hm. unfold bind. by rewrite Hm. Qed.

(** When the product index cannot be merged, nothing is changed. *)
Lemma add_product_unmerged net product e self :
  merge_product_index net product = Raise e →
  add_product net product self = (Raise e, self).
Proof.
  intros Hm. unfold Resource.add_product, bind, lift. by rewrite Hm.
Qed.

(** Once the product index is merged, how [add_product] ends and what it
    does to the chain do not depend on [self]; the merged product is
    appended to [self.index] exactly when no exception is raised, and
    the exception is not an index error. *)
Lemma add_product_merged net product product' :
  merge_product_index net product = Ok product' →
  ∃ (r : result unit) (f : Chain.t → Chain.t),
    (∀ msg, r ≠ Raise (EnstallerResourceIndexError msg))
    ∧ ∀ self,
        add_product net product self =
        (r, {| index := index self ++ match r with
                                      | Ok _ => [product']
                                      | Raise _ => []
                                      end;
               chain := f (chain self) |}).
Proof.
  intros Hm.
  assert (Ht : tame (check_platform product' ;;
                     match product' !! "eggs" with
                     | Some _ =>
                         let! url := lift (match product' !! "url" with
                                           | Some (JStr u) => Ok u
                                           | Some _ => Raise TypeError
                                           | None => Raise (KeyError "url")
                                           end) in
                         _add_egg_repos url product'
                     | None => ret tt
                     end)).
  { apply tame_bind; [apply tame_check_platform|]. intros _.
    destruct (product' !! "eggs"); [|apply tame_ret].
    apply tame_bind.
    - apply tame_lift. intros msg. by repeat case_match.
    - intros url. apply tame_add_egg_repos. }
  destruct Ht as (r & f & Hr & Ht).
  exists r, f. split; [done|]. intros self.
  unfold Resource.add_product. rewrite (bind_lift_ok _ product') by done.
  rewrite <- bind_assoc. rewrite (bind_run _ _ _ _ _ (Ht self)).
  destruct r as [[]|e]; [done|]. by rewrite app_nil_r.
Qed.

Lemma prepare_product_raises url product e :
  prepare_product url product = Raise e →
  ∃ k, e = KeyError k ∨ e = TypeError ∨ e = AttributeError.
Proof.
  unfold Resource.prepare_product. destruct product; simpl; try by eauto.
  all: try (intros [= <-]; exists ""; eauto).
  destruct (assoc "product" items); [done|].
  intros [= <-]. exists "product". eauto.
Qed.

(** One turn of the loop of [load_index] on a product that is added or
    whose index cannot be read. *)
Lemma load_product_nonfatal net url failed product self :
  nonfatal net url product = true →
  load_product net url failed product self =
  (Ok (failed ++ failed_of net url [product]), loaded net url [product] self).
Proof.
  unfold Resource.nonfatal, Resource.failed_of, Resource.loaded,
    Resource.outcome, Resource.load_product, bind, lift. simpl.
  destruct (prepare_product url product) as [p|e] eqn:Hp.
  - destruct (merge_product_index net p) as [p'|e] eqn:Hm.
    + destruct (add_product_merged net p p' Hm) as (r & f & Hr & Hadd).
      rewrite !Hadd. simpl. destruct r as [[]|e]; simpl.
      * intros _. by rewrite app_nil_r.
      * destruct e; try done. by destruct (Hr msg).
    + rewrite !(add_product_unmerged net p e _ Hm). simpl.
      by destruct e.
  - destruct (prepare_product_raises _ _ _ Hp) as [k [->|[->| ->]]]; done.
Qed.

Lemma load_products_nonfatal net url failed products self :
  forallb (nonfatal net url) products = true →
  load_products net url failed products self =
  (Ok (failed ++ failed_of net url products), loaded net url products self).
Proof.
  revert failed self.
  induction products as [|product products IH]; intros failed self Hall.
  - simpl. by rewrite app_nil_r.
  - simpl in Hall. apply andb_true_iff in Hall as [Hp Hall].
    cbn [Resource.load_products]. unfold bind at 1.
    rewrite (load_product_nonfatal _ _ _ _ _ Hp), (IH _ _ Hall).
    f_equal. f_equal. rewrite <- app_assoc. f_equal.
    unfold Resource.failed_of. simpl. by case_match.
Qed.



(** The product list after the loop: the merged dicts of the added
    products are appended in order. *)
Lemma loaded_index net url products self :
  index (loaded net url products self)
  = index self ++ added_products net url products.
Proof.
  revert self. induction products as [|product products IH]; intros self.
  - simpl. by rewrite app_nil_r.
  - unfold Resource.loaded, Resource.added_products in *.
    cbn [foldl omap list_omap]. rewrite IH. clear IH.
    unfold Resource.outcome.
    destruct (prepare_product url product) as [p|e] eqn:Hp;
      [|by destruct e].
    destruct (merge_product_index net p) as [p'|e] eqn:Hm.
    + destruct (add_product_merged net p p' Hm) as (r & f & Hr & Hadd).
      rewrite !Hadd. simpl. destruct r as [[]|e]; simpl; [|done].
      by rewrite <- app_assoc.
    + rewrite !(add_product_unmerged net p e _ Hm). done.
Qed.


(** One turn of the loop on a product that ends in another exception:
    the exception leaves the loop, and the product list is not extended. *)
Lemma load_product_fatal net url failed product self e :
  outcome net url product = Raise e →
  (∀ msg, e ≠ EnstallerResourceIndexError msg) →
  ∃ self', load_product net url failed product self = (Raise e, self')
           ∧ index self' = index self.
Proof.
  unfold Resource.outcome, Resource.load_product. intros Hout He.
  destruct (prepare_product url product) as [p|e'] eqn:Hp.
  - rewrite (bind_lift_ok _ p) by done.
    destruct (merge_product_index net p) as [p'|e'] eqn:Hm.
    + destruct (add_product_merged net p p' Hm) as (r & f & Hr & Hadd).
      rewrite Hadd in Hout. simpl in Hout. subst r. rewrite Hadd.
      exists {| index := index self ++ []; chain := f (chain self) |}.
      split; [|simpl; by rewrite app_nil_r].
      destruct e; try done. by destruct (He msg).
    + rewrite (add_product_unmerged net p e' _ Hm) in Hout.
      injection Hout as ->. rewrite (add_product_unmerged net p e _ Hm).
      exists self. split; [|done]. destruct e; try done. by destruct (He msg).
  - injection Hout as ->. exists self. split; [|done].
    unfold bind, lift. done.
Qed.

Lemma load_products_fatal net url failed pre product post self e :
  forallb (nonfatal net url) pre = true →
  outcome net url product = Raise e →
  (∀ msg, e ≠ EnstallerResourceIndexError msg) →
  ∃ self', load_products net url failed (pre ++ product :: post) self
           = (Raise e, self')
           ∧ index self' = index self ++ added_products net url pre
           ∧ load_products net url failed (pre ++ [product]) self
             = (Raise e, self').
Proof.
  intros Hpre Hout He. revert failed self.
  induction pre as [|p0 pre IH]; intros failed self.
  - destruct (load_product_fatal net url failed product self e Hout He)
      as (self' & Hstep & Hidx).
    exists self'. simpl. unfold bind. rewrite Hstep.
    split; [done|]. split; [|done]. by rewrite app_nil_r.
  - simpl in Hpre. apply andb_true_iff in Hpre as [Hp0 Hpre].
    specialize (IH Hpre). cbn [app Resource.load_products].
    rewrite !(bind_run _ _ _ _ _
                (load_product_nonfatal net url failed p0 self Hp0)).
    destruct (IH (failed ++ failed_of net url [p0])
                 (loaded net url [p0] self)) as (self' & Hall & Hidx & Hone).
    exists self'. split; [done|]. split; [|done].
    rewrite Hidx, loaded_index, <- app_assoc. f_equal.
    unfold Resource.added_products. simpl. by repeat case_match.
Qed.

(** C9 (amended): an egg whose derived canonical name differs from its
    egg-table key raises an assertion error at that egg, which ends the
    merge of its product; a product that ends in an assertion error is
    not added to the product list, and the error leaves [load_index] at
    once: it is not turned into the aggregated index error, and the
    products after it are not attempted. *)
Theorem cname_mismatch_aborts_load :
  (∀ repos cname distname data n v b self,
     split_eggname distname = Some (n, v, b) →
     (∃ items, data = JDict items) →
     canonical_name n ≠ cname →
     add_egg repos cname (distname, data) self
     = (Raise (AssertionError distname), self))
  ∧ (∀ (net : network) url self root pre product post msg,
       read_json_from_url net (rstrip_slash url +:+ "/" +:+ "products")
       = Ok root →
       iter root = Ok (pre ++ product :: post) →
       forallb (nonfatal net (rstrip_slash url)) pre = true →
       outcome net (rstrip_slash url) product = Raise (AssertionError msg) →
       ∃ self',
         load_index net url self = (Raise (AssertionError msg), self')
         ∧ index self' = index self ++ added_products net (rstrip_slash url) pre
         ∧ load_products net (rstrip_slash url) [] (pre ++ [product]) self
           = (Raise (AssertionError msg), self')).
Proof.
  split.
  - intros repos cname distname data n v b self Hsplit [items ->] Hne.
    unfold Resource.add_egg. rewrite Hsplit. simpl.
    unfold bind, lift. simpl.
    destruct (String.eqb_spec (canonical_name n) cname) as [Heq|_]; [done|].
    done.
  - intros net url self root pre product post msg Hroot Hiter Hpre Hout.
    destruct (load_products_fatal net (rstrip_slash url) [] pre product post
                self (AssertionError msg) Hpre Hout)
      as (self' & Hall & Hidx & Hone); [done|].
    exists self'. split; [|done].
    unfold Resource.load_index. rewrite Hroot.
    rewrite (bind_lift_ok _ (pre ++ product :: post)) by done.
    by rewrite (bind_run _ _ _ _ _ Hall).
Qed.

(** C6: when the platform-independent request answers 200, its parsed
    body is the result, no response is taken from the platform-specific
    connection and nothing is read from it, so that the result does not
    depend on what that server would answer; otherwise, when the
    platform-specific request answers 200, its parsed body is the result;
    when neither answers 200, an index error that names the path of the
    platform-specific URL is raised. *)
Theorem read_product_index_dual_lookup (net : network) (product_url : string) :
  let independent := independent_url product_url in
  let specific := specific_url product_url in
  let res1 := http_get net (url_netloc independent) (url_path independent) in
  let res2 := http_get net (url_netloc specific) (url_path specific) in
  let r := _read_product_index net product_url in
  (status res1 = 200%Z →
     (∀ j, json_loads (body res1) = Some j → r.1 = Ok (independent, j))
     ∧ (GetResponse conn2 ∉ r.2)
     ∧ (Read conn2 ∉ r.2)
     ∧ ∀ net', http_get net' (url_netloc independent) (url_path independent)
               = res1 →
               _read_product_index net' product_url = r)
  ∧ (status res1 ≠ 200%Z → status res2 = 200%Z →
     ∀ j, json_loads (body res2) = Some j → r.1 = Ok (specific, j))
  ∧ (status res1 ≠ 200%Z → status res2 ≠ 200%Z →
     r.1 = Raise (EnstallerResourceIndexError (url_path specific))).
Proof.
  intros independent specific res1 res2 r. subst r.
  unfold Resource._read_product_index.
  fold independent. fold specific. fold res1. fold res2.
  split; [|split].
  - intros Hs. apply Z.eqb_eq in Hs. rewrite Hs.
    split; [|split; [|split]].
    + intros j Hj. by rewrite Hj.
    + destruct (json_loads (body res1)); simpl;
        rewrite !elem_of_cons, elem_of_nil; intros Hin;
        repeat destruct Hin as [Hin|Hin]; done.
    + destruct (json_loads (body res1)); simpl;
        rewrite !elem_of_cons, elem_of_nil; intros Hin;
        repeat destruct Hin as [Hin|Hin]; done.
    + intros net' Hnet'. by rewrite Hnet', Hs.
  - intros Hs1 Hs2 j Hj. apply Z.eqb_neq in Hs1. apply Z.eqb_eq in Hs2.
    by rewrite Hs1, Hs2, Hj.
  - intros Hs1 Hs2. apply Z.eqb_neq in Hs1. apply Z.eqb_neq in Hs2.
    by rewrite Hs1, Hs2.
Qed.

(** C10: when fetching the root index fails with an HTTP error,
    [load_index] returns normally and leaves the catalog and the product
    list as they are, exactly as it does for an empty root index. *)
Theorem load_index_unreachable_root (net net' : network) (url : string)
    (self : Resources) :
  read_json_from_url net (rstrip_slash url +:+ "/" +:+ "products")
  = Raise HTTPError →
  read_json_from_url net' (rstrip_slash url +:+ "/" +:+ "products")
  = Ok (JList []) →
  load_index net url self = (Ok tt, self)
  ∧ load_index net' url self = load_index net url self.
Proof.
  intros Hnet Hnet'. unfold Resource.load_index. by rewrite Hnet, Hnet'.
Qed.
End resource_props.

(** ** The status classifier of resource.py *)

Section status_props.
Import Resource.
Context {V : Type}.
Variable split_eggname : string → option (string * string * Z).
Variable split_dist : string → option (string * string).
Variable comparable_version : string → option V.
Variable V_cmp : V → V → comparison.
Variable get_dist : Chain.t → string → option string.
Variable get_installed_cnames : list string.
Variable get_installed_info : string → option (gmap string string).

Abbreviation available_step :=
  (Resource.available_step split_eggname split_dist get_dist).
Abbreviation installed_step :=
  (Resource.installed_step split_eggname split_dist get_dist
     get_installed_info).
Abbreviation vb_egg := (Resource.vb_egg split_eggname comparable_version).
Abbreviation py_ge := (Resource.py_ge V_cmp).
Abbreviation tuple_cmp := (Resource.tuple_cmp V_cmp).
Abbreviation tuple_le := (Resource.tuple_le V_cmp).
Abbreviation set_status :=
  (Resource.set_status split_eggname comparable_version V_cmp).
Abbreviation get_status :=
  (Resource.get_status split_eggname split_dist comparable_version V_cmp
     get_dist get_installed_cnames get_installed_info).
Abbreviation well_named :=
  (Resource.well_named split_eggname split_dist get_dist).
Abbreviation available :=
  (Resource.available split_eggname split_dist get_dist).
Abbreviation installed_record :=
  (Resource.installed_record get_installed_cnames get_installed_info).
Abbreviation some_installed := (Resource.some_installed get_installed_info).
Abbreviation with_available :=
  (Resource.with_available split_eggname split_dist get_dist).

(** *** The loop over the groups *)

Lemma available_step_lookup c res cname :
  cname ∈ group_names c →
  well_named c cname = true →
  ∃ res', available_step c res cname = Ok res'
          ∧ res' !! cname = with_available c cname (res !! cname)
          ∧ ∀ k, k ≠ cname → res' !! k = res !! k.
Proof.
  intros Hin Hwn.
  unfold Resource.available_step, Resource.with_available,
    Resource.available, Resource.well_named in *.
  rewrite decide_True by done.
  destruct (get_dist c cname) as [dist|]; [|by exists res].
  destruct (split_dist dist) as [[repo fn]|]; [|done].
  destruct (split_eggname fn) as [[[n v] b]|];
    [|by apply bool_decide_eq_true_1, is_Some_None in Hwn].
  eexists. split; [reflexivity|]. split.
  - rewrite !lookup_alter_eq.
    destruct (res !! cname) as [d|] eqn:Hd; simpl.
    + by rewrite Hd.
    + by rewrite lookup_insert_eq.
  - intros k Hk. rewrite !lookup_alter_ne by done.
    destruct (res !! cname); [done|]. by rewrite lookup_insert_ne.
Qed.

Lemma available_loop_lookup c keys res :
  NoDup keys →
  (∀ k, k ∈ keys → k ∈ group_names c) →
  forallb (well_named c) keys = true →
  ∃ res', foldM (available_step c) res keys = Ok res'
          ∧ ∀ k, res' !! k = if decide (k ∈ keys)
                             then with_available c k (res !! k)
                             else res !! k.
Proof.
  intros Hnd. revert res.
  induction Hnd as [|x keys Hx Hnd IH]; intros res Hin Hwn.
  - exists res. split; [done|]. intros k.
    rewrite decide_False; [done|]. apply not_elem_of_nil.
  - simpl in Hwn. apply andb_true_iff in Hwn as [Hwx Hwn].
    destruct (available_step_lookup c res x) as (res1 & Hstep & Hx1 & Hne1);
      [apply Hin; left|done|].
    destruct (IH res1) as (res' & Hloop & Hres'); [|done|].
    { intros k Hk. apply Hin. by right. }
    exists res'. simpl. rewrite Hstep. split; [done|]. intros k.
    rewrite Hres'. destruct (decide (k = x)) as [->|Hkx].
    + rewrite decide_False by done. rewrite decide_True by left. done.
    + rewrite Hne1 by done.
      destruct (decide (k ∈ keys)) as [Hk|Hk].
      * rewrite decide_True by (by right). done.
      * rewrite decide_False; [done|].
        intros [->|Hk']%elem_of_cons; done.
Qed.

Lemma with_available_not_group c k d :
  k ∉ group_names c → with_available c k d = d.
Proof.
  intros Hk. unfold Resource.with_available, Resource.available.
  by rewrite decide_False.
Qed.

(** After the loop over the groups every record carries the best
    available egg of its name. *)
Lemma available_loop c res :
  forallb (well_named c) (group_names c) = true →
  ∃ res', foldM (available_step c) res (group_names c) = Ok res'
          ∧ ∀ k, res' !! k = with_available c k (res !! k).
Proof.
  intros Hwn.
  destruct (available_loop_lookup c (group_names c) res) as (res' & Hl & Hr);
    [apply NoDup_fst_map_to_list|done|done|].
  exists res'. split; [done|]. intros k. rewrite Hr.
  destruct (decide (k ∈ group_names c)); [done|].
  by rewrite with_available_not_group.
Qed.

Lemma with_available_idemp c k d :
  with_available c k (with_available c k d) = with_available c k d.
Proof.
  unfold Resource.with_available.
  destruct (available c k) as [[[fn v] b]|]; [|done]. simpl. f_equal.
  apply map_eq. intros i.
  destruct (decide (i = "a-ver")) as [->|Hver];
    [by rewrite !lookup_insert_eq|].
  rewrite !(lookup_insert_ne _ "a-ver") by done.
  destruct (decide (i = "a-egg")) as [->|Hegg];
    [by rewrite !lookup_insert_eq|].
  rewrite !(lookup_insert_ne _ "a-egg") by done.
  by rewrite !lookup_insert_ne by done.
Qed.

(** *** The loop over the installed names *)

Lemma some_installed_false names k :
  some_installed names = false → k ∈ names → get_installed_info k = None.
Proof.
  unfold Resource.some_installed. induction names as [|n names IH]; simpl.
  - intros _ Hk. by apply elem_of_nil in Hk.
  - intros [Hn Hrest]%orb_false_iff [->|Hk]%elem_of_cons; [|by apply IH].
    apply bool_decide_eq_false_1 in Hn.
    destruct (get_installed_info n); [|done]. by destruct Hn.
Qed.

Lemma installed_loop c names res :
  forallb (well_named c) (group_names c) = true →
  ∃ res', foldM (installed_step c) res names = Ok res'
    ∧ if some_installed names
      then ∀ k, res' !! k =
                with_available c k
                  (match Resource.installed_record names get_installed_info k
                   with
                   | Some info => Some info
                   | None => res !! k
                   end)
      else res' = res.
Proof.
  intros Hwn. revert res. induction names as [|n names IH]; intros res.
  - by exists res.
  - cbn [foldM]. unfold Resource.installed_step at 1.
    unfold Resource.some_installed. cbn [existsb].
    fold (some_installed names).
    destruct (get_installed_info n) as [info|] eqn:Hn.
    + destruct (available_loop c (<[n:=info]> res) Hwn) as (res1 & Hl & Hr1).
      fold (group_names c). rewrite Hl.
      destruct (IH res1) as (res' & Hloop & Hres'). exists res'.
      split; [done|]. rewrite bool_decide_eq_true_2 by done. simpl.
      intros k. unfold Resource.installed_record.
      destruct (some_installed names) eqn:Hsome.
      * rewrite Hres'. unfold Resource.installed_record.
        destruct (decide (k = n)) as [->|Hkn].
        -- rewrite (decide_True (P := n ∈ n :: names)) by left.
           rewrite Hn. destruct (decide (n ∈ names)); [done|].
           by rewrite Hr1, lookup_insert_eq, with_available_idemp.
        -- destruct (decide (k ∈ names)) as [Hk|Hk].
           ++ rewrite (decide_True (P := k ∈ n :: names)) by (by right).
              destruct (get_installed_info k); [done|].
              by rewrite Hr1, lookup_insert_ne, with_available_idemp.
           ++ rewrite (decide_False (P := k ∈ n :: names)).
              ** by rewrite Hr1, lookup_insert_ne, with_available_idemp.
              ** intros [->|Hk']%elem_of_cons; done.
      * subst res'. rewrite Hr1. destruct (decide (k = n)) as [->|Hkn].
        -- rewrite decide_True by left. by rewrite Hn, lookup_insert_eq.
        -- rewrite lookup_insert_ne by done.
           destruct (decide (k ∈ n :: names)) as [[->|Hk]%elem_of_cons|Hk];
             [done| |done].
           by rewrite (some_installed_false names k).
    + destruct (IH res) as (res' & Hloop & Hres'). exists res'.
      split; [done|]. rewrite bool_decide_eq_false_2 by (by intros [? ?]).
      simpl. destruct (some_installed names); [|done].
      intros k. rewrite Hres'. f_equal. unfold Resource.installed_record.
      destruct (decide (k = n)) as [->|Hkn].
      * rewrite (decide_True (P := n ∈ n :: names)) by left.
        rewrite Hn. by case_decide.
      * destruct (decide (k ∈ names)) as [Hk|Hk].
        -- by rewrite (decide_True (P := k ∈ n :: names)) by (by right).
        -- rewrite (decide_False (P := k ∈ n :: names)); [done|].
           intros [->|Hk']%elem_of_cons; done.
Qed.

(** *** The status field *)

(** The status that the last loop writes, from the fields it reads. *)
Lemma set_status_status d :
  set_status d !! "status" =
  let egg_name := default "" (d !! "egg_name") in
  let a_egg := default "" (d !! "a-egg") in
  if negb (String.eqb egg_name "") then
    if negb (String.eqb a_egg "") then
      Some (if py_ge (vb_egg egg_name) (vb_egg a_egg)
            then "up-to-date" else "updateable")
    else Some "installed"
  else if negb (String.eqb a_egg "") then Some "installable"
       else d !! "status".
Proof.
  unfold Resource.set_status, getitem_str.
  destruct (d !! "egg_name") as [e|] eqn:He; simpl.
  - destruct (d !! "a-egg") as [a|] eqn:Ha; simpl.
    + destruct (negb (e =? "")), (negb (a =? "")); try done;
        try by rewrite lookup_insert_eq.
      by case_match; rewrite lookup_insert_eq.
    + destruct (negb (e =? "")); simpl; [by rewrite lookup_insert_eq|].
      by rewrite lookup_insert_ne.
  - rewrite lookup_insert_ne by done.
    destruct (d !! "a-egg") as [a|] eqn:Ha; simpl.
    + destruct (negb (a =? "")); [by rewrite lookup_insert_eq|].
      by rewrite lookup_insert_ne.
    + by rewrite !lookup_insert_ne.
Qed.

Lemma eqb_nonempty (s : string) : s ≠ "" → negb (String.eqb s "") = true.
Proof. intros Hs. by destruct (String.eqb_spec s ""). Qed.

Lemma available_nonempty c cname fn v b :
  split_eggname "" = None → available c cname = Some (fn, v, b) → fn ≠ "".
Proof.
  intros Hempty. unfold Resource.available. intros Hav ->.
  repeat case_match; try done; simplify_eq; congruence.
Qed.

(** The records of [get_status], name by name. *)
Lemma get_status_records self :
  forallb (well_named (chain self)) (group_names (chain self)) = true →
  ∃ res, get_status self = Ok res
    ∧ ∀ k, res !! k =
           if some_installed get_installed_cnames
           then set_status <$> with_available (chain self) k (installed_record k)
           else None.
Proof.
  intros Hwn. unfold Resource.get_status.
  destruct (installed_loop (chain self) get_installed_cnames ∅ Hwn)
    as (res & Hloop & Hres).
  rewrite Hloop. eexists. split; [reflexivity|]. intros k.
  rewrite lookup_fmap. destruct (some_installed get_installed_cnames).
  - rewrite Hres, lookup_empty. f_equal. f_equal.
    by destruct (installed_record k).
  - by subst res.
Qed.

(** When no installed name has an info dict, the loop over the groups
    never runs and the result is empty, whatever the catalog holds. *)
Lemma get_status_none_installed self :
  some_installed get_installed_cnames = false →
  get_status self = Ok ∅.
Proof.
  intros Hnone. unfold Resource.get_status.
  assert (Hloop : ∀ names (res : gmap string (gmap string string)),
             some_installed names = false →
             foldM (installed_step (chain self)) res names = Ok res).
  { induction names as [|n names IH]; intros res; [done|].
    unfold Resource.some_installed. simpl.
    intros [Hn Hrest]%orb_false_iff. unfold Resource.installed_step at 1.
    apply bool_decide_eq_false_1 in Hn.
    destruct (get_installed_info n); [by destruct Hn|]. by apply IH. }
  rewrite Hloop by done. by rewrite fmap_empty.
Qed.

Lemma tuple_cmp_antisym x y :
  (∀ a b, V_cmp b a = CompOpp (V_cmp a b)) →
  tuple_cmp y x = CompOpp (tuple_cmp x y).
Proof.
  intros Hanti. unfold Resource.tuple_cmp. rewrite (Hanti x.1 y.1).
  destruct (V_cmp x.1 y.1); simpl; try done. apply Z.compare_antisym.
Qed.

(** With at least one installed name that has an info dict, every name
    gets the status that the pair of its installed egg and its best
    available egg calls for. *)
Theorem get_status_classification self :
  forallb (well_named (chain self)) (group_names (chain self)) = true →
  split_eggname "" = None →
  (∀ cname info, get_installed_info cname = Some info →
                 ∃ e, info !! "egg_name" = Some e ∧ e ≠ ""
                      ∧ info !! "a-egg" = None) →
  (∀ a b, V_cmp b a = CompOpp (V_cmp a b)) →
  some_installed get_installed_cnames = true →
  ∃ res, get_status self = Ok res
    ∧ ∀ cname,
        match installed_record cname, available (chain self) cname with
        | None, None => res !! cname = None
        | None, Some _ => status_of res cname = Some "installable"
        | Some info, None => status_of res cname = Some "installed"
        | Some info, Some (fn, _, _) =>
            ∀ x y, vb_egg fn = Some x →
                   vb_egg (default "" (info !! "egg_name")) = Some y →
                   status_of res cname =
                   Some (if tuple_le x y then "up-to-date" else "updateable")
        end.
Proof.
  intros Hwn Hempty Hinfo Hanti Hsome.
  destruct (get_status_records self Hwn) as (res & Hget & Hres).
  exists res. split; [done|]. intros cname. unfold status_of.
  rewrite Hres, Hsome. unfold Resource.with_available.
  destruct (installed_record cname) as [info|] eqn:Hrec.
  - assert (Hi : get_installed_info cname = Some info).
    { unfold Resource.installed_record in Hrec. by case_decide. }
    destruct (Hinfo cname info Hi) as (e & He & Hne & Ha).
    destruct (available (chain self) cname) as [[[fn v] b]|] eqn:Hav; simpl.
    + intros x y Hx Hy. rewrite set_status_status.
      rewrite !(lookup_insert_ne _ "a-ver") by done.
      rewrite lookup_insert_eq, lookup_insert_ne by done. rewrite He in *.
      simpl in *. rewrite eqb_nonempty by done.
      rewrite eqb_nonempty by (by eapply available_nonempty).
      rewrite Hx, Hy. simpl. unfold Resource.tuple_le.
      rewrite (tuple_cmp_antisym x y Hanti).
      by destruct (tuple_cmp x y).
    + rewrite set_status_status, He, Ha. simpl.
      by rewrite eqb_nonempty.
  - destruct (available (chain self) cname) as [[[fn v] b]|] eqn:Hav;
      simpl; [|done].
    rewrite set_status_status.
    rewrite !(lookup_insert_ne _ "a-ver") by done.
    rewrite lookup_insert_eq, lookup_insert_ne by done.
    rewrite lookup_singleton_ne by done. simpl.
    by rewrite eqb_nonempty by (by eapply available_nonempty).
Qed.

(** C7 (amended): an installed egg whose filename fails version parsing
    does not make [get_status] raise; its key is [None], which Python 2
    orders below every parsed key.  The name is classified 'installed'
    when no egg is available, 'updateable' when the best available egg
    parses, and 'up-to-date' when the best available egg fails to parse
    as well. *)
Theorem unparsable_installed_status self cname info e :
  forallb (well_named (chain self)) (group_names (chain self)) = true →
  split_eggname "" = None →
  cname ∈ get_installed_cnames →
  get_installed_info cname = Some info →
  info !! "egg_name" = Some e →
  e ≠ "" →
  info !! "a-egg" = None →
  vb_egg e = None →
  ∃ res, get_status self = Ok res
    ∧ status_of res cname =
      Some (match available (chain self) cname with
            | None => "installed"
            | Some (fn, _, _) =>
                match vb_egg fn with
                | Some _ => "updateable"
                | None => "up-to-date"
                end
            end).
Proof.
  intros Hwn Hempty Hin Hi He Hne Ha Hvb.
  destruct (get_status_records self Hwn) as (res & Hget & Hres).
  exists res. split; [done|]. unfold status_of. rewrite Hres.
  assert (Hsome : some_installed get_installed_cnames = true).
  { destruct (some_installed get_installed_cnames) eqn:Hs; [done|].
    by rewrite (some_installed_false _ _ Hs Hin) in Hi. }
  rewrite Hsome. unfold Resource.installed_record.
  rewrite decide_True by done. rewrite Hi. unfold Resource.with_available.
  destruct (available (chain self) cname) as [[[fn v] b]|] eqn:Hav; simpl.
  - rewrite set_status_status.
    rewrite !(lookup_insert_ne _ "a-ver") by done.
    rewrite lookup_insert_eq, lookup_insert_ne by done. rewrite He. simpl.
    rewrite eqb_nonempty by done.
    rewrite eqb_nonempty by (by eapply available_nonempty).
    rewrite Hvb. unfold Resource.py_ge. by destruct (vb_egg fn).
  - rewrite set_status_status, He, Ha. simpl. by rewrite eqb_nonempty.
Qed.
End status_props.

(** ** The orchestrator on concrete inputs *)

Lemma exclude_set_and_phases_witness :
  (Enpkg.force EnpkgRun.force_only = true → EnpkgRun.targets ≠ [])
  ∧ ∃ exclude tr,
    EnpkgRun.exclude_set EnpkgRun.installed_sys EnpkgRun.force_only "/usr"
      EnpkgRun.targets = Ok exclude
    ∧ EnpkgRun.main EnpkgRun.installed_sys EnpkgRun.force_only "/usr"
        "/usr/LOCAL-REPO" true EnpkgRun.targets = Ok tr
    ∧ (Enpkg.force EnpkgRun.force_only = false →
       Enpkg.forceall EnpkgRun.force_only = false →
       exclude = Enpkg.sys_inst EnpkgRun.installed_sys EnpkgRun.sys_prefix
                 ∪ Enpkg.prefix_inst EnpkgRun.installed_sys
                     EnpkgRun.sys_prefix "/usr")
    ∧ (Enpkg.force EnpkgRun.force_only = true →
       ∃ d, last EnpkgRun.targets = Some d
            ∧ exclude =
              (Enpkg.sys_inst EnpkgRun.installed_sys EnpkgRun.sys_prefix
               ∪ Enpkg.prefix_inst EnpkgRun.installed_sys
                   EnpkgRun.sys_prefix "/usr") ∖ {[ Naming.filename_dist d ]})
    ∧ (Enpkg.force EnpkgRun.force_only = false →
       Enpkg.forceall EnpkgRun.force_only = true → exclude = ∅)
    ∧ Enpkg.fetched Naming.filename_dist tr =
      filter (λ fn, fn ∉ exclude) (Naming.filename_dist <$> EnpkgRun.targets)
    ∧ Enpkg.installed tr =
      filter (λ fn, fn ∉ exclude) (Naming.filename_dist <$> EnpkgRun.targets).
Proof.
  split; [intros _; discriminate|].
  apply (exclude_set_and_phases Naming.filename_dist Naming.cname_eggname
           EnpkgRun.installed_sys EnpkgRun.join EnpkgRun.sys_prefix
           EnpkgRun.force_only "/usr" "/usr/LOCAL-REPO" true EnpkgRun.targets).
  intros _; discriminate.
Defined.

(** With both [--force] and [--forceall] the [force] branch is taken:
    the exclude set still holds the installed dependency, which is
    neither fetched nor installed. *)
Lemma forceall_with_force_excludes :
  Enpkg.forceall EnpkgRun.force_and_forceall = true
  ∧ EnpkgRun.exclude_set EnpkgRun.installed_sys EnpkgRun.force_and_forceall
      "/usr" EnpkgRun.targets = Ok {[ "foo-1.0-1.egg" ]}
  ∧ ({[ "foo-1.0-1.egg" ]} : gset string) ≠ ∅
  ∧ EnpkgRun.main EnpkgRun.installed_sys EnpkgRun.force_and_forceall "/usr"
      "/usr/LOCAL-REPO" true EnpkgRun.targets =
    Ok [Enpkg.FetchDist "http://repo/bar-2.0-1.egg" "/usr/LOCAL-REPO" true;
        Enpkg.PprintFnAction "bar-2.0-1.egg" "installing";
        Enpkg.CallEgginst ["--prefix"; "/usr"; "/usr/LOCAL-REPO/bar-2.0-1.egg"]].
Proof.
  split; [reflexivity|]. split; [vm_compute; reflexivity|].
  split; [|vm_compute; reflexivity].
  intros Heq. assert (Hin : "foo-1.0-1.egg" ∈ (∅ : gset string)).
  { rewrite <- Heq. by apply elem_of_singleton. }
  by apply not_elem_of_empty in Hin.
Qed.

Lemma removal_skips_primary_targets_witness :
  (Enpkg.force EnpkgRun.force_only = true → EnpkgRun.targets ≠ [])
  ∧ ∃ tr,
    EnpkgRun.main EnpkgRun.installed_sys EnpkgRun.force_only "/usr"
      "/usr/LOCAL-REPO" true EnpkgRun.targets = Ok tr
    ∧ (∀ f, f ∈ Enpkg.removed tr →
            f ∈ Enpkg.prefix_inst EnpkgRun.installed_sys EnpkgRun.sys_prefix
                  "/usr"
            ∧ ∃ dist, dist ∈ EnpkgRun.targets
                      ∧ (Naming.filename_dist dist
                         ∉ Enpkg.sys_inst EnpkgRun.installed_sys
                             EnpkgRun.sys_prefix)
                      ∧ Naming.cname_eggname (Naming.filename_dist dist)
                        = Naming.cname_eggname f)
    ∧ (∀ f dist,
         f ∈ Enpkg.prefix_inst EnpkgRun.installed_sys EnpkgRun.sys_prefix
               "/usr" →
         dist ∈ EnpkgRun.targets →
         Naming.filename_dist dist
         ∉ Enpkg.sys_inst EnpkgRun.installed_sys EnpkgRun.sys_prefix →
         Naming.cname_eggname (Naming.filename_dist dist)
         = Naming.cname_eggname f →
         f ≠ Naming.filename_dist dist →
         f ∈ Enpkg.removed tr).
Proof.
  split; [intros _; discriminate|].
  apply (removal_skips_primary_targets Naming.filename_dist
           Naming.cname_eggname EnpkgRun.installed_sys EnpkgRun.join
           EnpkgRun.sys_prefix EnpkgRun.force_only "/usr" "/usr/LOCAL-REPO"
           true EnpkgRun.targets).
  intros _; discriminate.
Defined.

(** Upgrading an egg under [sys.prefix] removes the old file, which is an
    element of the primary-runtime installed set. *)
Lemma removal_of_primary_installed_file :
  EnpkgRun.main EnpkgRun.installed_sys EnpkgRun.plain "/usr" "/usr/LOCAL-REPO"
    true ["http://repo/foo-2.0-1.egg"] =
  Ok [Enpkg.FetchDist "http://repo/foo-2.0-1.egg" "/usr/LOCAL-REPO" false;
      Enpkg.PprintFnAction "foo-1.0-1.egg" "removing";
      Enpkg.CallEgginst ["--remove"; "--prefix"; "/usr"; "foo-1.0-1.egg"];
      Enpkg.PprintFnAction "foo-2.0-1.egg" "installing";
      Enpkg.CallEgginst ["--prefix"; "/usr"; "/usr/LOCAL-REPO/foo-2.0-1.egg"]]
  ∧ "foo-1.0-1.egg" ∈ Enpkg.sys_inst EnpkgRun.installed_sys EnpkgRun.sys_prefix.
Proof.
  split; [vm_compute; reflexivity|].
  unfold Enpkg.sys_inst. apply elem_of_list_to_set.
  change (EnpkgRun.installed_sys EnpkgRun.sys_prefix) with ["foo-1.0-1.egg"].
  apply list_elem_of_here.
Qed.

(** C4: at a target that is already installed under a prefix other than
    [sys.prefix], the removal phase removes the target's own file, and
    the install phase, which excludes it, does not put it back. *)
Theorem removal_of_installed_target :
  EnpkgRun.main EnpkgRun.installed_env EnpkgRun.plain "/opt/env"
    "/opt/env/LOCAL-REPO" true ["http://repo/foo-1.0-1.egg"] =
  Ok [Enpkg.PprintFnAction "foo-1.0-1.egg" "removing";
      Enpkg.CallEgginst ["--remove"; "--prefix"; "/opt/env"; "foo-1.0-1.egg"]].
Proof. vm_compute. reflexivity. Qed.

Lemma install_forward_removal_reverse_witness :
  (Enpkg.force EnpkgRun.force_only = true → EnpkgRun.targets ≠ [])
  ∧ ∃ exclude tr,
    EnpkgRun.exclude_set EnpkgRun.installed_sys EnpkgRun.force_only "/usr"
      EnpkgRun.targets = Ok exclude
    ∧ EnpkgRun.main EnpkgRun.installed_sys EnpkgRun.force_only "/usr"
        "/usr/LOCAL-REPO" true EnpkgRun.targets = Ok tr
    ∧ Enpkg.installed tr =
      filter (λ fn, fn ∉ exclude) (Naming.filename_dist <$> EnpkgRun.targets)
    ∧ Enpkg.removed tr =
      concat (Enpkg.removed_for Naming.filename_dist Naming.cname_eggname
                EnpkgRun.installed_sys EnpkgRun.sys_prefix "/usr"
              <$> reverse EnpkgRun.targets)
    ∧ Enpkg.egginst_calls tr =
      if Enpkg.dry_run EnpkgRun.force_only then []
      else ((λ fn_inst, ["--remove"; "--prefix"; "/usr"; fn_inst])
              <$> concat (Enpkg.removed_for Naming.filename_dist
                            Naming.cname_eggname EnpkgRun.installed_sys
                            EnpkgRun.sys_prefix "/usr"
                          <$> reverse EnpkgRun.targets))
           ++ ((λ fn, ["--prefix"; "/usr"; EnpkgRun.join "/usr/LOCAL-REPO" fn])
                 <$> filter (λ fn, fn ∉ exclude)
                       (Naming.filename_dist <$> EnpkgRun.targets)).
Proof.
  split; [intros _; discriminate|].
  apply (install_forward_removal_reverse Naming.filename_dist
           Naming.cname_eggname EnpkgRun.installed_sys EnpkgRun.join
           EnpkgRun.sys_prefix EnpkgRun.force_only "/usr" "/usr/LOCAL-REPO"
           true EnpkgRun.targets).
  intros _; discriminate.
Defined.

(** ** The catalog merger on concrete servers *)

Lemma read_product_index_dual_lookup_witness :
  (ResourceRun._read_product_index ResourceRun.net_both
     "http://host/repo/products/acme").1
  = Ok ("http://host/repo/products/acme/index.json", JDict [])
  ∧ (Resource.GetResponse Resource.conn2
     ∉ (ResourceRun._read_product_index ResourceRun.net_both
          "http://host/repo/products/acme").2)
  ∧ (ResourceRun._read_product_index ResourceRun.net_specific
       "http://host/repo/products/acme").1
    = Ok ("http://host/repo/products/acme/index-rh5-64.json",
          ResourceRun.acme_index)
  ∧ (ResourceRun._read_product_index ResourceRun.net_empty
       "http://host/repo/products/acme").1
    = Raise (EnstallerResourceIndexError
               "/repo/products/acme/index-rh5-64.json").
Proof.
  destruct (read_product_index_dual_lookup ResourceRun.json_loads
              ResourceRun.url_netloc ResourceRun.url_path ResourceRun.plat
              ResourceRun.net_both "http://host/repo/products/acme")
    as (Hboth & _ & _).
  destruct (Hboth eq_refl) as (Hres & Hget & _ & _).
  destruct (read_product_index_dual_lookup ResourceRun.json_loads
              ResourceRun.url_netloc ResourceRun.url_path ResourceRun.plat
              ResourceRun.net_specific "http://host/repo/products/acme")
    as (_ & Hspecific & _).
  destruct (read_product_index_dual_lookup ResourceRun.json_loads
              ResourceRun.url_netloc ResourceRun.url_path ResourceRun.plat
              ResourceRun.net_empty "http://host/repo/products/acme")
    as (_ & _ & Hnone).
  split; [apply (Hres (JDict [])); reflexivity|].
  split; [exact Hget|].
  split; [apply (Hspecific ltac:(discriminate) eq_refl ResourceRun.acme_index);
          reflexivity|].
  apply Hnone; discriminate.
Defined.


(** An egg filed under the wrong key: the assertion error leaves
    [load_index] as it is, and the product [acme], which comes next in the
    root index and can be read, is not loaded. *)
Lemma mismatch_is_not_aggregated :
  ∃ self',
    ResourceRun.load_index ResourceRun.net_broken "http://host/repo/"
      Resource.init = (Raise (AssertionError "bar-1.0-1.egg"), self')
    ∧ Resource.index self' = []
    ∧ Chain.index (Resource.chain self') = ∅
    ∧ ResourceRun.outcome ResourceRun.net_broken "http://host/repo"
        ResourceRun.acme = Ok tt.
Proof.
  eexists. split; [vm_compute; reflexivity|].
  split; [reflexivity|]. split; vm_compute; reflexivity.
Qed.

Lemma cname_mismatch_aborts_load_witness :
  ∃ self',
    ResourceRun.load_index ResourceRun.net_broken "http://host/repo/"
      Resource.init = (Raise (AssertionError "bar-1.0-1.egg"), self')
    ∧ Resource.index self'
      = Resource.index Resource.init
        ++ ResourceRun.added_products ResourceRun.net_broken
             "http://host/repo" []
    ∧ ResourceRun.load_products ResourceRun.net_broken "http://host/repo" []
        ([] ++ [ResourceRun.broken]) Resource.init
      = (Raise (AssertionError "bar-1.0-1.egg"), self').
Proof.
  destruct (cname_mismatch_aborts_load ResourceRun.json_loads
              ResourceRun.url_netloc ResourceRun.url_path ResourceRun.py_str
              Naming.split_eggname Naming.canonical_name ResourceRun.plat)
    as [_ Hload].
  apply (Hload ResourceRun.net_broken "http://host/repo/" Resource.init
           (JList [ResourceRun.broken; ResourceRun.acme])
           [] ResourceRun.broken [ResourceRun.acme] "bar-1.0-1.egg").
  - reflexivity.
  - reflexivity.
  - reflexivity.
  - vm_compute. reflexivity.
Defined.

Lemma load_index_unreachable_root_witness :
  ResourceRun.load_index ResourceRun.net_unreachable "http://host/repo/"
    Resource.init = (Ok tt, Resource.init)
  ∧ ResourceRun.load_index ResourceRun.net_empty "http://host/repo/"
      Resource.init
    = ResourceRun.load_index ResourceRun.net_unreachable "http://host/repo/"
        Resource.init.
Proof.
  apply (load_index_unreachable_root ResourceRun.json_loads
           ResourceRun.url_netloc ResourceRun.url_path ResourceRun.py_str
           Naming.split_eggname Naming.canonical_name ResourceRun.plat
           ResourceRun.net_unreachable ResourceRun.net_empty
           "http://host/repo/" Resource.init); reflexivity.
Defined.

(** ** The status classifier on concrete catalogs *)

Lemma V_cmp_antisym (x y : list N) :
  Naming.V_cmp y x = CompOpp (Naming.V_cmp x y).
Proof.
  revert y. induction x as [|a x IH]; intros [|b y]; simpl; try done.
  rewrite (N.compare_antisym a b).
  destruct (a ?= b)%N; simpl; [apply IH|done|done].
Qed.

(** C2: with nothing installed, the loop over the available groups is
    never entered: [acme] is available and gets no record, where the
    specification gives it the status 'installable'. *)
Theorem get_status_nothing_installed :
  StatusRun.get_dist StatusRun.acme_chain "acme"
  = Some "http://repo/acme-1.2.0-1.egg"
  ∧ StatusRun.get_status [] StatusRun.nothing StatusRun.acme_chain = Ok ∅.
Proof. split; vm_compute; reflexivity. Qed.

(** The same catalog with an older [acme] installed: the pair is
    classified as the specification says. *)
Lemma get_status_classification_example :
  ∃ res,
    Resource.get_status Naming.split_eggname Naming.split_dist
      Naming.comparable_version Naming.V_cmp StatusRun.get_dist
      ["acme"] StatusRun.old_acme
      {| Resource.index := []; Resource.chain := StatusRun.acme_chain |}
    = Ok res
    ∧ Resource.status_of res "acme" = Some "updateable".
Proof.
  destruct (get_status_classification Naming.split_eggname Naming.split_dist
              Naming.comparable_version Naming.V_cmp StatusRun.get_dist
              ["acme"] StatusRun.old_acme
              {| Resource.index := []; Resource.chain := StatusRun.acme_chain |})
    as (res & Hget & Hres).
  - vm_compute. reflexivity.
  - reflexivity.
  - intros cname info. unfold StatusRun.old_acme.
    destruct (String.eqb cname "acme"); [|done]. intros [= <-].
    exists "acme-1.0.0-1.egg". split; [vm_compute; reflexivity|].
    split; [done|]. vm_compute. reflexivity.
  - intros a b. apply V_cmp_antisym.
  - reflexivity.
  - exists res. split; [exact Hget|].
    pose proof (Hres "acme") as H. vm_compute in H.
    specialize (H _ _ eq_refl eq_refl). exact H.
Qed.

(** An installed egg with the version [2009j], which cannot be parsed,
    or with a name of the wrong shape, next to an available
    [foo-1.0-1.egg]: the name is classified 'updateable', not
    'installed'. *)
Lemma unparsable_installed_is_updateable :
  StatusRun.vb_egg "foo-2009j-1.egg" = None
  ∧ Naming.split_eggname "foo-1.0-py2.7.egg" = None
  ∧ StatusRun.get_dist StatusRun.foo_chain "foo"
    = Some "http://repo/foo-1.0-1.egg"
  ∧ StatusRun.status ["foo"] StatusRun.odd_foo StatusRun.foo_chain "foo"
    = Some "updateable"
  ∧ StatusRun.status ["foo"] StatusRun.easy_foo StatusRun.foo_chain "foo"
    = Some "updateable".
Proof. repeat split; vm_compute; reflexivity. Qed.

Lemma unparsable_installed_status_witness :
  ∃ res,
    Resource.get_status Naming.split_eggname Naming.split_dist
      Naming.comparable_version Naming.V_cmp StatusRun.get_dist
      ["foo"] StatusRun.odd_foo
      {| Resource.index := []; Resource.chain := StatusRun.foo_chain |}
    = Ok res
    ∧ Resource.status_of res "foo" =
      Some (match Resource.available Naming.split_eggname Naming.split_dist
                    StatusRun.get_dist
                    (Resource.chain
                       {| Resource.index := [];
                          Resource.chain := StatusRun.foo_chain |}) "foo" with
            | None => "installed"
            | Some (fn, _, _) =>
                match Resource.vb_egg Naming.split_eggname
                        Naming.comparable_version fn with
                | Some _ => "updateable"
                | None => "up-to-date"
                end
            end).
Proof.
  apply (unparsable_installed_status Naming.split_eggname Naming.split_dist
           Naming.comparable_version Naming.V_cmp StatusRun.get_dist
           ["foo"] StatusRun.odd_foo
           {| Resource.index := []; Resource.chain := StatusRun.foo_chain |}
           "foo" (<["egg_name" := "foo-2009j-1.egg"]> {[ "name" := "foo" ]})
           "foo-2009j-1.egg").
  - vm_compute. reflexivity.
  - reflexivity.
  - apply list_elem_of_here.
  - vm_compute. reflexivity.
  - vm_compute. reflexivity.
  - discriminate.
  - vm_compute. reflexivity.
  - vm_compute. reflexivity.
Defined.

(** * Further properties *)

(** ** The phases of [main] *)

Section enpkg_more.
Import Enpkg EnpkgTrace.
Variable filename_dist : string → string.
Variable cname_eggname : string → string.
Variable get_installed : string → list string.
Variable join : string → string → string.
Variable sys_prefix : string.

Abbreviation fetch_events := Enpkg.fetch_events.
Abbreviation remove_events := Enpkg.remove_events.
Abbreviation install_events := (Enpkg.install_events join).
Abbreviation iter_dists_excl := (Enpkg.iter_dists_excl filename_dist).
Abbreviation sys_inst := (Enpkg.sys_inst get_installed sys_prefix).
Abbreviation prefix_inst := (Enpkg.prefix_inst get_installed sys_prefix).
Abbreviation exclude_set :=
  (Enpkg.exclude_set filename_dist get_installed sys_prefix).
Abbreviation main :=
  (Enpkg.main filename_dist cname_eggname get_installed join sys_prefix).
Abbreviation fetched := (Enpkg.fetched filename_dist).
Abbreviation removed_for :=
  (Enpkg.removed_for filename_dist cname_eggname get_installed sys_prefix).

Lemma Forall_concat_fmap {A B} (P : B → Prop) (g : A → list B) (l : list A) :
  (∀ x, Forall P (g x)) → Forall P (concat (g <$> l)).
Proof.
  intros Hg. induction l as [|x l IH]; [constructor|].
  rewrite fmap_cons. cbn [concat]. apply Forall_app. by split.
Qed.

(** The phases do not interleave: after the directory of the local
    repository is made, the trace of [main] is a run of fetch events, then
    a run of removal events, then a run of install events. *)
Theorem main_phase_barrier opts prefix local local_isdir dists :
  (force opts = true → dists ≠ []) →
  ∃ F R I,
    main opts prefix local local_isdir dists
    = Ok ((if local_isdir then [] else [Makedirs local]) ++ F ++ R ++ I)
    ∧ Forall (λ e, is_fetch e = true) F
    ∧ Forall (λ e, is_removal e = true) R
    ∧ Forall (λ e, is_install e = true) I.
Proof.
  intros Hne.
  destruct (exclude_set_ok filename_dist get_installed sys_prefix
              opts prefix dists Hne) as [E HE].
  eexists _, _, _. split.
  - by apply main_trace.
  - split; [|split].
    + apply Forall_concat_fmap. intros df. unfold Enpkg.fetch_events.
      destruct (dry_run opts); by repeat constructor.
    + apply Forall_concat_fmap. intros dist. apply Forall_concat_fmap.
      intros fn. unfold Enpkg.remove_events.
      destruct (dry_run opts); by repeat constructor.
    + apply Forall_concat_fmap. intros df. unfold Enpkg.install_events.
      destruct (dry_run opts); by repeat constructor.
Qed.

(** With [--dry-run] nothing is downloaded and no egginst subprocess is
    started, and the removals and installs that are printed are those of
    the run without [--dry-run]; the directory of the local repository is
    still made when it is missing. *)
Theorem dry_run_effects opts prefix local local_isdir dists :
  dry_run opts = true →
  (force opts = true → dists ≠ []) →
  ∃ tr tr',
    main opts prefix local local_isdir dists = Ok tr
    ∧ main (for_real opts) prefix local local_isdir dists = Ok tr'
    ∧ filter (λ e, is_effect e = true) tr
      = (if local_isdir then [] else [Makedirs local])
    ∧ fetched tr = fetched tr'
    ∧ removed tr = removed tr'
    ∧ installed tr = installed tr'.
Proof.
  intros Hdry Hne.
  destruct (exclude_set_ok filename_dist get_installed sys_prefix
              opts prefix dists Hne) as [E HE].
  assert (HE' : exclude_set (for_real opts) prefix dists = Ok E) by done.
  destruct (main_observed filename_dist cname_eggname get_installed join
              sys_prefix opts prefix local local_isdir dists E HE)
    as (tr & Hmain & Hf & Hr & Hi).
  destruct (main_observed filename_dist cname_eggname get_installed join
              sys_prefix (for_real opts) prefix local local_isdir dists E HE')
    as (tr' & Hmain' & Hf' & Hr' & Hi').
  exists tr, tr'. split; [done|]. split; [done|].
  split; [|by rewrite Hf, Hr, Hi, Hf', Hr', Hi'].
  rewrite (main_trace filename_dist cname_eggname get_installed join
             sys_prefix opts prefix local local_isdir dists E HE) in Hmain.
  injection Hmain as <-. rewrite !filter_app.
  assert (Hnil : ∀ {A} (g : A → list event) (l : list A),
             (∀ x, filter (λ e, is_effect e = true) (g x) = []) →
             filter (λ e, is_effect e = true) (concat (g <$> l)) = []).
  { intros A g l Hg. induction l as [|x l IH]; [done|].
    rewrite fmap_cons. cbn [concat]. by rewrite filter_app, Hg, IH. }
  rewrite !Hnil.
  - rewrite !app_nil_r. by destruct local_isdir.
  - intros df. unfold Enpkg.install_events. by rewrite Hdry.
  - intros dist. apply Hnil. intros fn. unfold Enpkg.remove_events.
    by rewrite Hdry.
  - intros df. unfold Enpkg.fetch_events. by rewrite Hdry.
Qed.

Lemma iter_dists_excl_all_excluded dists (exclude : gset string) :
  (∀ dist, dist ∈ dists → filename_dist dist ∈ exclude) →
  iter_dists_excl dists exclude = [].
Proof.
  induction dists as [|d l IH]; intros Hall; [done|]. simpl.
  rewrite decide_True by (apply Hall; left).
  apply IH. intros dist Hd. apply Hall. by right.
Qed.

Lemma removed_for_all_primary opts prefix dists :
  (∀ dist, dist ∈ dists → filename_dist dist ∈ sys_inst) →
  concat ((λ dist, concat (remove_events opts prefix
                             <$> removed_for prefix dist)) <$> dists) = [].
Proof.
  induction dists as [|d l IH]; intros Hall; [done|].
  rewrite fmap_cons. cbn [concat]. rewrite IH.
  - unfold Enpkg.removed_for. rewrite decide_True; [done|]. apply Hall. left.
  - intros dist Hd. apply Hall. by right.
Qed.

(** Running again is a no-op: when the file of every target is already
    installed under [sys.prefix] and neither [--force] nor [--forceall]
    is given, nothing is fetched, removed or installed. *)
Theorem main_all_installed opts prefix local local_isdir dists :
  force opts = false →
  forceall opts = false →
  (∀ dist, dist ∈ dists → filename_dist dist ∈ sys_inst) →
  main opts prefix local local_isdir dists
  = Ok (if local_isdir then [] else [Makedirs local]).
Proof.
  intros Hf Hfa Hall.
  assert (HE : exclude_set opts prefix dists
               = Ok (sys_inst ∪ prefix_inst prefix)).
  { unfold Enpkg.exclude_set. by rewrite Hf, Hfa. }
  rewrite (main_trace filename_dist cname_eggname get_installed join
             sys_prefix opts prefix local local_isdir dists _ HE).
  rewrite iter_dists_excl_all_excluded.
  - rewrite removed_for_all_primary.
    + simpl. by rewrite !app_nil_r.
    + intros dist Hd. apply Hall. by rewrite elem_of_reverse in Hd.
  - intros dist Hd. by apply elem_of_union_l, Hall.
Qed.
End enpkg_more.

(** ** remove_req *)

Section remove_req_props.
Import EnpkgRemove.
Variable cname_eggname : string → string.
Variable py_int : string → option Z.

Abbreviation scan_installed :=
  (EnpkgRemove.scan_installed cname_eggname py_int).
Abbreviation remove_req := (EnpkgRemove.remove_req cname_eggname).

Lemma scan_installed_skip req pre rest :
  (∀ fn, fn ∈ pre → cname_eggname fn ≠ name req) →
  scan_installed req (pre ++ rest) = scan_installed req rest.
Proof.
  induction pre as [|fn pre IH]; intros Hpre; [done|]. simpl.
  destruct (String.eqb_spec (name req) (cname_eggname fn)) as [Heq|_].
  - destruct (Hpre fn); [left|done].
  - simpl. apply IH. intros f Hf. apply Hpre. by right.
Qed.

Lemma scan_installed_first req fn rest :
  cname_eggname fn = name req →
  scan_installed req (fn :: rest) = scan_installed req [fn].
Proof.
  intros Heq. simpl. rewrite Heq, String.eqb_refl. simpl.
  by repeat case_match.
Qed.

Lemma scan_installed_break req fns pkg :
  scan_installed req fns = Break pkg →
  ∃ fn, fn ∈ fns ∧ cname_eggname fn = name req ∧ pkg = strip_egg fn.
Proof.
  induction fns as [|fn fns IH]; [done|]. simpl.
  destruct (String.eqb_spec (name req) (cname_eggname fn)) as [Heq|_]; simpl.
  - intros Hb. exists fn. split; [left|]. split; [done|].
    repeat case_match; by simplify_eq.
  - intros Hb. destruct (IH Hb) as (f & Hf & Hc & Hp).
    exists f. split; [by right|done].
Qed.

(** A package that is not installed: when no installed file has the
    canonical name of the requirement, [remove_req] only prints that the
    package does not seem to be installed. *)
Theorem remove_req_not_installed get_installed req prefix dry_run :
  (∀ fn, fn ∈ get_installed prefix → cname_eggname fn ≠ name req) →
  remove_req get_installed py_int req prefix dry_run
  = (Ok tt, [PrintNotInstalled (name req)]).
Proof.
  intros Hnone. unfold EnpkgRemove.remove_req.
  rewrite <- (app_nil_r (get_installed prefix)).
  by rewrite scan_installed_skip.
Qed.

(** [remove_req] starts at most one egginst subprocess, none with
    [--dry-run]; the package it removes is an installed file, without its
    extension, whose canonical name is the name of the requirement. *)
Theorem remove_req_at_most_one get_installed req prefix dry_run :
  let tr := (remove_req get_installed py_int req prefix dry_run).2 in
  egginst_removed tr = []
  ∨ (dry_run = false
     ∧ ∃ fn, fn ∈ get_installed prefix
             ∧ cname_eggname fn = name req
             ∧ egginst_removed tr = [strip_egg fn]).
Proof.
  unfold EnpkgRemove.remove_req.
  destruct (scan_installed req (get_installed prefix)) as [pkg|pkg| |e] eqn:Hs;
    simpl; try by left.
  destruct dry_run; simpl; [by left|]. right. split; [done|].
  destruct (scan_installed_break _ _ _ Hs) as (fn & Hin & Hc & ->).
  by exists fn.
Qed.

(** Only the first installed file with the name of the requirement is
    looked at: whatever files come after it, also one with the required
    version, [remove_req] does what it does when that file is the only
    one installed. *)
Theorem remove_req_first_match get_installed get_installed'
    req prefix dry_run pre fn post :
  get_installed prefix = pre ++ fn :: post →
  (∀ f, f ∈ pre → cname_eggname f ≠ name req) →
  cname_eggname fn = name req →
  get_installed' prefix = [fn] →
  remove_req get_installed py_int req prefix dry_run
  = remove_req get_installed' py_int req prefix dry_run.
Proof.
  intros Hinst Hpre Hfn Hinst'. unfold EnpkgRemove.remove_req.
  rewrite Hinst, Hinst', scan_installed_skip by done.
  by rewrite scan_installed_first.
Qed.

(** A requirement without a version removes the first installed file of
    its name, whatever version that file has. *)
Theorem remove_req_any_version get_installed req prefix pre fn post :
  truthy_version (version req) = None →
  get_installed prefix = pre ++ fn :: post →
  (∀ f, f ∈ pre → cname_eggname f ≠ name req) →
  cname_eggname fn = name req →
  remove_req get_installed py_int req prefix false
  = (Ok tt,
     [Do (Enpkg.PprintFnAction (strip_egg fn) "removing");
      Do (Enpkg.CallEgginst ["--remove"; "--prefix"; prefix; strip_egg fn])]).
Proof.
  intros Hv Hinst Hpre Hfn. unfold EnpkgRemove.remove_req.
  rewrite Hinst, scan_installed_skip by done. simpl.
  by rewrite Hfn, String.eqb_refl, Hv.
Qed.
End remove_req_props.

(** ** More on the catalog merger *)

Section resource_more.
Import Resource.
Variable json_loads : string → option json.
Variable url_netloc : string → string.
Variable url_path : string → string.
Variable py_str : json → string.
Variable split_eggname : string → option (string * string * Z).
Variable canonical_name : string → string.
Variable plat : string.

Abbreviation specific_url := (Resource.specific_url plat).
Abbreviation _read_product_index :=
  (Resource._read_product_index json_loads url_netloc url_path plat).
Abbreviation add_egg := (Resource.add_egg split_eggname canonical_name).
Abbreviation add_project :=
  (Resource.add_project split_eggname canonical_name).
Abbreviation _add_egg_repos :=
  (Resource._add_egg_repos split_eggname canonical_name).
Abbreviation merge_product_index :=
  (Resource.merge_product_index json_loads url_netloc url_path py_str plat).
Abbreviation check_platform := (Resource.check_platform py_str plat).
Abbreviation format_s := (Resource.format_s py_str).
Abbreviation add_product :=
  (Resource.add_product json_loads url_netloc url_path py_str split_eggname
     canonical_name plat).
Abbreviation prepare_product := (Resource.prepare_product py_str).
Abbreviation load_product :=
  (Resource.load_product json_loads url_netloc url_path py_str split_eggname
     canonical_name plat).
Abbreviation load_products :=
  (Resource.load_products json_loads url_netloc url_path py_str split_eggname
     canonical_name plat).
Abbreviation load_index :=
  (Resource.load_index json_loads url_netloc url_path py_str split_eggname
     canonical_name plat).
Abbreviation outcome :=
  (Resource.outcome json_loads url_netloc url_path py_str split_eggname
     canonical_name plat).
Abbreviation nonfatal :=
  (Resource.nonfatal json_loads url_netloc url_path py_str split_eggname
     canonical_name plat).
Abbreviation added_products :=
  (Resource.added_products json_loads url_netloc url_path py_str
     split_eggname canonical_name plat).


(** There is no fallback for a body that is not JSON: when the
    platform-independent request answers 200 with a body that does not
    parse, the index error is raised, it names the path of the
    platform-specific URL, and the response of the platform-specific
    request is not looked at. *)
Theorem read_product_index_unparsable (net : network) (product_url : string) :
  let independent := independent_url product_url in
  let res1 := http_get net (url_netloc independent) (url_path independent) in
  status res1 = 200%Z →
  json_loads (body res1) = None →
  (_read_product_index net product_url).1
  = Raise (EnstallerResourceIndexError (url_path (specific_url product_url)))
  ∧ (GetResponse conn2 ∉ (_read_product_index net product_url).2).
Proof.
  intros independent res1 Hs Hj. unfold Resource._read_product_index.
  fold independent. fold res1. apply Z.eqb_eq in Hs. rewrite Hs, Hj.
  split; [done|]. simpl. rewrite !elem_of_cons, elem_of_nil.
  intros Hin. repeat destruct Hin as [Hin|Hin]; done.
Qed.

(** A product index for another platform: [add_product] raises before
    anything is merged, and neither the chain nor the product list is
    touched. *)
Theorem add_product_platform_mismatch (net : network) product product' p self :
  merge_product_index net product = Ok product' →
  product' !! "platform" = Some p →
  p ≠ JStr plat →
  add_product net product self
  = (Raise (PlatformException
              ("index file for platform " +:+ format_s p +:+
               ", but running " +:+ plat)), self).
Proof.
  intros Hm Hp Hne. unfold Resource.add_product.
  rewrite (bind_lift_ok _ product') by done.
  unfold bind at 1. unfold Resource.check_platform. rewrite Hp.
  assert (Hneq : negb (match p with
                       | JStr p' => String.eqb p' plat
                       | _ => false
                       end) = true).
  { destruct p; try done. destruct (String.eqb_spec s plat); [|done].
    by subst. }
  by rewrite Hneq.
Qed.

(** Any exception other than the index error leaves [load_index] at
    once, with the products added so far in the product list. *)
Theorem load_index_fatal (net : network) url self root pre product post e :
  read_json_from_url net (rstrip_slash url +:+ "/" +:+ "products") = Ok root →
  iter root = Ok (pre ++ product :: post) →
  forallb (nonfatal net (rstrip_slash url)) pre = true →
  outcome net (rstrip_slash url) product = Raise e →
  (∀ msg, e ≠ EnstallerResourceIndexError msg) →
  ∃ self',
    load_index net url self = (Raise e, self')
    ∧ index self' = index self ++ added_products net (rstrip_slash url) pre.
Proof.
  intros Hroot Hiter Hpre Hout He.
  destruct (load_products_fatal json_loads url_netloc url_path py_str
              split_eggname canonical_name plat net (rstrip_slash url) []
              pre product post self e Hpre Hout He)
    as (self' & Hall & Hidx & _).
  exists self'. split; [|done].
  unfold Resource.load_index. rewrite Hroot.
  rewrite (bind_lift_ok _ (pre ++ product :: post)) by done.
  rewrite (bind_run _ _ _ _ _ Hall). by destruct e.
Qed.
End resource_more.

(** ** The catalog as a data structure *)

(** *** Growth is a preorder *)

Section catalog_order.
Import Resource Catalog.

Lemma extends_refl c : extends c c.
Proof.
  split; [done|]. split; [done|]. intros cname dists Hg. by exists dists.
Qed.

Lemma extends_trans c1 c2 c3 : extends c1 c2 → extends c2 c3 → extends c1 c3.
Proof.
  intros (Hr12 & Hi12 & Hg12) (Hr23 & Hi23 & Hg23).
  split; [by etrans|]. split; [by etrans|]. intros cname dists Hg.
  destruct (Hg12 cname dists Hg) as (d2 & Hg2 & Hp2).
  destruct (Hg23 cname d2 Hg2) as (d3 & Hg3 & Hp3).
  exists d3. split; [done|]. by etrans.
Qed.

Lemma grows_refl self : grows self self.
Proof. split; [apply extends_refl|done]. Qed.

Lemma grows_trans s1 s2 s3 : grows s1 s2 → grows s2 s3 → grows s1 s3.
Proof.
  intros [He12 Hi12] [He23 Hi23].
  split; [by eapply extends_trans|by etrans].
Qed.

Lemma extends_file_egg c cname dist spec :
  extends c (file_egg cname dist spec c).
Proof.
  split; [done|]. split; simpl.
  - rewrite dom_insert_L. set_solver.
  - intros k dists Hg. destruct (decide (k = cname)) as [->|Hk].
    + rewrite lookup_insert_eq, Hg. eexists. split; [done|].
      by apply prefix_app_r.
    + rewrite lookup_insert_ne by done. by exists dists.
Qed.

Lemma grows_keeps self self' cname dists dist :
  grows self self' →
  Chain.groups (chain self) !! cname = Some dists →
  dist ∈ dists →
  is_Some (Chain.index (chain self) !! dist) →
  ∃ dists', Chain.groups (chain self') !! cname = Some dists'
            ∧ dist ∈ dists'
            ∧ is_Some (Chain.index (chain self') !! dist).
Proof.
  intros [(_ & Hdom & Hgroups) _] Hg Hd Hi.
  destruct (Hgroups cname dists Hg) as (dists' & Hg' & [k ->]).
  exists (dists ++ k). split; [done|]. split.
  - apply elem_of_app. by left.
  - apply elem_of_dom, Hdom, elem_of_dom, Hi.
Qed.

Lemma bind_ok_inv {A B} (m : M A) (k : A → M B) self b self' :
  bind m k self = (Ok b, self') →
  ∃ a self1, m self = (Ok a, self1) ∧ k a self1 = (Ok b, self').
Proof.
  unfold bind. destruct (m self) as [[a|e] self1]; [|done]. eauto.
Qed.

Lemma list_getitem_elem {A} (l : list A) i x :
  list_getitem l i = Ok x → x ∈ l.
Proof.
  unfold list_getitem. intros Hget.
  repeat case_match; simplify_eq; by eapply list_elem_of_lookup_2.
Qed.

End catalog_order.

Section catalog_props.
Import Resource Catalog.
Variable json_loads : string → option json.
Variable url_netloc : string → string.
Variable url_path : string → string.
Variable py_str : json → string.
Variable split_eggname : string → option (string * string * Z).
Variable canonical_name : string → string.
Variable plat : string.

Abbreviation add_egg := (Resource.add_egg split_eggname canonical_name).
Abbreviation add_project :=
  (Resource.add_project split_eggname canonical_name).
Abbreviation _add_egg_repos :=
  (Resource._add_egg_repos split_eggname canonical_name).
Abbreviation merge_product_index :=
  (Resource.merge_product_index json_loads url_netloc url_path py_str plat).
Abbreviation check_platform := (Resource.check_platform py_str plat).
Abbreviation add_product :=
  (Resource.add_product json_loads url_netloc url_path py_str split_eggname
     canonical_name plat).
Abbreviation prepare_product := (Resource.prepare_product py_str).
Abbreviation load_product :=
  (Resource.load_product json_loads url_netloc url_path py_str split_eggname
     canonical_name plat).
Abbreviation load_products :=
  (Resource.load_products json_loads url_netloc url_path py_str split_eggname
     canonical_name plat).
Abbreviation load_index :=
  (Resource.load_index json_loads url_netloc url_path py_str split_eggname
     canonical_name plat).
Abbreviation consistent := (Catalog.consistent canonical_name).

Section steps.
Variable R : Resources → Resources → Prop.
Hypothesis R_refl : ∀ self, R self self.
Hypothesis R_trans : ∀ s1 s2 s3, R s1 s2 → R s2 s3 → R s1 s3.
Hypothesis R_file_egg : ∀ self dist spec,
  Chain.cname spec = canonical_name (Chain.name spec) →
  R self {| index := index self;
            chain := file_egg (Chain.cname spec) dist spec (chain self) |}.
Hypothesis R_extend_repos : ∀ self repos,
  R self {| index := index self; chain := extend_repos repos (chain self) |}.
Hypothesis R_append : ∀ self product,
  R self {| index := index self ++ [product]; chain := chain self |}.

Lemma steps_ret {A} (a : A) : steps R (ret a).
Proof. intros self. apply R_refl. Qed.

Lemma steps_raise {A} (e : exn) : steps R (@raise A e).
Proof. intros self. apply R_refl. Qed.

Lemma steps_lift {A} (r : result A) : steps R (lift r).
Proof. intros self. apply R_refl. Qed.

Lemma steps_bind {A B} (m : M A) (k : A → M B) :
  steps R m → (∀ a, steps R (k a)) → steps R (bind m k).
Proof.
  intros Hm Hk self. unfold bind. specialize (Hm self).
  destruct (m self) as [[a|e] self1]; simpl in *; [|done].
  eapply R_trans; [exact Hm|apply Hk].
Qed.

Lemma steps_for {A} (l : list A) (body : A → M unit) :
  (∀ x, steps R (body x)) → steps R (for_ l body).
Proof.
  intros Hbody. induction l as [|x l IH]; simpl.
  - apply steps_ret.
  - apply steps_bind; [apply Hbody|]. by intros _.
Qed.

Lemma steps_add_egg repos cname file : steps R (add_egg repos cname file).
Proof.
  destruct file as [distname data]. unfold Resource.add_egg.
  destruct (split_eggname distname) as [[[n v] b]|]; [|apply steps_raise].
  apply steps_bind; [apply steps_lift|]. intros python.
  apply steps_bind; [apply steps_lift|]. intros packages. simpl.
  destruct (String.eqb_spec (canonical_name n) cname) as [<-|_]; simpl;
    [|apply steps_raise].
  apply steps_bind; [apply steps_lift|]. intros i.
  apply steps_bind; [apply steps_lift|]. intros repo self. simpl.
  by apply (R_file_egg self (repo +:+ distname)
              {| Chain.metadata_version := "1.1"; Chain.name := n;
                 Chain.version := v; Chain.build := b;
                 Chain.python := python; Chain.packages := packages;
                 Chain.cname := canonical_name n |}).
Qed.

Lemma steps_add_project repos entry : steps R (add_project repos entry).
Proof.
  destruct entry as [cname project]. unfold Resource.add_project.
  apply steps_bind; [apply steps_lift|]. intros files.
  apply steps_bind; [apply steps_lift|]. intros files'.
  apply steps_for. intros file. apply steps_add_egg.
Qed.

Lemma steps_add_egg_repos url index : steps R (_add_egg_repos url index).
Proof.
  unfold Resource._add_egg_repos. apply steps_bind.
  - destruct (index !! "egg_repos"); [|apply steps_ret].
    apply steps_bind; [apply steps_lift|]. intros paths. apply steps_lift.
  - intros repos. apply steps_bind.
    + intros self. apply R_extend_repos.
    + intros _. apply steps_bind; [apply steps_lift|]. intros eggs.
      apply steps_for. intros entry. apply steps_add_project.
Qed.

Lemma steps_add_product net product : steps R (add_product net product).
Proof.
  unfold Resource.add_product.
  apply steps_bind; [apply steps_lift|]. intros product'.
  apply steps_bind.
  - unfold Resource.check_platform. repeat case_match;
      first [apply steps_ret | apply steps_raise].
  - intros _. apply steps_bind.
    + destruct (product' !! "eggs"); [|apply steps_ret].
      apply steps_bind; [apply steps_lift|]. intros url.
      apply steps_add_egg_repos.
    + intros _ self. apply R_append.
Qed.

Lemma steps_load_product net url failed product :
  steps R (load_product net url failed product).
Proof.
  unfold Resource.load_product.
  apply steps_bind; [apply steps_lift|]. intros p self.
  pose proof (steps_add_product net p self) as Hadd.
  destruct (add_product net p self) as [[[]|e] self1]; simpl in *; [done|].
  by destruct e.
Qed.

Lemma steps_load_products net url failed products :
  steps R (load_products net url failed products).
Proof.
  revert failed. induction products as [|product products IH]; intros failed.
  - apply steps_ret.
  - simpl. apply steps_bind; [apply steps_load_product|]. intros failed'.
    apply IH.
Qed.

Lemma steps_load_index net url : steps R (load_index net url).
Proof.
  unfold Resource.load_index.
  destruct (read_json_from_url net _) as [root|e].
  - apply steps_bind; [apply steps_lift|]. intros products.
    apply steps_bind; [apply steps_load_products|]. intros failed.
    destruct failed; [apply steps_ret|apply steps_raise].
  - destruct e; first [apply steps_ret | apply steps_raise].
Qed.
End steps.

(** *** The index and the groups stay in step *)

Lemma consistent_empty : consistent Chain.empty.
Proof.
  split; simpl.
  - intros cname dists dist Hg. by rewrite lookup_empty in Hg.
  - intros dist spec Hi. by rewrite lookup_empty in Hi.
Qed.

Lemma consistent_file_egg c dist spec :
  Chain.cname spec = canonical_name (Chain.name spec) →
  consistent c → consistent (file_egg (Chain.cname spec) dist spec c).
Proof.
  intros Hspec [Hgroups Hindex]. split; simpl.
  - intros cname dists d Hg Hd.
    destruct (decide (d = dist)) as [->|Hne];
      [by rewrite lookup_insert_eq|].
    rewrite lookup_insert_ne by done.
    destruct (decide (cname = Chain.cname spec)) as [->|Hc].
    + rewrite lookup_insert_eq in Hg. injection Hg as <-.
      apply elem_of_app in Hd as [Hd|Hd];
        [|by apply list_elem_of_singleton in Hd].
      destruct (Chain.groups c !! Chain.cname spec) as [old|] eqn:Hold;
        simpl in Hd; [by eapply Hgroups|by apply elem_of_nil in Hd].
    + rewrite lookup_insert_ne in Hg by done. by eapply Hgroups.
  - intros d sp Hd. destruct (decide (d = dist)) as [->|Hne].
    + rewrite lookup_insert_eq in Hd. injection Hd as <-. split; [done|].
      rewrite lookup_insert_eq. eexists. split; [done|].
      apply elem_of_app. right. apply list_elem_of_here.
    + rewrite lookup_insert_ne in Hd by done.
      destruct (Hindex d sp Hd) as (Hsp & dists & Hg & Hin).
      split; [done|].
      destruct (decide (Chain.cname sp = Chain.cname spec)) as [Heq|Hc].
      * rewrite Heq, lookup_insert_eq. rewrite Heq in Hg. rewrite Hg.
        eexists. split; [done|]. apply elem_of_app. by left.
      * rewrite lookup_insert_ne by done. eauto.
Qed.

(** Whatever the servers answer and however the load ends, [load_index]
    leaves the index and the groups in step if they were. *)
Theorem load_index_consistent (net : network) url self :
  consistent (chain self) →
  consistent (chain (load_index net url self).2).
Proof.
  apply (steps_load_index
           (λ s s', consistent (chain s) → consistent (chain s'))).
  - by intros s.
  - intros s1 s2 s3 H12 H23 H1. by apply H23, H12.
  - intros s dist spec Hspec. simpl. by apply consistent_file_egg.
  - intros s repos [Hg Hi]. by split.
  - by intros s product.
Qed.

(** *** The catalog only grows *)

(** Loading never takes anything away: the repositories, the products
    and the distributions of every group that were there before are a
    prefix of what is there after, and every entry of the index is still
    there, however the load ends. *)
Theorem load_index_grows (net : network) url self :
  grows self (load_index net url self).2.
Proof.
  apply (steps_load_index grows).
  - apply grows_refl.
  - apply grows_trans.
  - intros s dist spec _. split; [apply extends_file_egg|done].
  - intros s repos. split; [|done]. split; [by apply prefix_app_r|].
    split; [done|]. intros cname dists Hg. by exists dists.
  - intros s product. split; [apply extends_refl|by apply prefix_app_r].
Qed.
End catalog_props.

(** *** What a successful merge has filed *)

Section merge_props.
Import Resource Catalog.
Variable split_eggname : string → option (string * string * Z).
Variable canonical_name : string → string.

Abbreviation add_egg := (Resource.add_egg split_eggname canonical_name).
Abbreviation add_project :=
  (Resource.add_project split_eggname canonical_name).
Abbreviation _add_egg_repos :=
  (Resource._add_egg_repos split_eggname canonical_name).

Lemma for_ok_elem {A} (l : list A) (body : A → M unit) self self' x :
  (∀ y, steps grows (body y)) →
  for_ l body self = (Ok tt, self') →
  x ∈ l →
  ∃ self1 self2, grows self self1 ∧ body x self1 = (Ok tt, self2)
                 ∧ grows self2 self'.
Proof.
  intros Hbody. revert self.
  induction l as [|y l IH]; intros self Hfor Hx;
    [by apply elem_of_nil in Hx|].
  simpl in Hfor. apply bind_ok_inv in Hfor as ([] & self1 & Hy & Hrest).
  apply elem_of_cons in Hx as [->|Hx].
  - exists self, self1. split; [apply grows_refl|]. split; [done|].
    rewrite <- (f_equal snd Hrest : (for_ l body self1).2 = self').
    apply steps_for; [apply grows_refl|apply grows_trans|done].
  - destruct (IH self1 Hrest Hx) as (s1 & s2 & Hg1 & Hb & Hg2).
    exists s1, s2. split; [|done].
    eapply grows_trans; [|exact Hg1].
    rewrite <- (f_equal snd Hy : (body y self).2 = self1). apply Hbody.
Qed.

Lemma steps_grows_add_egg repos cname file :
  steps grows (add_egg repos cname file).
Proof.
  apply steps_add_egg; [apply grows_refl|apply grows_trans|].
  intros s dist spec _. split; [apply extends_file_egg|done].
Qed.

Lemma steps_grows_add_project repos entry :
  steps grows (add_project repos entry).
Proof.
  apply steps_add_project; [apply grows_refl|apply grows_trans|].
  intros s dist spec _. split; [apply extends_file_egg|done].
Qed.

(** What one egg that is filed leaves in the chain. *)
Lemma add_egg_ok repos cname distname data self self' :
  add_egg repos cname (distname, data) self = (Ok tt, self') →
  ∃ repo dists,
    repo ∈ repos
    ∧ Chain.groups (chain self') !! cname = Some dists
    ∧ repo +:+ distname ∈ dists
    ∧ is_Some (Chain.index (chain self') !! (repo +:+ distname)).
Proof.
  unfold Resource.add_egg.
  destruct (split_eggname distname) as [[[n v] b]|]; [|done].
  intros (python & s1 & Hpy & H1)%bind_ok_inv.
  apply bind_ok_inv in H1 as (packages & s2 & Hpk & H2). simpl in H2.
  destruct (negb _); [done|].
  apply bind_ok_inv in H2 as (i & s3 & Hi & H3).
  apply bind_ok_inv in H3 as (repo & s4 & Hrepo & H4).
  unfold lift in *. simplify_eq. unfold modify_chain in H4.
  injection H4 as <-. simpl. exists repo. eexists.
  split; [by eapply list_getitem_elem|].
  split; [by rewrite lookup_insert_eq|].
  split; [|by rewrite lookup_insert_eq].
  apply elem_of_app. right. apply list_elem_of_here.
Qed.

(** After [_add_egg_repos] has returned, every file of every project of
    the egg table is filed: under one of the repositories of the chain it
    is listed in the group of its table key and has an entry in the
    index. *)
Theorem add_egg_repos_files_all url (index : gmap string json) self self'
    eggs_j eggs cname project files_j files distname data :
  _add_egg_repos url index self = (Ok tt, self') →
  index !! "eggs" = Some eggs_j →
  iteritems eggs_j = Ok eggs →
  (cname, project) ∈ eggs →
  getitem project "files" = Ok files_j →
  iteritems files_j = Ok files →
  (distname, data) ∈ files →
  ∃ repo dists,
    repo ∈ Chain.repos (chain self')
    ∧ Chain.groups (chain self') !! cname = Some dists
    ∧ repo +:+ distname ∈ dists
    ∧ is_Some (Chain.index (chain self') !! (repo +:+ distname)).
Proof.
  intros Hrun Heggs_j Heggs Hproject Hfiles_j Hfiles Hfile.
  unfold Resource._add_egg_repos in Hrun.
  apply bind_ok_inv in Hrun as (repos & s1 & Hrepos & Hrun).
  apply bind_ok_inv in Hrun as ([] & s2 & Hext & Hrun).
  apply bind_ok_inv in Hrun as (eggs' & s3 & Heggs' & Hrun).
  rewrite Heggs_j in Heggs'. unfold lift in Heggs'. rewrite Heggs in Heggs'.
  injection Heggs' as <- <-.
  destruct (for_ok_elem _ _ _ _ _ (steps_grows_add_project repos) Hrun
              Hproject) as (s4 & s5 & Hg4 & Hp & Hg5).
  unfold Resource.add_project in Hp.
  apply bind_ok_inv in Hp as (fj & s6 & Hfj & Hp).
  apply bind_ok_inv in Hp as (fl & s7 & Hfl & Hp).
  unfold lift in Hfj, Hfl. rewrite Hfiles_j in Hfj. injection Hfj as <- <-.
  rewrite Hfiles in Hfl. injection Hfl as <- <-.
  destruct (for_ok_elem _ _ _ _ _ (steps_grows_add_egg repos cname) Hp Hfile)
    as (s8 & s9 & Hg8 & Hegg & Hg9).
  destruct (add_egg_ok _ _ _ _ _ _ Hegg) as (repo & dists & Hrepo & Hg & Hd & Hi).
  destruct (grows_keeps s9 self' cname dists (repo +:+ distname)
              (grows_trans _ _ _ Hg9 Hg5) Hg Hd Hi) as (dists' & Hg' & Hd' & Hi').
  exists repo, dists'. split; [|done].
  assert (Hs2 : repo ∈ Chain.repos (chain s2)).
  { unfold modify_chain in Hext. injection Hext as <-. simpl.
    apply elem_of_app. by right. }
  assert (Hgrow : grows s2 self').
  { rewrite <- (f_equal snd Hrun : (for_ eggs (add_project repos) s2).2 = self').
    apply steps_for; [apply grows_refl|apply grows_trans|].
    apply steps_grows_add_project. }
  destruct Hgrow as [([k Hk] & _) _]. rewrite Hk. apply elem_of_app. by left.
Qed.
End merge_props.

(** ** Trailing slashes of the root URL *)

Lemma rev_app_append (s1 s2 acc : string) :
  String.rev_app (s1 +:+ s2) acc = String.rev_app s2 (String.rev_app s1 acc).
Proof.
  revert acc. induction s1 as [|a s1 IH]; intros acc; [done|]. simpl.
  apply IH.
Qed.

Lemma rstrip_slash_slash (s : string) :
  Resource.rstrip_slash (s +:+ "/") = Resource.rstrip_slash s.
Proof.
  unfold Resource.rstrip_slash, String.rev. by rewrite rev_app_append.
Qed.

(** A trailing slash of the root URL makes no difference to
    [load_index]. *)
Theorem load_index_trailing_slash json_loads url_netloc url_path py_str
    split_eggname canonical_name plat (net : Resource.network) url self :
  Resource.load_index json_loads url_netloc url_path py_str split_eggname
    canonical_name plat net (url +:+ "/") self
  = Resource.load_index json_loads url_netloc url_path py_str split_eggname
      canonical_name plat net url self.
Proof. unfold Resource.load_index. by rewrite rstrip_slash_slash. Qed.

(** ** Errors of the status classifier *)

Section status_more.
Import Resource.
Context {V : Type}.
Variable split_eggname : string → option (string * string * Z).
Variable split_dist : string → option (string * string).
Variable comparable_version : string → option V.
Variable V_cmp : V → V → comparison.
Variable get_dist : Chain.t → string → option string.
Variable get_installed_cnames : list string.
Variable get_installed_info : string → option (gmap string string).

Abbreviation available_step :=
  (Resource.available_step split_eggname split_dist get_dist).
Abbreviation installed_step :=
  (Resource.installed_step split_eggname split_dist get_dist
     get_installed_info).
Abbreviation set_status :=
  (Resource.set_status split_eggname comparable_version V_cmp).
Abbreviation get_status :=
  (Resource.get_status split_eggname split_dist comparable_version V_cmp
     get_dist get_installed_cnames get_installed_info).
Abbreviation well_named :=
  (Resource.well_named split_eggname split_dist get_dist).
Abbreviation some_installed := (Resource.some_installed get_installed_info).

Lemma available_loop_raises c keys res :
  forallb (well_named c) keys = false →
  ∃ msg, foldM (available_step c) res keys = Raise (AssertionError msg).
Proof.
  revert res. induction keys as [|k keys IH]; intros res; [done|]. simpl.
  intros Hbad. unfold Resource.available_step at 1.
  unfold Resource.well_named at 1 in Hbad.
  destruct (get_dist c k) as [dist|]; [|by apply IH].
  destruct (split_dist dist) as [[repo fn]|]; [|by eexists].
  destruct (split_eggname fn) as [[[n v] b]|]; [|by eexists].
  rewrite bool_decide_eq_true_2 in Hbad by done. by apply IH.
Qed.

(** The filename of an available egg is not guarded: when some
    installed name has an info dict and the distribution that the chain
    answers for some group cannot be split into repository, name, version
    and build, [get_status] raises an assertion error. *)
Theorem get_status_malformed_available self :
  some_installed get_installed_cnames = true →
  forallb (well_named (chain self)) (group_names (chain self)) = false →
  ∃ msg, get_status self = Raise (AssertionError msg).
Proof.
  intros Hsome Hbad. unfold Resource.get_status.
  assert (Hloop : ∀ names (res : gmap string (gmap string string)),
             some_installed names = true →
             ∃ msg, foldM (installed_step (chain self)) res names
                    = Raise (AssertionError msg)).
  { induction names as [|n names IH]; intros res; [done|].
    unfold Resource.some_installed. simpl.
    unfold Resource.installed_step at 1.
    destruct (get_installed_info n) as [info|].
    - intros _.
      destruct (available_loop_raises (chain self) (group_names (chain self))
                  (<[n:=info]> res) Hbad) as [msg Hmsg].
      exists msg. unfold group_names in Hmsg. by rewrite Hmsg.
    - rewrite bool_decide_eq_false_2 by (by intros [? ?]). simpl.
      apply IH. }
  destruct (Hloop get_installed_cnames ∅ Hsome) as [msg Hmsg].
  exists msg. by rewrite Hmsg.
Qed.
End status_more.

(** ** The caches of a [Resources] object *)

Section cached_props.
Import Resource Cached.
Context {V : Type}.
Variable split_eggname : string → option (string * string * Z).
Variable split_dist : string → option (string * string).
Variable comparable_version : string → option V.
Variable V_cmp : V → V → comparison.
Variable get_dist : Chain.t → string → option string.

Abbreviation compute_status :=
  (Cached.compute_status split_eggname split_dist comparable_version V_cmp
     get_dist).
Abbreviation get_status :=
  (Cached.get_status split_eggname split_dist comparable_version V_cmp
     get_dist).
Abbreviation get_installed :=
  (Cached.get_installed split_eggname split_dist comparable_version V_cmp
     get_dist).
Abbreviation set_status :=
  (Resource.set_status split_eggname comparable_version V_cmp).
Abbreviation well_named :=
  (Resource.well_named split_eggname split_dist get_dist).
Abbreviation available :=
  (Resource.available split_eggname split_dist get_dist).
Abbreviation with_available :=
  (Resource.with_available split_eggname split_dist get_dist).

(** A status that has been computed and is not empty is served from the
    cache from then on: whatever is installed or removed in the meantime
    and whatever the catalog becomes, [get_status] answers the same dict
    and leaves the caches alone. *)
Theorem get_status_stale pr c ca res ca1 :
  get_status pr c ca = (Ok res, ca1) →
  res ≠ ∅ →
  ∀ pr' c', get_status pr' c' ca1 = (Ok res, ca1).
Proof.
  intros Hget Hne pr' c'. unfold Cached.get_status in *.
  assert (Hcomp : ∀ ca0,
    (let '(names, ca) := get_installed_cnames pr ca0 in
     match compute_status names pr c with
     | Raise e => (Raise e, ca)
     | Ok res0 => (Ok res0, {| _installed_cnames := _installed_cnames ca;
                               _status := Some res0;
                               _installed := _installed ca |})
     end) = (Ok res, ca1) → _status ca1 = Some res).
  { intros ca0. destruct (get_installed_cnames pr ca0) as [names ca2].
    destruct (compute_status names pr c); [|done]. by intros [= <- <-]. }
  assert (Hst : _status ca1 = Some res).
  { destruct (_status ca) as [res0|] eqn:Hca; [|by eapply Hcomp].
    destruct (decide (res0 = ∅)); [by eapply Hcomp|]. by simplify_eq. }
  rewrite Hst. by rewrite decide_False.
Qed.

(** After [install] or [uninstall] has returned, the caches are empty:
    the next [get_status] asks the probe again and computes the status
    from what is installed then.  [install] returns the sum of the counts
    and [uninstall] returns 1. *)
Theorem install_invalidates {Req : Type} (enst_install : Req → result Z)
    (enst_remove : Req → result unit) reqs ca n ca' pr c :
  install enst_install reqs ca = (Ok n, ca')
  ∨ uninstall enst_remove reqs ca = (Ok n, ca') →
  ca' = clear_cache ca
  ∧ (get_status pr c ca').1 = compute_status (cnames pr) pr c
  ∧ (install enst_install reqs ca = (Ok n, ca') →
     install_count enst_install 0 reqs = Ok n)
  ∧ (uninstall enst_remove reqs ca = (Ok n, ca') → n = 1%Z).
Proof.
  intros Hrun.
  assert (Hca : ca' = clear_cache ca).
  { destruct Hrun as [Hrun|Hrun].
    - unfold install in Hrun.
      destruct (install_count enst_install 0 reqs); by simplify_eq.
    - unfold uninstall in Hrun.
      destruct (remove_all enst_remove reqs); by simplify_eq. }
  split; [done|]. split; [|split].
  - subst ca'. unfold Cached.get_status. simpl.
    by destruct (compute_status (cnames pr) pr c).
  - unfold install. destruct (install_count enst_install 0 reqs);
      intros Heq; by simplify_eq.
  - unfold uninstall. destruct (remove_all enst_remove reqs);
      intros Heq; by simplify_eq.
Qed.

(** *** The installed set *)

Lemma read_installed_egg pkg :
  (read_installed pkg).1
  = if negb (String.eqb (default "" (pkg !! "status")) "installable")
    then Some (default "" (pkg !! "egg_name"))
    else None.
Proof.
  unfold read_installed, getitem_str.
  destruct (pkg !! "status") as [st|] eqn:Hst; simpl.
  - destruct (negb (st =? "installable")); [|done].
    by destruct (pkg !! "egg_name").
  - rewrite lookup_insert_ne by done. by destruct (pkg !! "egg_name").
Qed.

Lemma set_status_egg_name d :
  set_status d !! "egg_name" = Some (default "" (d !! "egg_name")).
Proof.
  unfold Resource.set_status, getitem_str.
  destruct (d !! "egg_name") as [e|] eqn:He; simpl;
    [|rewrite lookup_insert_ne by done];
    destruct (d !! "a-egg") as [a|] eqn:Ha; simpl;
    repeat case_match;
    repeat (rewrite lookup_insert_ne by done);
    rewrite ?lookup_insert_eq; done.
Qed.

(** From empty caches, [get_installed] is the set of the egg files of
    the installed names: an egg that is only available is never in it. *)
Theorem get_installed_eggs pr c ca :
  forallb (well_named c) (group_names c) = true →
  split_eggname "" = None →
  (∀ cname i, info pr cname = Some i →
              ∃ e, i !! "egg_name" = Some e ∧ e ≠ "" ∧ i !! "a-egg" = None) →
  ∃ installed ca',
    get_installed pr c (clear_cache ca) = (Ok installed, ca')
    ∧ ∀ f, f ∈ installed ↔
           ∃ cname i, cname ∈ cnames pr ∧ info pr cname = Some i
                      ∧ i !! "egg_name" = Some f.
Proof.
  intros Hwn Hempty Hinfo.
  destruct (get_status_records split_eggname split_dist comparable_version
              V_cmp get_dist (cnames pr) (info pr)
              {| Resource.index := []; Resource.chain := c |} Hwn)
    as (res & Hget & Hres).
  unfold Cached.get_installed, Cached.get_status. simpl.
  unfold Cached.compute_status. rewrite Hget. eexists _, _.
  split; [reflexivity|]. intros f.
  rewrite elem_of_list_to_set, list_elem_of_omap. split.
  - intros (pkg & Hpkg & Hread).
    apply list_elem_of_fmap in Hpkg as ([k pkg'] & -> & Hk).
    apply elem_of_map_to_list in Hk. simpl in *.
    rewrite Hres in Hk. rewrite read_installed_egg in Hread.
    destruct (some_installed (info pr) (cnames pr)); [|done].
    unfold Resource.with_available, Resource.installed_record in Hk.
    simpl in Hk. destruct (decide (k ∈ cnames pr)) as [Hin|Hin].
    + destruct (info pr k) as [i|] eqn:Hi.
      * destruct (Hinfo k i Hi) as (e & He & Hne & Ha).
        exists k, i. split; [done|]. split; [done|].
        assert (Hegg : pkg' !! "egg_name" = Some e).
        { destruct (available c k) as [[[fn v] b]|]; simpl in Hk;
            injection Hk as <-; rewrite set_status_egg_name;
            rewrite ?lookup_insert_ne by done; by rewrite He. }
        rewrite Hegg in Hread. simpl in Hread.
        destruct (negb _); by simplify_eq.
      * destruct (available c k) as [[[fn v] b]|] eqn:Hav; [|done].
        simpl in Hk. injection Hk as <-.
        rewrite set_status_status in Hread.
        rewrite !(lookup_insert_ne _ "a-ver") in Hread by done.
        rewrite lookup_insert_eq, lookup_insert_ne in Hread by done.
        rewrite lookup_singleton_ne in Hread by done. simpl in Hread.
        rewrite eqb_nonempty in Hread; [done|].
        by eapply available_nonempty.
    + destruct (available c k) as [[[fn v] b]|] eqn:Hav; [|done].
      simpl in Hk. injection Hk as <-.
      rewrite set_status_status in Hread.
      rewrite !(lookup_insert_ne _ "a-ver") in Hread by done.
      rewrite lookup_insert_eq, lookup_insert_ne in Hread by done.
      rewrite lookup_singleton_ne in Hread by done. simpl in Hread.
      rewrite eqb_nonempty in Hread; [done|].
      by eapply available_nonempty.
  - intros (cname & i & Hin & Hi & Hf).
    destruct (Hinfo cname i Hi) as (e & He & Hne & Ha).
    assert (e = f) as -> by congruence.
    assert (Hsome : some_installed (info pr) (cnames pr) = true).
    { destruct (some_installed (info pr) (cnames pr)) eqn:Hs; [done|].
      by rewrite (some_installed_false _ _ _ Hs Hin) in Hi. }
    specialize (Hres cname). rewrite Hsome in Hres.
    unfold Resource.installed_record in Hres.
    rewrite decide_True in Hres by done. rewrite Hi in Hres.
    unfold Resource.with_available in Hres. simpl in Hres.
    destruct (available c cname) as [[[fn v] b]|] eqn:Hav; simpl in Hres.
    + eexists. split.
      * apply list_elem_of_fmap. eexists (cname, _). split; [done|].
        apply elem_of_map_to_list. exact Hres.
      * cbn [snd].
        rewrite read_installed_egg, set_status_status, set_status_egg_name.
        rewrite !(lookup_insert_ne _ "a-ver") by done.
        rewrite lookup_insert_eq, !lookup_insert_ne by done. rewrite He.
        simpl. rewrite eqb_nonempty by done.
        rewrite eqb_nonempty by (by eapply available_nonempty).
        by destruct (Resource.py_ge _ _ _).
    + eexists. split.
      * apply list_elem_of_fmap. eexists (cname, _). split; [done|].
        apply elem_of_map_to_list. exact Hres.
      * cbn [snd].
        rewrite read_installed_egg, set_status_status, set_status_egg_name.
        rewrite He, Ha. simpl. by rewrite eqb_nonempty.
Qed.
End cached_props.

(** ** The order of the installed names *)

Lemma some_installed_elem (info : string → option (gmap string string))
    (names : list string) :
  Resource.some_installed info names = true ↔
  ∃ k, k ∈ names ∧ is_Some (info k).
Proof.
  unfold Resource.some_installed. induction names as [|n names IH]; simpl.
  - split; [done|]. intros (k & Hk & _). by apply elem_of_nil in Hk.
  - rewrite orb_true_iff, IH, bool_decide_eq_true. split.
    + intros [Hn|(k & Hk & Hi)]; [exists n|exists k];
        (split; [|done]); [left|by right].
    + intros (k & [->|Hk]%elem_of_cons & Hi); [by left|right; eauto].
Qed.

(** The status does not depend on the order in which the probe lists the
    installed names, nor on a name being listed twice. *)
Theorem get_status_order_irrelevant {V : Type}
    (split_eggname : string → option (string * string * Z))
    (split_dist : string → option (string * string))
    (comparable_version : string → option V) (V_cmp : V → V → comparison)
    (get_dist : Chain.t → string → option string)
    (names names' : list string)
    (info : string → option (gmap string string)) (self : Resource.Resources) :
  forallb (Resource.well_named split_eggname split_dist get_dist
             (Resource.chain self))
          (Resource.group_names (Resource.chain self)) = true →
  (∀ k, k ∈ names ↔ k ∈ names') →
  Resource.get_status split_eggname split_dist comparable_version V_cmp
    get_dist names info self
  = Resource.get_status split_eggname split_dist comparable_version V_cmp
      get_dist names' info self.
Proof.
  intros Hwn Hsame.
  destruct (get_status_records split_eggname split_dist comparable_version
              V_cmp get_dist names info self Hwn) as (res & -> & Hres).
  destruct (get_status_records split_eggname split_dist comparable_version
              V_cmp get_dist names' info self Hwn) as (res' & -> & Hres').
  f_equal. apply map_eq. intros k. rewrite Hres, Hres'.
  assert (Hsome : Resource.some_installed info names
                  = Resource.some_installed info names').
  { apply eq_true_iff_eq. rewrite !some_installed_elem.
    split; intros (x & Hx & Hi); exists x; (split; [|done]); by apply Hsame. }
  rewrite Hsome. destruct (Resource.some_installed info names'); [|done].
  do 2 f_equal. unfold Resource.installed_record.
  destruct (decide (k ∈ names)) as [Hk|Hk].
  - by rewrite decide_True by (by apply Hsame).
  - rewrite decide_False; [done|]. intros Hk'. by apply Hk, Hsame.
Qed.

(** ** The product dict after the merge *)

Lemma update_lookup (d : gmap string json) (items : list (string * json)) k :
  NoDup items.*1 →
  Resource.update d items !! k
  = match Resource.assoc k items with
    | Some v => Some v
    | None => d !! k
    end.
Proof.
  unfold Resource.update. revert d.
  induction items as [|[k' v'] items IH]; intros d Hnd; [done|].
  apply NoDup_cons in Hnd as [Hk' Hnd]. simpl. rewrite IH by done.
  destruct (String.eqb_spec k k') as [->|Hne].
  - destruct (Resource.assoc k' items) as [v|] eqn:Hassoc.
    + exfalso. apply Hk'. clear -Hassoc.
      induction items as [|[k2 v2] items IH]; [done|]. simpl in *.
      destruct (String.eqb_spec k' k2) as [->|_]; [left|right; by apply IH].
    + by rewrite lookup_insert_eq.
  - destruct (Resource.assoc k items); [done|]. by rewrite lookup_insert_ne.
Qed.

(** The product index has the last word: every key of the index that
    was read, also [url], [base_url] and [index_url], replaces what the
    root index and [load_index] have put into the product dict, and the
    other keys stay. *)
Theorem merge_product_index_overrides json_loads url_netloc url_path py_str
    plat (net : Resource.network) (product product' : gmap string json)
    url index_url items :
  product !! "url" = Some url →
  (Resource._read_product_index json_loads url_netloc url_path plat net
     (Resource.format_s py_str url)).1 = Ok (index_url, JDict items) →
  NoDup items.*1 →
  Resource.merge_product_index json_loads url_netloc url_path py_str plat
    net product = Ok product' →
  ∀ k, product' !! k
       = match Resource.assoc k items with
         | Some v => Some v
         | None => if decide (k = "index_url") then Some (JStr index_url)
                   else product !! k
         end.
Proof.
  intros Hurl Hread Hnd Hmerge k. unfold Resource.merge_product_index in Hmerge.
  rewrite Hurl, Hread in Hmerge. injection Hmerge as <-.
  rewrite update_lookup by done.
  destruct (Resource.assoc k items); [done|].
  destruct (decide (k = "index_url")) as [->|Hk].
  - by rewrite lookup_insert_eq.
  - by rewrite lookup_insert_ne.
Qed.

(** ** Loading twice *)

(** Nothing is deduplicated: loading the same root index a second time
    appends the products that are added once more. *)
Theorem load_index_twice json_loads url_netloc url_path py_str
    split_eggname canonical_name plat (net : Resource.network) url self
    root products :
  Resource.read_json_from_url net
    (Resource.rstrip_slash url +:+ "/" +:+ "products") = Ok root →
  Resource.iter root = Ok products →
  forallb (Resource.nonfatal json_loads url_netloc url_path py_str
             split_eggname canonical_name plat net
             (Resource.rstrip_slash url)) products = true →
  let load := Resource.load_index json_loads url_netloc url_path py_str
                split_eggname canonical_name plat net url in
  let added := Resource.added_products json_loads url_netloc url_path py_str
                 split_eggname canonical_name plat net
                 (Resource.rstrip_slash url) products in
  Resource.index (load (load self).2).2
  = Resource.index self ++ added ++ added.
Proof.
  intros Hroot Hiter Hall. cbv zeta.
  assert (Hload : ∀ s,
    Resource.index
      (Resource.load_index json_loads url_netloc url_path py_str
         split_eggname canonical_name plat net url s).2
    = Resource.index s
      ++ Resource.added_products json_loads url_netloc url_path py_str
           split_eggname canonical_name plat net
           (Resource.rstrip_slash url) products).
  { intros s. unfold Resource.load_index. rewrite Hroot.
    rewrite (bind_lift_ok _ products) by done.
    rewrite (bind_run _ _ _ _ _
               (load_products_nonfatal json_loads url_netloc url_path py_str
                  split_eggname canonical_name plat net _ [] _ s Hall)).
    rewrite <- (loaded_index json_loads url_netloc url_path py_str
                  split_eggname canonical_name plat net
                  (Resource.rstrip_slash url) products s).
    simpl. by case_match. }
  by rewrite !Hload, <- app_assoc.
Qed.

(** ** The further properties on concrete inputs *)

Lemma main_phase_barrier_witness :
  ∃ F R I,
    EnpkgRun.main EnpkgRun.installed_sys EnpkgRun.force_only "/usr"
      "/usr/LOCAL-REPO" false EnpkgRun.targets
    = Ok ([Enpkg.Makedirs "/usr/LOCAL-REPO"] ++ F ++ R ++ I)
    ∧ Forall (λ e, EnpkgTrace.is_fetch e = true) F
    ∧ Forall (λ e, EnpkgTrace.is_removal e = true) R
    ∧ Forall (λ e, EnpkgTrace.is_install e = true) I.
Proof.
  apply (main_phase_barrier Naming.filename_dist Naming.cname_eggname
           EnpkgRun.installed_sys EnpkgRun.join EnpkgRun.sys_prefix
           EnpkgRun.force_only "/usr" "/usr/LOCAL-REPO" false
           EnpkgRun.targets).
  intros _; discriminate.
Defined.

Lemma dry_run_effects_witness :
  ∃ tr tr',
    EnpkgRun.main EnpkgRun.installed_sys EnpkgRun.force_only "/usr"
      "/usr/LOCAL-REPO" false EnpkgRun.targets = Ok tr
    ∧ EnpkgRun.main EnpkgRun.installed_sys
        (EnpkgTrace.for_real EnpkgRun.force_only) "/usr" "/usr/LOCAL-REPO"
        false EnpkgRun.targets = Ok tr'
    ∧ filter (λ e, EnpkgTrace.is_effect e = true) tr
      = [Enpkg.Makedirs "/usr/LOCAL-REPO"]
    ∧ Enpkg.fetched Naming.filename_dist tr
      = Enpkg.fetched Naming.filename_dist tr'
    ∧ Enpkg.removed tr = Enpkg.removed tr'
    ∧ Enpkg.installed tr = Enpkg.installed tr'.
Proof.
  apply (dry_run_effects Naming.filename_dist Naming.cname_eggname
           EnpkgRun.installed_sys EnpkgRun.join EnpkgRun.sys_prefix
           EnpkgRun.force_only "/usr" "/usr/LOCAL-REPO" false
           EnpkgRun.targets).
  - reflexivity.
  - intros _; discriminate.
Defined.

Lemma main_all_installed_witness :
  EnpkgRun.main EnpkgRun.installed_sys EnpkgRun.plain "/usr"
    "/usr/LOCAL-REPO" true ["http://repo/foo-1.0-1.egg"] = Ok [].
Proof.
  apply (main_all_installed Naming.filename_dist Naming.cname_eggname
           EnpkgRun.installed_sys EnpkgRun.join EnpkgRun.sys_prefix
           EnpkgRun.plain "/usr" "/usr/LOCAL-REPO" true
           ["http://repo/foo-1.0-1.egg"]).
  - reflexivity.
  - reflexivity.
  - intros dist Hd. apply list_elem_of_singleton in Hd. subst dist.
    unfold Enpkg.sys_inst. apply elem_of_list_to_set.
    change (EnpkgRun.installed_sys EnpkgRun.sys_prefix) with ["foo-1.0-1.egg"].
    change (Naming.filename_dist "http://repo/foo-1.0-1.egg")
      with "foo-1.0-1.egg".
    apply list_elem_of_here.
Defined.

Lemma remove_req_not_installed_witness :
  MoreRuns.remove_req EnpkgRun.installed_sys MoreRuns.py_int MoreRuns.any_bar
    "/usr" false
  = (Ok tt, [EnpkgRemove.PrintNotInstalled "bar"]).
Proof.
  apply (remove_req_not_installed Naming.cname_eggname MoreRuns.py_int
           EnpkgRun.installed_sys MoreRuns.any_bar "/usr" false).
  intros fn Hfn.
  change (EnpkgRun.installed_sys "/usr") with ["foo-1.0-1.egg"] in Hfn.
  apply list_elem_of_singleton in Hfn. subst fn. discriminate.
Defined.

Lemma remove_req_first_match_witness :
  MoreRuns.remove_req MoreRuns.installed_two MoreRuns.py_int MoreRuns.foo_2
    "/usr" false
  = MoreRuns.remove_req (λ _, ["foo-1.0-1.egg"]) MoreRuns.py_int
      MoreRuns.foo_2 "/usr" false.
Proof.
  apply (remove_req_first_match Naming.cname_eggname MoreRuns.py_int
           MoreRuns.installed_two (λ _, ["foo-1.0-1.egg"]) MoreRuns.foo_2
           "/usr" false [] "foo-1.0-1.egg" ["foo-2.0-1.egg"]).
  - reflexivity.
  - intros f Hf. by apply elem_of_nil in Hf.
  - reflexivity.
  - reflexivity.
Defined.

Lemma remove_req_any_version_witness :
  MoreRuns.remove_req MoreRuns.installed_two MoreRuns.py_int MoreRuns.any_foo
    "/usr" false
  = (Ok tt,
     [EnpkgRemove.Do
        (Enpkg.PprintFnAction (EnpkgRemove.strip_egg "foo-1.0-1.egg")
           "removing");
      EnpkgRemove.Do
        (Enpkg.CallEgginst
           ["--remove"; "--prefix"; "/usr";
            EnpkgRemove.strip_egg "foo-1.0-1.egg"])]).
Proof.
  apply (remove_req_any_version Naming.cname_eggname MoreRuns.py_int
           MoreRuns.installed_two MoreRuns.any_foo "/usr" []
           "foo-1.0-1.egg" ["foo-2.0-1.egg"]).
  - reflexivity.
  - reflexivity.
  - intros f Hf. by apply elem_of_nil in Hf.
  - reflexivity.
Defined.

Lemma read_product_index_unparsable_witness :
  (Resource._read_product_index MoreRuns.json_loads ResourceRun.url_netloc
     ResourceRun.url_path ResourceRun.plat MoreRuns.net_garbled
     "http://host/repo/products/acme").1
  = Raise (EnstallerResourceIndexError
             "/repo/products/acme/index-rh5-64.json").
Proof.
  apply (read_product_index_unparsable MoreRuns.json_loads
           ResourceRun.url_netloc ResourceRun.url_path ResourceRun.plat
           MoreRuns.net_garbled "http://host/repo/products/acme");
    reflexivity.
Defined.

Lemma add_product_platform_mismatch_witness :
  MoreRuns.add_product MoreRuns.net_win MoreRuns.acme_product Resource.init
  = (Raise (PlatformException
              ("index file for platform " +:+ "win-32" +:+
               ", but running " +:+ ResourceRun.plat)), Resource.init).
Proof.
  apply (add_product_platform_mismatch MoreRuns.json_loads
           ResourceRun.url_netloc ResourceRun.url_path ResourceRun.py_str
           Naming.split_eggname Naming.canonical_name ResourceRun.plat
           MoreRuns.net_win MoreRuns.acme_product
           (<["platform" := JStr "win-32"]>
              (<["index_url" := JStr "http://host/repo/products/acme/index.json"]>
                 MoreRuns.acme_product))
           (JStr "win-32") Resource.init).
  - vm_compute. reflexivity.
  - vm_compute. reflexivity.
  - discriminate.
Defined.

Lemma load_index_fatal_witness :
  ∃ self',
    Resource.load_index MoreRuns.json_loads ResourceRun.url_netloc
      ResourceRun.url_path ResourceRun.py_str Naming.split_eggname
      Naming.canonical_name ResourceRun.plat MoreRuns.net_win
      "http://host/repo/" Resource.init
    = (Raise (PlatformException
                "index file for platform win-32, but running rh5-64"), self')
    ∧ Resource.index self'
      = Resource.index Resource.init
        ++ Resource.added_products MoreRuns.json_loads ResourceRun.url_netloc
             ResourceRun.url_path ResourceRun.py_str Naming.split_eggname
             Naming.canonical_name ResourceRun.plat MoreRuns.net_win
             (Resource.rstrip_slash "http://host/repo/") [].
Proof.
  apply (load_index_fatal MoreRuns.json_loads ResourceRun.url_netloc
           ResourceRun.url_path ResourceRun.py_str Naming.split_eggname
           Naming.canonical_name ResourceRun.plat MoreRuns.net_win
           "http://host/repo/" Resource.init (JList [ResourceRun.acme])
           [] ResourceRun.acme []).
  - reflexivity.
  - reflexivity.
  - reflexivity.
  - vm_compute. reflexivity.
  - discriminate.
Defined.

Lemma load_index_consistent_witness :
  Catalog.consistent Naming.canonical_name
    (Resource.chain
       (Resource.load_index ResourceRun.json_loads ResourceRun.url_netloc
          ResourceRun.url_path ResourceRun.py_str Naming.split_eggname
          Naming.canonical_name ResourceRun.plat ResourceRun.net_partial
          "http://host/repo/" Resource.init).2).
Proof.
  apply (load_index_consistent ResourceRun.json_loads ResourceRun.url_netloc
           ResourceRun.url_path ResourceRun.py_str Naming.split_eggname
           Naming.canonical_name ResourceRun.plat ResourceRun.net_partial
           "http://host/repo/" Resource.init).
  apply consistent_empty.
Defined.

Lemma add_egg_repos_files_all_witness :
  ∃ repo dists,
    repo ∈ Chain.repos
             (Resource.chain
                (MoreRuns._add_egg_repos "http://host/repo/products/acme"
                   MoreRuns.acme_merged Resource.init).2)
    ∧ Chain.groups
        (Resource.chain
           (MoreRuns._add_egg_repos "http://host/repo/products/acme"
              MoreRuns.acme_merged Resource.init).2) !! "acme" = Some dists
    ∧ repo +:+ "acme-1.2.0-1.egg" ∈ dists
    ∧ is_Some (Chain.index
                 (Resource.chain
                    (MoreRuns._add_egg_repos "http://host/repo/products/acme"
                       MoreRuns.acme_merged Resource.init).2)
               !! (repo +:+ "acme-1.2.0-1.egg")).
Proof.
  apply (add_egg_repos_files_all Naming.split_eggname Naming.canonical_name
           "http://host/repo/products/acme" MoreRuns.acme_merged
           Resource.init
           (MoreRuns._add_egg_repos "http://host/repo/products/acme"
              MoreRuns.acme_merged Resource.init).2
           (JDict [("acme",
                    JDict [("files",
                            JDict [("acme-1.2.0-1.egg", JDict [])])])])
           [("acme",
             JDict [("files", JDict [("acme-1.2.0-1.egg", JDict [])])])]
           "acme"
           (JDict [("files", JDict [("acme-1.2.0-1.egg", JDict [])])])
           (JDict [("acme-1.2.0-1.egg", JDict [])])
           [("acme-1.2.0-1.egg", JDict [])]
           "acme-1.2.0-1.egg" (JDict [])).
  - vm_compute. reflexivity.
  - vm_compute. reflexivity.
  - reflexivity.
  - apply list_elem_of_here.
  - reflexivity.
  - reflexivity.
  - apply list_elem_of_here.
Defined.

Lemma get_status_malformed_available_witness :
  ∃ msg,
    Resource.get_status Naming.split_eggname Naming.split_dist
      Naming.comparable_version Naming.V_cmp StatusRun.get_dist
      ["acme"] StatusRun.old_acme
      {| Resource.index := []; Resource.chain := MoreRuns.bare_chain |}
    = Raise (AssertionError msg).
Proof.
  apply (get_status_malformed_available Naming.split_eggname
           Naming.split_dist Naming.comparable_version Naming.V_cmp
           StatusRun.get_dist ["acme"] StatusRun.old_acme
           {| Resource.index := []; Resource.chain := MoreRuns.bare_chain |}).
  - reflexivity.
  - vm_compute. reflexivity.
Defined.

Lemma get_status_order_irrelevant_witness :
  Resource.get_status Naming.split_eggname Naming.split_dist
    Naming.comparable_version Naming.V_cmp StatusRun.get_dist
    ["acme"; "foo"] StatusRun.old_acme
    {| Resource.index := []; Resource.chain := StatusRun.acme_chain |}
  = Resource.get_status Naming.split_eggname Naming.split_dist
      Naming.comparable_version Naming.V_cmp StatusRun.get_dist
      ["foo"; "acme"; "foo"] StatusRun.old_acme
      {| Resource.index := []; Resource.chain := StatusRun.acme_chain |}.
Proof.
  apply (get_status_order_irrelevant Naming.split_eggname Naming.split_dist
           Naming.comparable_version Naming.V_cmp StatusRun.get_dist
           ["acme"; "foo"] ["foo"; "acme"; "foo"] StatusRun.old_acme
           {| Resource.index := []; Resource.chain := StatusRun.acme_chain |}).
  - vm_compute. reflexivity.
  - intros k. rewrite !elem_of_cons, !elem_of_nil. tauto.
Defined.

Lemma get_status_stale_witness :
  Cached.get_status Naming.split_eggname Naming.split_dist
    Naming.comparable_version Naming.V_cmp StatusRun.get_dist
    MoreRuns.empty_probe Chain.empty MoreRuns.first_cache
  = (Ok MoreRuns.first_status, MoreRuns.first_cache).
Proof.
  refine (get_status_stale Naming.split_eggname Naming.split_dist
            Naming.comparable_version Naming.V_cmp StatusRun.get_dist
            MoreRuns.acme_probe StatusRun.acme_chain MoreRuns.no_cache
            MoreRuns.first_status MoreRuns.first_cache _ _
            MoreRuns.empty_probe Chain.empty).
  - vm_compute. reflexivity.
  - intros Hempty.
    assert (Hacme : MoreRuns.first_status !! "acme" = None).
    { rewrite Hempty. apply lookup_empty. }
    vm_compute in Hacme. discriminate.
Defined.

Lemma install_invalidates_witness :
  Cached.clear_cache MoreRuns.first_cache
  = Cached.clear_cache MoreRuns.first_cache
  ∧ (Cached.get_status Naming.split_eggname Naming.split_dist
       Naming.comparable_version Naming.V_cmp StatusRun.get_dist
       MoreRuns.empty_probe StatusRun.acme_chain
       (Cached.clear_cache MoreRuns.first_cache)).1
    = Cached.compute_status Naming.split_eggname Naming.split_dist
        Naming.comparable_version Naming.V_cmp StatusRun.get_dist
        (Cached.cnames MoreRuns.empty_probe) MoreRuns.empty_probe
        StatusRun.acme_chain
  ∧ (Cached.install MoreRuns.install_one ["acme"; "foo"] MoreRuns.first_cache
     = (Ok 2%Z, Cached.clear_cache MoreRuns.first_cache) →
     Cached.install_count MoreRuns.install_one 0 ["acme"; "foo"] = Ok 2%Z)
  ∧ (Cached.uninstall MoreRuns.remove_one ["acme"; "foo"]
       MoreRuns.first_cache
     = (Ok 2%Z, Cached.clear_cache MoreRuns.first_cache) →
     2%Z = 1%Z).
Proof.
  apply (install_invalidates Naming.split_eggname Naming.split_dist
           Naming.comparable_version Naming.V_cmp StatusRun.get_dist
           MoreRuns.install_one MoreRuns.remove_one ["acme"; "foo"]
           MoreRuns.first_cache 2%Z
           (Cached.clear_cache MoreRuns.first_cache)
           MoreRuns.empty_probe StatusRun.acme_chain).
  left. reflexivity.
Defined.

Lemma get_installed_eggs_witness :
  ∃ installed ca',
    Cached.get_installed Naming.split_eggname Naming.split_dist
      Naming.comparable_version Naming.V_cmp StatusRun.get_dist
      MoreRuns.acme_probe StatusRun.acme_chain
      (Cached.clear_cache MoreRuns.no_cache) = (Ok installed, ca')
    ∧ ∀ f, f ∈ installed ↔
           ∃ cname i, cname ∈ Cached.cnames MoreRuns.acme_probe
                      ∧ Cached.info MoreRuns.acme_probe cname = Some i
                      ∧ i !! "egg_name" = Some f.
Proof.
  apply (get_installed_eggs Naming.split_eggname Naming.split_dist
           Naming.comparable_version Naming.V_cmp StatusRun.get_dist
           MoreRuns.acme_probe StatusRun.acme_chain MoreRuns.no_cache).
  - vm_compute. reflexivity.
  - reflexivity.
  - intros cname i. simpl. unfold StatusRun.old_acme.
    destruct (String.eqb cname "acme"); [|discriminate].
    intros [= <-]. exists "acme-1.0.0-1.egg".
    split; [reflexivity|]. split; [discriminate|reflexivity].
Defined.

Lemma merge_product_index_overrides_witness :
  <["eggs" := JDict [("acme",
                      JDict [("files",
                              JDict [("acme-1.2.0-1.egg", JDict [])])])]]>
    (<["index_url" := JStr "http://host/repo/products/acme/index.json"]>
       MoreRuns.acme_product) !! "index_url"
  = match Resource.assoc "index_url"
            [("eggs",
              JDict [("acme",
                      JDict [("files",
                              JDict [("acme-1.2.0-1.egg", JDict [])])])])]
    with
    | Some v => Some v
    | None =>
        if decide ("index_url" = "index_url")
        then Some (JStr "http://host/repo/products/acme/index.json")
        else MoreRuns.acme_product !! "index_url"
    end.
Proof.
  refine (merge_product_index_overrides ResourceRun.json_loads
            ResourceRun.url_netloc ResourceRun.url_path ResourceRun.py_str
            ResourceRun.plat ResourceRun.net_partial MoreRuns.acme_product
            (<["eggs" := JDict [("acme",
                                 JDict [("files",
                                         JDict [("acme-1.2.0-1.egg",
                                                 JDict [])])])]]>
               (<["index_url" :=
                    JStr "http://host/repo/products/acme/index.json"]>
                  MoreRuns.acme_product))
            (JStr "http://host/repo/products/acme")
            "http://host/repo/products/acme/index.json"
            [("eggs",
              JDict [("acme",
                      JDict [("files",
                              JDict [("acme-1.2.0-1.egg", JDict [])])])])]
            _ _ _ _ "index_url").
  - vm_compute. reflexivity.
  - vm_compute. reflexivity.
  - apply NoDup_singleton.
  - vm_compute. reflexivity.
Defined.

Lemma load_index_twice_witness :
  Resource.index
    (ResourceRun.load_index ResourceRun.net_partial "http://host/repo/"
       (ResourceRun.load_index ResourceRun.net_partial "http://host/repo/"
          Resource.init).2).2
  = Resource.index Resource.init
    ++ ResourceRun.added_products ResourceRun.net_partial
         (Resource.rstrip_slash "http://host/repo/")
         [ResourceRun.gone; ResourceRun.acme]
    ++ ResourceRun.added_products ResourceRun.net_partial
         (Resource.rstrip_slash "http://host/repo/")
         [ResourceRun.gone; ResourceRun.acme].
Proof.
  apply (load_index_twice ResourceRun.json_loads ResourceRun.url_netloc
           ResourceRun.url_path ResourceRun.py_str Naming.split_eggname
           Naming.canonical_name ResourceRun.plat ResourceRun.net_partial
           "http://host/repo/" Resource.init
           (JList [ResourceRun.gone; ResourceRun.acme])
           [ResourceRun.gone; ResourceRun.acme]).
  - reflexivity.
  - reflexivity.
  - vm_compute. reflexivity.
Defined.
